(** * Okta Terraform backup / restore tooling: a shallow embedding

    The Python scripts of the repository are translated into Rocq:
    - [scripts/create_backup_manifest.py]: [count_csv_rows], [count_json_items],
      [get_file_info], [create_manifest];
    - [state-based/scripts/restore_state.py]: [restore_s3_state_version],
      [run_terraform_apply], [load_manifest], [main];
    - [state-based/scripts/backup_state.py]: the manifest of
      [create_state_manifest];
    - [scripts/copy_grants_between_orgs.py]: [OktaGovernanceClient._make_request],
      [create_grant], the import loop of [import_grants];
    - [scripts/copy_group_memberships.py]: [OktaClient._make_request],
      [add_user_to_group], [export_memberships], [import_memberships], [main];
    - [scripts/export_users_to_csv.py]: [OktaClient._make_request] and the
      writer of [export_users_to_csv].

    Library code the scripts call ([csv.reader], universal-newline text
    reading, [csv.DictWriter]) is translated from CPython where a claim
    depends on it; remote services (S3, the Okta API, the terraform binary)
    are explicit oracles or explicit state. *)

From Stdlib Require Import String Ascii List ZArith Lia Bool.
From stdpp Require Import base gmap strings.
Import ListNotations.
Local Open Scope Z_scope.

(* ------------------------------------------------------------------ *)
(** ** Characters and Python string helpers                             *)
(* ------------------------------------------------------------------ *)

Module Py.

Definition LF : ascii := Ascii.ascii_of_nat 10.
Definition CR : ascii := Ascii.ascii_of_nat 13.
Definition COMMA : ascii := ",".
Definition DQUOTE : ascii := Ascii.ascii_of_nat 34.
Definition HASH : ascii := "#".

(** [str.startswith] *)
Definition startswith (s p : string) : bool := String.prefix p s.

(** [str.lower] on ASCII text. *)
Definition ascii_lower (c : ascii) : ascii :=
  let n := nat_of_ascii c in
  if (Nat.leb 65 n && Nat.leb n 90)%bool then ascii_of_nat (n + 32) else c.

Fixpoint lower (s : string) : string :=
  match s with
  | EmptyString => EmptyString
  | String c s' => String (ascii_lower c) (lower s')
  end.

(** [str.replace old new] (all non-overlapping occurrences, left to right),
    for a non-empty [old]. *)
Fixpoint replace_fuel (fuel : nat) (old new s : string) : string :=
  match fuel with
  | O => s
  | S fuel' =>
      match s with
      | EmptyString => EmptyString
      | String c s' =>
          if String.prefix old s
          then (new ++ replace_fuel fuel' old new
                  (substring (String.length old)
                     (String.length s - String.length old) s))%string
          else String c (replace_fuel fuel' old new s')
      end
  end.

Definition replace (s old new : string) : string :=
  replace_fuel (String.length s) old new s.

End Py.

(* ------------------------------------------------------------------ *)
(** ** Reading a text file: universal newlines and line iteration       *)
(* ------------------------------------------------------------------ *)

Module TextIO.
Import Py.

(** [open(path, 'r')] uses universal newlines: ["\r\n"] and a lone ["\r"]
    are read as ["\n"]. *)
Fixpoint translate_newlines (l : list ascii) : list ascii :=
  match l with
  | [] => []
  | c :: r =>
      if Ascii.eqb c CR then
        match r with
        | c2 :: r' => if Ascii.eqb c2 LF then LF :: translate_newlines r'
                      else LF :: translate_newlines r
        | [] => [LF]
        end
      else c :: translate_newlines r
  end.

(** Iterating a text file yields its lines, each keeping its ["\n"]; the
    last line has none when the file does not end in a newline. *)
Fixpoint split_lines_acc (acc : list ascii) (l : list ascii) : list (list ascii) :=
  match l with
  | [] => match acc with [] => [] | _ => [rev acc] end
  | c :: r =>
      if Ascii.eqb c LF then rev (c :: acc) :: split_lines_acc [] r
      else split_lines_acc (c :: acc) r
  end.

Definition file_lines (content : string) : list (list ascii) :=
  split_lines_acc [] (translate_newlines (list_ascii_of_string content)).

(** [open(path, encoding='utf-8')] decodes strictly: the bytes must be
    well-formed UTF-8 (Unicode Table 3-7: no overlong form, no surrogate,
    nothing above U+10FFFF), else [UnicodeDecodeError] is raised. *)
Definition byte_in (lo hi : nat) (c : ascii) : bool :=
  (Nat.leb lo (nat_of_ascii c) && Nat.leb (nat_of_ascii c) hi)%bool.

Definition cont_byte (c : ascii) : bool := byte_in 128 191 c.

Fixpoint utf8_ok (l : list ascii) : bool :=
  match l with
  | [] => true
  | b :: r =>
      if byte_in 0 127 b then utf8_ok r
      else if byte_in 194 223 b then
        match r with
        | c1 :: r1 => cont_byte c1 && utf8_ok r1
        | [] => false
        end
      else if byte_in 224 239 b then
        match r with
        | c1 :: c2 :: r2 =>
            (if Nat.eqb (nat_of_ascii b) 224 then byte_in 160 191 c1
             else if Nat.eqb (nat_of_ascii b) 237 then byte_in 128 159 c1
             else cont_byte c1)
            && cont_byte c2 && utf8_ok r2
        | _ => false
        end
      else if byte_in 240 244 b then
        match r with
        | c1 :: c2 :: c3 :: r3 =>
            (if Nat.eqb (nat_of_ascii b) 240 then byte_in 144 191 c1
             else if Nat.eqb (nat_of_ascii b) 244 then byte_in 128 143 c1
             else cont_byte c1)
            && cont_byte c2 && cont_byte c3 && utf8_ok r3
        | _ => false
        end
      else false
  end%bool.

End TextIO.

(* ------------------------------------------------------------------ *)
(** ** [csv.reader], default ("excel") dialect                          *)
(* ------------------------------------------------------------------ *)

(** Translated from CPython's [Modules/_csv.c] ([parse_process_char],
    [Reader_iternext]) for delimiter [','], quotechar [DQUOTE],
    [doublequote=True], no escapechar, [skipinitialspace=False],
    [strict=False], [quoting=QUOTE_MINIMAL], [parse_add_char]) and the
    default field size limit. The decoded text is given by its UTF-8
    bytes; line breaks, commas and quotes are single bytes that never occur
    inside a multi-byte character. *)
Module Csv.
Import Py.

Inductive pstate :=
| START_RECORD | START_FIELD | IN_FIELD | IN_QUOTED_FIELD
| QUOTE_IN_QUOTED_FIELD | EAT_CRNL.

Definition pstate_eqb (a b : pstate) : bool :=
  match a, b with
  | START_RECORD, START_RECORD | START_FIELD, START_FIELD
  | IN_FIELD, IN_FIELD | IN_QUOTED_FIELD, IN_QUOTED_FIELD
  | QUOTE_IN_QUOTED_FIELD, QUOTE_IN_QUOTED_FIELD | EAT_CRNL, EAT_CRNL => true
  | _, _ => false
  end.

(** The reader object: its state, the fields saved so far and the field
    being read (characters in reverse order). *)
Record reader := mkReader {
  rstate : pstate;
  rfields : list string;
  rfield : list ascii
}.

Inductive input := Ch (c : ascii) | EOL.

Definition is_eol (c : input) : bool := match c with EOL => true | _ => false end.

Definition is_nl (c : input) : bool :=
  match c with Ch c => Ascii.eqb c LF || Ascii.eqb c CR | EOL => false end.

Definition is_char (x : ascii) (c : input) : bool :=
  match c with Ch c => Ascii.eqb c x | EOL => false end.

Definition parse_save_field (r : reader) (st : pstate) : reader :=
  mkReader st (rfields r ++ [string_of_list_ascii (rev (rfield r))]) [].

(** [csv.field_size_limit()], left at its default [128 * 1024]. *)
Definition field_limit : Z := 131072.

(** The text is held as its UTF-8 bytes: a continuation byte
    ([0x80]..[0xBF]) belongs to the character its leading byte starts. *)
Definition is_cont (c : ascii) : bool :=
  (Nat.leb 128 (nat_of_ascii c) && Nat.ltb (nat_of_ascii c) 192)%bool.

(** [self->field_len]: the characters of the field read so far. *)
Definition field_len (f : list ascii) : nat :=
  List.length (List.filter (fun c => negb (is_cont c)) f).

(** [parse_add_char]: [None] is the [csv.Error] "field larger than field
    limit", raised when a character is added to a field that already has
    [field_limit] characters. *)
Definition parse_add_char (r : reader) (c : input) (st : pstate) : option reader :=
  match c with
  | Ch c =>
      if (negb (is_cont c) && (field_limit <=? Z.of_nat (field_len (rfield r)))%Z)%bool
      then None
      else Some (mkReader st (rfields r) (c :: rfield r))
  | EOL => Some (mkReader st (rfields r) (rfield r))
  end.

Definition after_line_end (c : input) : pstate :=
  if is_eol c then START_RECORD else EAT_CRNL.

(** [START_FIELD], shared with the fall-through from [START_RECORD]. *)
Definition start_field (r : reader) (c : input) : option reader :=
  if is_nl c || is_eol c then Some (parse_save_field r (after_line_end c))
  else if is_char DQUOTE c then Some (mkReader IN_QUOTED_FIELD (rfields r) (rfield r))
  else if is_char COMMA c then Some (parse_save_field r START_FIELD)
  else parse_add_char r c IN_FIELD.

(** One step; [None] is a raised [csv.Error]. *)
Definition parse_process_char (r : reader) (c : input) : option reader :=
  match rstate r with
  | START_RECORD =>
      if is_eol c then Some r
      else if is_nl c then Some (mkReader EAT_CRNL (rfields r) (rfield r))
      else start_field r c
  | START_FIELD => start_field r c
  | IN_FIELD =>
      if is_nl c || is_eol c then Some (parse_save_field r (after_line_end c))
      else if is_char COMMA c then Some (parse_save_field r START_FIELD)
      else parse_add_char r c IN_FIELD
  | IN_QUOTED_FIELD =>
      if is_eol c then Some r
      else if is_char DQUOTE c then Some (mkReader QUOTE_IN_QUOTED_FIELD (rfields r) (rfield r))
      else parse_add_char r c IN_QUOTED_FIELD
  | QUOTE_IN_QUOTED_FIELD =>
      if is_char DQUOTE c then parse_add_char r c IN_QUOTED_FIELD
      else if is_char COMMA c then Some (parse_save_field r START_FIELD)
      else if is_nl c || is_eol c then Some (parse_save_field r (after_line_end c))
      else parse_add_char r c IN_FIELD
  | EAT_CRNL =>
      if is_nl c then Some r
      else if is_eol c then Some (mkReader START_RECORD (rfields r) (rfield r))
      else None
  end.

(** Feed one line, character by character, then the end-of-line mark. *)
Fixpoint feed (r : reader) (cs : list ascii) : option reader :=
  match cs with
  | [] => parse_process_char r EOL
  | c :: cs' =>
      match parse_process_char r (Ch c) with
      | Some r' => feed r' cs'
      | None => None
      end
  end.

Inductive next_result :=
| RErr
| RStop
| RRow (row : list string) (rest : list (list ascii)).

(** [Reader_iternext]: read lines until the record is complete. *)
Fixpoint iter_lines (r : reader) (lines : list (list ascii)) : next_result :=
  match lines with
  | [] =>
      if negb (Nat.eqb (List.length (rfield r)) 0)
         || pstate_eqb (rstate r) IN_QUOTED_FIELD
      then RRow (rfields (parse_save_field r (rstate r))) []
      else RStop
  | l :: rest =>
      match feed r l with
      | None => RErr
      | Some r' =>
          if pstate_eqb (rstate r') START_RECORD then RRow (rfields r') rest
          else iter_lines r' rest
      end
  end.

Definition parse_reset : reader := mkReader START_RECORD [] [].

Definition reader_next (lines : list (list ascii)) : next_result :=
  iter_lines parse_reset lines.

(** All rows of the file; [None] when the iteration raises. Each row
    consumes at least one line, so [length lines] steps suffice. *)
Fixpoint rows_fuel (fuel : nat) (lines : list (list ascii)) : option (list (list string)) :=
  match fuel with
  | O => Some []
  | S fuel' =>
      match reader_next lines with
      | RErr => None
      | RStop => Some []
      | RRow row rest =>
          match rows_fuel fuel' rest with
          | Some rows => Some (row :: rows)
          | None => None
          end
      end
  end.

Definition csv_reader (content : string) : option (list (list string)) :=
  let lines := TextIO.file_lines content in
  rows_fuel (S (List.length lines)) lines.

End Csv.

(* ------------------------------------------------------------------ *)
(** ** [create_backup_manifest.count_csv_rows]                          *)
(* ------------------------------------------------------------------ *)

(** [if row and not row[0].startswith('#') and row[0] != 'email']. *)
Definition csv_row_counted (row : list string) : bool :=
  match row with
  | [] => false
  | f :: _ => negb (Py.startswith f "#") && negb (String.eqb f "email")
  end.

(** [None]: the file is not UTF-8 or the reader raised, and so does
    [count_csv_rows]. The reader reads the whole file, so every byte of it
    is decoded. *)
Definition count_csv_rows (content : string) : option nat :=
  if negb (TextIO.utf8_ok (list_ascii_of_string content)) then None
  else
    match Csv.csv_reader content with
    | Some rows => Some (List.length (List.filter csv_row_counted rows))
    | None => None
    end.


(** The line-level reading of the CSV counting rule, for files without a
    quote character: the part of a line before its newline, and the text
    before its first comma. *)
Definition line_body (l : list ascii) : list ascii :=
  match l with
  | [] => []
  | _ => if Ascii.eqb (List.last l "x"%char) Py.LF then removelast l else l
  end.

Fixpoint first_field (cs : list ascii) : list ascii :=
  match cs with
  | [] => []
  | c :: r => if Ascii.eqb c Py.COMMA then [] else c :: first_field r
  end.

Definition line_counted (l : list ascii) : bool :=
  match line_body l with
  | [] => false
  | b =>
      let f := string_of_list_ascii (first_field b) in
      negb (Py.startswith f "#") && negb (String.eqb f "email")
  end.

Definition nl : string := String Py.LF EmptyString.

(* ------------------------------------------------------------------ *)
(** ** [restore_state.py]: the versioned S3 object                      *)
(* ------------------------------------------------------------------ *)

(** The state object of one bucket/key in a versioned S3 bucket: its
    version history, newest first, and the log of the S3 calls the script
    issues. Version identifiers are opaque tokens; S3 issues a fresh one on
    every write. *)
Module S3.

Definition version_id := nat.

Inductive s3_call :=
| HeadObject
| GetObjectVersion (v : version_id)
| PutObject (body : string).

Record s3_object := mkS3 {
  history : list (version_id * string);
  calls : list s3_call
}.

Inductive s3_error := NoSuchKey | NoSuchVersion.

(** State passing with exceptions: a raised [ClientError] keeps the calls
    already made. *)
Definition M (A : Type) := s3_object -> s3_object * (s3_error + A).

Definition ret {A} (a : A) : M A := fun o => (o, inr a).
Definition raise {A} (e : s3_error) : M A := fun o => (o, inl e).
Definition bind {A B} (m : M A) (f : A -> M B) : M B :=
  fun o => match m o with
           | (o', inl e) => (o', inl e)
           | (o', inr a) => f a o'
           end.

Notation "'let!' x := m 'in' k" := (bind m (fun x => k))
  (at level 200, x name, m at level 100, k at level 200).

Definition log (c : s3_call) : M unit :=
  fun o => (mkS3 (history o) (calls o ++ [c]), inr tt).

Definition fresh_version (h : list (version_id * string)) : version_id :=
  S (list_max (List.map fst h)).

Fixpoint find_version (v : version_id) (h : list (version_id * string)) : option string :=
  match h with
  | [] => None
  | (v', body) :: h' => if Nat.eqb v v' then Some body else find_version v h'
  end.

(** [s3.head_object]: the metadata of the current version. *)
Definition head_object : M version_id :=
  let! _ := log HeadObject in
  fun o => match history o with
           | [] => (o, inl NoSuchKey)
           | (v, _) :: _ => (o, inr v)
           end.

(** [s3.download_file(..., ExtraArgs={"VersionId": v})]. *)
Definition download_version (v : version_id) : M string :=
  let! _ := log (GetObjectVersion v) in
  fun o => match find_version v (history o) with
           | Some body => (o, inr body)
           | None => (o, inl NoSuchVersion)
           end.

(** [s3.upload_file]: a new version becomes current. *)
Definition upload (body : string) : M unit :=
  let! _ := log (PutObject body) in
  fun o => (mkS3 ((fresh_version (history o), body) :: history o) (calls o), inr tt).

(** Content of the current version. *)
Definition current_content (o : s3_object) : option string :=
  match history o with [] => None | (_, body) :: _ => Some body end.

Definition current_version (o : s3_object) : option version_id :=
  match history o with [] => None | (v, _) :: _ => Some v end.

Definition is_put (c : s3_call) : bool :=
  match c with PutObject _ => true | _ => false end.

End S3.

Module Restore.
Import S3.

Inductive restore_result :=
| AlreadyCurrent (version_id : S3.version_id)
| DryRun (would_restore : S3.version_id)
| Restored (previous_version restored_from new_version : S3.version_id).

(** [get_s3_state_version]: only the version id of its result is used. *)
Definition get_s3_state_version : M version_id := head_object.

(** [restore_s3_state_version(bucket, key, target_version_id, dry_run)].
    The target version is downloaded to a temporary file and that file is
    uploaded unchanged, so the uploaded body is the downloaded body. *)
Definition restore_s3_state_version (target_version_id : version_id) (dry_run : bool)
  : M restore_result :=
  let! current := get_s3_state_version in
  if Nat.eqb current target_version_id then ret (AlreadyCurrent target_version_id)
  else if dry_run then ret (DryRun target_version_id)
  else
    let! tmp := download_version target_version_id in
    let! _ := upload tmp in
    let! new_version := get_s3_state_version in
    ret (Restored current target_version_id new_version).

End Restore.

(* ------------------------------------------------------------------ *)
(** ** [restore_state.run_terraform_apply]                              *)
(* ------------------------------------------------------------------ *)

Module Terraform.

Inductive tf_command :=
| TfInit                          (* terraform init -input=false *)
| TfPlan                          (* terraform plan -input=false -out=restore.tfplan *)
| TfApply (auto_approve : bool).  (* terraform apply -input=false [-auto-approve] restore.tfplan *)

Definition is_apply (c : tf_command) : bool :=
  match c with TfApply _ => true | _ => false end.

(** The local file system as far as the function sees it. *)
Record tf_env := mkTfEnv {
  dir_exists : bool;           (* os.path.isdir(terraform_dir) *)
  plan_file_exists : bool      (* terraform_dir/restore.tfplan *)
}.

Inductive tf_status := InitFailed | PlanFailed | TfDryRun | ApplyFailed | Applied.

Inductive tf_error := FileNotFound.

Section RunTerraform.

(** The terraform binary is an oracle: the exit code of each command, and
    whether [terraform plan] leaves the plan file behind. *)
Variable returncode : tf_command -> Z.
Variable plan_writes_file : bool.

(** Runs the command; returns the new environment and the exit code. *)
Definition run (c : tf_command) (env : tf_env) : tf_env * Z :=
  match c with
  | TfPlan => (mkTfEnv (dir_exists env) (plan_file_exists env || plan_writes_file),
               returncode c)
  | _ => (env, returncode c)
  end.

(** [if os.path.exists(plan_file): os.unlink(plan_file)] *)
Definition cleanup_plan (env : tf_env) : tf_env := mkTfEnv (dir_exists env) false.

(** The result: final environment, the commands run in this invocation (in
    order), and the returned status or the raised exception. *)
Definition run_terraform_apply (dry_run auto_approve : bool) (env : tf_env)
  : tf_env * list tf_command * (tf_error + tf_status) :=
  if negb (dir_exists env) then (env, [], inl FileNotFound)
  else
    let '(env1, init_rc) := run TfInit env in
    if negb (Z.eqb init_rc 0) then (env1, [TfInit], inr InitFailed)
    else
      let '(env2, plan_rc) := run TfPlan env1 in
      if negb (Z.eqb plan_rc 0) then (env2, [TfInit; TfPlan], inr PlanFailed)
      else if dry_run then (cleanup_plan env2, [TfInit; TfPlan], inr TfDryRun)
      else
        let '(env3, apply_rc) := run (TfApply auto_approve) env2 in
        let env4 := cleanup_plan env3 in
        if negb (Z.eqb apply_rc 0)
        then (env4, [TfInit; TfPlan; TfApply auto_approve], inr ApplyFailed)
        else (env4, [TfInit; TfPlan; TfApply auto_approve], inr Applied).

End RunTerraform.

End Terraform.

(* ------------------------------------------------------------------ *)
(** ** JSON values                                                      *)
(* ------------------------------------------------------------------ *)

Module Json.

(** A parsed JSON document ([json.load]); an object keeps its keys in
    order, without duplicates. *)
#[warnings="-register-all"]
Inductive json :=
| JNull
| JBool (b : bool)
| JNum (z : Z)
| JStr (s : string)
| JArr (l : list json)
| JObj (kvs : list (string * json)).

Fixpoint lookup_key (k : string) (kvs : list (string * json)) : option json :=
  match kvs with
  | [] => None
  | (k', v) :: r => if String.eqb k k' then Some v else lookup_key k r
  end.

End Json.

(* ------------------------------------------------------------------ *)
(** ** HTTP: the [requests] session as seen by the scripts               *)
(* ------------------------------------------------------------------ *)

Module Http.
Import Json.

Inductive http_method := GET | POST | PUT.

Definition is_mutating (m : http_method) : bool :=
  match m with GET => false | _ => true end.

Record request := mkReq {
  method : http_method;
  url : string;
  payload : option json
}.

(** A response: status code, the parsed rate-limit headers and the body. *)
Record response := mkResp {
  status_code : Z;
  x_rate_limit_reset : option Z;       (* X-Rate-Limit-Reset, epoch seconds *)
  x_rate_limit_remaining : option Z;   (* X-Rate-Limit-Remaining *)
  body : json
}.

(** [response.ok] *)
Definition ok (r : response) : bool := status_code r <? 400.

Inductive event :=
| Sent (rq : request)
| Slept (ms : Z).

(** The network and the clock, in milliseconds ([time.time()]). Sending a
    request takes no time; [time.sleep] advances the clock. *)
Record net := mkNet {
  clock_ms : Z;
  events : list event
}.

Definition sent_mutating (evs : list event) : nat :=
  List.length (List.filter (fun e => match e with
                                     | Sent rq => is_mutating (method rq)
                                     | Slept _ => false
                                     end) evs).

Section Transport.

(** The remote API: its answer may depend on everything sent before. *)
Variable server : list event -> request -> response.

Definition send (rq : request) (nt : net) : net * response :=
  (mkNet (clock_ms nt) (events nt ++ [Sent rq]), server (events nt) rq).

End Transport.

Definition sleep (ms : Z) (nt : net) : net :=
  mkNet (clock_ms nt + ms) (events nt ++ [Slept ms]).

(** A mock transport that answers the [n]-th request with [rs n]. *)
Definition count_sent (evs : list event) : nat :=
  List.length (List.filter (fun e => match e with Sent _ => true | Slept _ => false end) evs).

Definition scripted (rs : nat -> response) : list event -> request -> response :=
  fun evs _ => rs (count_sent evs).

End Http.

(* ------------------------------------------------------------------ *)
(** ** [copy_grants_between_orgs.OktaGovernanceClient]                  *)
(* ------------------------------------------------------------------ *)

Module GovernanceClient.
Import Json Http.

Section Client.
Variable server : list event -> request -> response.

(** [reset_time = int(response.headers.get('X-Rate-Limit-Reset', time.time() + 60))] *)
Definition reset_time (resp : response) (now_ms : Z) : Z :=
  match x_rate_limit_reset resp with
  | Some r => r
  | None => (now_ms + 60000) / 1000
  end.

(** [wait_time = max(reset_time - time.time() + 1, 1)], in milliseconds. *)
Definition wait_time_ms (resp : response) (now_ms : Z) : Z :=
  Z.max (reset_time resp now_ms * 1000 - now_ms + 1000) 1000.

(** [_handle_rate_limit] *)
Definition handle_rate_limit (resp : response) (nt : net) : net :=
  if status_code resp =? 429 then sleep (wait_time_ms resp (clock_ms nt)) nt else nt.

(** The body of [for attempt in range(max_retries)] with [remaining]
    attempts left after this one; after the last attempt the response
    is returned as it is. *)
Fixpoint attempt (remaining : nat) (rq : request) (nt : net) : net * response :=
  let '(nt1, resp) := send server rq nt in
  if status_code resp =? 429 then
    let nt2 := handle_rate_limit resp nt1 in
    match remaining with
    | O => (nt2, resp)
    | S r => attempt r rq nt2
    end
  else (nt1, resp).

(** [_make_request], [max_retries = 3]. *)
Definition make_request (rq : request) (nt : net) : net * response :=
  attempt 2 rq nt.

Inductive grant_result :=
| GrantDryRun (payload : json)
| GrantCreated (data : json)
| GrantExists
| GrantError (code : Z).

Definition grants_url : string := "/governance/api/v1/grants".

(** [create_grant] *)
Definition create_grant (bundle_id principal_id principal_type : string) (dry_run : bool)
  (nt : net) : net * grant_result :=
  let payload :=
    JObj [("principal", JObj [("id", JStr principal_id); ("type", JStr principal_type)]);
          ("bundle", JObj [("id", JStr bundle_id)]);
          ("grantType", JStr "ENTITLEMENT-BUNDLE")] in
  if dry_run then (nt, GrantDryRun payload)
  else
    let '(nt', resp) := make_request (mkReq POST grants_url (Some payload)) nt in
    if ok resp then (nt', GrantCreated (body resp))
    else if status_code resp =? 409 then (nt', GrantExists)
    else (nt', GrantError (status_code resp)).

End Client.
End GovernanceClient.

(* ------------------------------------------------------------------ *)
(** ** [export_users_to_csv.OktaClient]                                 *)
(* ------------------------------------------------------------------ *)

Module UsersClient.
Import Http.

Section Client.
Variable server : list event -> request -> response.

(** The client object's field [self.rate_limit_remaining] is threaded. *)
Definition update_remaining (rate_limit_remaining : Z) (resp : response) : Z :=
  match x_rate_limit_remaining resp with
  | Some r => r
  | None => rate_limit_remaining
  end.

(** [_handle_rate_limit]: same backoff as the governance client, and a
    0.5 s pause when the remaining quota is below 10. *)
Definition handle_rate_limit (rate_limit_remaining : Z) (resp : response) (nt : net)
  : Z * net :=
  let rem := update_remaining rate_limit_remaining resp in
  if status_code resp =? 429 then
    (rem, sleep (GovernanceClient.wait_time_ms resp (clock_ms nt)) nt)
  else if rem <? 10 then (rem, sleep 500 nt)
  else (rem, nt).

Fixpoint attempt (remaining : nat) (rate_limit_remaining : Z) (rq : request) (nt : net)
  : Z * net * response :=
  let '(nt1, resp) := send server rq nt in
  let '(rem, nt2) := handle_rate_limit rate_limit_remaining resp nt1 in
  if status_code resp =? 429 then
    match remaining with
    | O => (rem, nt2, resp)
    | S r => attempt r rem rq nt2
    end
  else (rem, nt2, resp).

(** [_make_request], [max_retries = 3]. *)
Definition make_request (rate_limit_remaining : Z) (rq : request) (nt : net)
  : Z * net * response :=
  attempt 2 rate_limit_remaining rq nt.

End Client.
End UsersClient.

(* ------------------------------------------------------------------ *)
(** ** [copy_grants_between_orgs.import_grants]                         *)
(* ------------------------------------------------------------------ *)

Module GrantsImport.
Import Http GovernanceClient.

(** One entry of [export_data["grants"]]; a JSON null
    [target_app_name] is [None]. *)
Record exported_grant := mkGrant {
  bundle_name : string;
  target_app_name : option string;
  principal_name : string;
  principal_type : string
}.

(** The name-to-id dictionaries built from the target org's bundles,
    groups and users (GET requests only) before the import loop. *)
Record target_index := mkIndex {
  bundle_name_to_id : gmap string string;
  group_name_to_id : gmap string string;
  user_login_to_id : gmap string string;
  user_name_to_id : gmap string string
}.

Record results := mkResults {
  created : nat;
  exists_ : nat;
  skipped : nat;
  errors : nat;
  excluded : nat
}.

Definition results0 : results := mkResults 0 0 0 0 0.

Definition add_created r := mkResults (S (created r)) (exists_ r) (skipped r) (errors r) (excluded r).
Definition add_exists r := mkResults (created r) (S (exists_ r)) (skipped r) (errors r) (excluded r).
Definition add_skipped r := mkResults (created r) (exists_ r) (S (skipped r)) (errors r) (excluded r).
Definition add_error r := mkResults (created r) (exists_ r) (skipped r) (S (errors r)) (excluded r).
Definition add_excluded r := mkResults (created r) (exists_ r) (skipped r) (errors r) (S (excluded r)).

(** [d.get(k)] followed by a truthiness test: a missing key and an empty
    id are both falsy. *)
Definition get_truthy (m : gmap string string) (k : string) : option string :=
  match m !! k with
  | Some v => if String.eqb v "" then None else Some v
  | None => None
  end.

Definition resolve_principal (idx : target_index) (ptype pname : string) : option string :=
  if String.eqb ptype "GROUP" then get_truthy (group_name_to_id idx) pname
  else if String.eqb ptype "USER" then
    match get_truthy (user_name_to_id idx) (Py.lower pname) with
    | Some id => Some id
    | None => get_truthy (user_login_to_id idx) (Py.lower pname)
    end
  else None.

Section ImportRun.
Variable server : list event -> request -> response.
Variable idx : target_index.
Variable excluded_apps : list string.
Variable dry_run : bool.

(** One iteration of [for grant in export_data["grants"]]. *)
Definition import_one (st : results * net) (g : exported_grant) : results * net :=
  let '(res, nt) := st in
  let is_excluded :=
    match target_app_name g with
    | Some a => existsb (String.eqb a) excluded_apps
    | None => false
    end in
  if is_excluded then (add_excluded res, nt)
  else
    match get_truthy (bundle_name_to_id idx) (bundle_name g) with
    | None => (add_skipped res, nt)
    | Some target_bundle_id =>
        match resolve_principal idx (principal_type g) (principal_name g) with
        | None => (add_skipped res, nt)
        | Some target_principal_id =>
            let '(nt', result) :=
              create_grant server target_bundle_id target_principal_id
                (principal_type g) dry_run nt in
            match result with
            | GrantCreated _ => (add_created res, nt')
            | GrantExists => (add_exists res, nt')
            | GrantDryRun _ => (add_created res, nt')
            | GrantError _ => (add_error res, nt')
            end
        end
    end.

Definition import_loop (grants : list exported_grant) (nt : net) : results * net :=
  fold_left import_one grants (results0, nt).

End ImportRun.

(** [return 0 if results["errors"] == 0 else 1] *)
Definition exit_code (res : results) : Z := if Nat.eqb (errors res) 0 then 0 else 1.

End GrantsImport.

(* ------------------------------------------------------------------ *)
(** ** [copy_group_memberships.OktaClient] and [import_memberships]     *)
(* ------------------------------------------------------------------ *)

Module MembershipsClient.
Import Http.

(** The client fields [rate_limit_remaining] and [rate_limit_reset]. *)
Record client := mkClient {
  rate_limit_remaining : Z;
  rate_limit_reset : Z
}.

Definition client0 : client := mkClient 1000 0.

Section Client.
Variable server : list event -> request -> response.

Definition handle_rate_limit (c : client) (resp : response) (nt : net) : client * net :=
  let rem := match x_rate_limit_remaining resp with Some r => r | None => rate_limit_remaining c end in
  let reset := match x_rate_limit_reset resp with Some r => r | None => rate_limit_reset c end in
  let c' := mkClient rem reset in
  if status_code resp =? 429 then
    (c', sleep (Z.max (reset * 1000 - clock_ms nt + 1000) 1000) nt)
  else if rem <? 10 then (c', sleep 500 nt)
  else (c', nt).

Fixpoint attempt (remaining : nat) (c : client) (rq : request) (nt : net)
  : client * net * response :=
  let '(nt1, resp) := send server rq nt in
  let '(c', nt2) := handle_rate_limit c resp nt1 in
  if status_code resp =? 429 then
    match remaining with
    | O => (c', nt2, resp)
    | S r => attempt r c' rq nt2
    end
  else (c', nt2, resp).

Definition make_request (c : client) (rq : request) (nt : net) : client * net * response :=
  attempt 2 c rq nt.

(** [add_user_to_group]: [PUT /groups/{group_id}/users/{user_id}], success
    iff the status is 204. *)
Definition add_user_to_group (c : client) (group_id user_id : string) (nt : net)
  : client * net * bool :=
  let '(c', nt', resp) :=
    make_request c (mkReq PUT ("/api/v1/groups/" ++ group_id ++ "/users/" ++ user_id)%string None) nt in
  (c', nt', status_code resp =? 204).

End Client.
End MembershipsClient.

Module MembershipsImport.
Import Http MembershipsClient.

Record stats := mkStats {
  groups_found : nat;
  groups_missing : nat;
  users_matched : nat;
  users_missing : nat;
  assignments_made : nat;
  assignments_failed : nat
}.

Definition stats0 : stats := mkStats 0 0 0 0 0 0.

Definition add_group_found s := mkStats (S (groups_found s)) (groups_missing s) (users_matched s) (users_missing s) (assignments_made s) (assignments_failed s).
Definition add_group_missing s := mkStats (groups_found s) (S (groups_missing s)) (users_matched s) (users_missing s) (assignments_made s) (assignments_failed s).
Definition add_user_matched s := mkStats (groups_found s) (groups_missing s) (S (users_matched s)) (users_missing s) (assignments_made s) (assignments_failed s).
Definition add_user_missing s := mkStats (groups_found s) (groups_missing s) (users_matched s) (S (users_missing s)) (assignments_made s) (assignments_failed s).
Definition add_made s := mkStats (groups_found s) (groups_missing s) (users_matched s) (users_missing s) (S (assignments_made s)) (assignments_failed s).
Definition add_failed s := mkStats (groups_found s) (groups_missing s) (users_matched s) (users_missing s) (assignments_made s) (S (assignments_failed s)).

Section ImportRun.
Variable server : list event -> request -> response.
(** [target_users]: lower-cased email to user id ([get_all_users]);
    [target_groups]: group name to group id ([get_groups]). *)
Variable target_users : gmap string string.
Variable target_groups : gmap string string.
Variable dry_run : bool.

(** The inner loop [for email in member_emails]. *)
Definition import_member (group_id : string) (st : stats * client * net) (email : string)
  : stats * client * net :=
  let '(s, c, nt) := st in
  match target_users !! Py.lower email with
  | None => (add_user_missing s, c, nt)
  | Some user_id =>
      let s := add_user_matched s in
      if negb dry_run then
        let '(c', nt', success) := add_user_to_group server c group_id user_id nt in
        if success then (add_made s, c', nt') else (add_failed s, c', nt')
      else (s, c, nt)
  end.

(** The outer loop [for group_name, membership_data in memberships.items()]. *)
Definition import_group (st : stats * client * net) (gm : string * list string)
  : stats * client * net :=
  let '(s, c, nt) := st in
  let '(group_name, member_emails) := gm in
  match target_groups !! group_name with
  | None => (add_group_missing s, c, nt)
  | Some group_id => fold_left (import_member group_id) member_emails (add_group_found s, c, nt)
  end.

(** The loop of [import_memberships] over [memberships.items()], run once
    [target_users] and [target_groups] are known: the GET requests of
    [get_all_users] and [get_groups] that fetch them are sent before it
    and are not part of this model, which starts from the client and the
    network as they are after those calls. *)
Definition import_memberships (memberships : list (string * list string)) (c : client) (nt : net)
  : stats * client * net :=
  fold_left import_group memberships (stats0, c, nt).

(** [main] for the [import] command, from the loop above on: the
    statistics are discarded and [main] returns 0. *)
Definition main_import (memberships : list (string * list string)) (nt : net) : Z * stats * net :=
  let '(s, _, nt') := import_memberships memberships client0 nt in
  (0, s, nt').

End ImportRun.
End MembershipsImport.

(* ------------------------------------------------------------------ *)
(** ** [create_backup_manifest.py]                                      *)
(* ------------------------------------------------------------------ *)

Module Manifest.
Import Json.

(** [str.endswith] *)
Definition endswith (s suf : string) : bool :=
  (Nat.leb (String.length suf) (String.length s)
   && String.eqb (substring (String.length s - String.length suf) (String.length suf) s) suf)%bool.

(** [sub in s] for strings. *)
Fixpoint str_contains (sub s : string) : bool :=
  (String.prefix sub s ||
   match s with
   | EmptyString => false
   | String _ s' => str_contains sub s'
   end)%bool.

(** An entry of the backup directory: a regular file (its bytes and its
    modification time) or a directory. The directory is keyed by the path
    relative to [backup_dir], the second argument of [os.path.join]. *)
Inductive fs_entry :=
| Regular (content : string) (mtime : Z)
| Directory.

Definition dir := gmap string fs_entry.

(** A [hashlib.sha256()] object: [update] appends to the data hashed so
    far, [hexdigest] is the digest of all of it. *)
Record sha256_obj := mkSha { hashed_data : list ascii }.

Definition sha_update (h : sha256_obj) (b : list ascii) : sha256_obj :=
  mkSha (hashed_data h ++ b).

(** [iter(lambda: f.read(4096), b"")]: the blocks of a file. *)
Fixpoint read_blocks (fuel : nat) (bs : list ascii) : list (list ascii) :=
  match fuel with
  | O => []
  | S fuel' =>
      match bs with
      | [] => []
      | _ => firstn 4096 bs :: read_blocks fuel' (skipn 4096 bs)
      end
  end.

Record file_info := mkInfo {
  file : string;
  size_bytes : nat;
  modified : string;
  sha256 : string;
  count : option nat   (** absent for a file that is neither .csv nor .json *)
}.

Record resource := mkResource {
  rcount : nat;
  rfile : string;
  rsource : string
}.

Record terraform_state := mkTfState {
  s3_bucket : string;
  s3_key : string;
  version_id : option string
}.

(** The manifest; [version], [snapshot_id], [org_name], [created_at],
    [created_by], [schedule] and [backup_dir] are copied from the clock,
    the environment and the arguments and are left out. *)
Record manifest := mkManifest {
  resources : gmap string resource;
  files : list file_info;
  tf_state : option terraform_state;
  total_files : nat;
  total_resources : nat
}.

(** [info.get('count', 0)] *)
Definition count_or0 (fi : file_info) : nat :=
  match count fi with Some n => n | None => 0%nat end.

Definition backup_files : list (string * option string) :=
  [("users.csv", None); ("groups.json", Some "groups");
   ("memberships.json", Some "memberships"); ("app_assignments.json", Some "applications");
   ("owner_mappings.json", None); ("label_mappings.json", Some "labels");
   ("risk_rules.json", Some "rules")].

Definition oig_files : list (string * option string) :=
  [("oig/entitlements.json", Some "entitlements"); ("oig/reviews.json", Some "reviews");
   ("oig/request_sequences.json", Some "sequences");
   ("oig/catalog_entries.json", Some "entries")].

Definition common_keys : list string :=
  ["users"; "groups"; "memberships"; "applications"; "rules"; "labels"; "owners"].

(** [len(v) if isinstance(v, list) else 1] *)
Definition len_or_1 (v : json) : nat :=
  match v with JArr l => List.length l | _ => 1%nat end.

(** Python truthiness of an optional string argument. *)
Definition truthy (o : option string) : bool :=
  match o with Some s => negb (String.eqb s "") | None => false end.

Definition rename_backup (filename : string) : string :=
  Py.replace (Py.replace filename ".csv" "") ".json" "".

Definition rename_oig (filename : string) : string :=
  Py.replace (Py.replace filename "oig/" "") ".json" "".

Record acc := mkAcc {
  afiles : list file_info;
  aresources : gmap string resource;
  atotal_files : nat;
  atotal_resources : nat
}.

Definition acc0 : acc := mkAcc [] ∅ 0 0.

Section Builder.
(** [hashlib.sha256] on a byte string, as a hex digest. *)
Variable sha256_hex : list ascii -> string.
(** [json.load]; [None] when the text is not JSON. *)
Variable json_load : string -> option json.
(** [time.strftime('%Y-%m-%dT%H:%M:%SZ', time.gmtime(t))] *)
Variable strftime_utc : Z -> string.

Definition calculate_file_hash (content : string) : string :=
  let bs := list_ascii_of_string content in
  sha256_hex (hashed_data
    (fold_left sha_update (read_blocks (List.length bs) bs) (mkSha []))).

(** [count_json_items]; [None] when it raises (invalid JSON, or a
    [TypeError] from [key in data] or [data[key]] on a non-dict). *)
Definition count_json_items (content : string) (key : option string) : option nat :=
  match json_load content with
  | None => None
  | Some data =>
      match key with
      | Some k =>
          if String.eqb k "" then
            (* [if key:] is false for the empty string *)
            match data with
            | JArr l => Some (List.length l)
            | JObj kvs =>
                match find (fun c => match lookup_key c kvs with Some _ => true | None => false end)
                        common_keys with
                | Some c => option_map len_or_1 (lookup_key c kvs)
                | None => Some (List.length kvs)
                end
            | _ => Some 1%nat
            end
          else
            match data with
            | JObj kvs =>
                match lookup_key k kvs with
                | Some v => Some (len_or_1 v)
                | None => Some 0%nat
                end
            | JArr l =>
                if existsb (fun v => match v with JStr s => String.eqb s k | _ => false end) l
                then None else Some 0%nat
            | JStr s => if str_contains k s then None else Some 0%nat
            | _ => None
            end
      | None =>
          match data with
          | JArr l => Some (List.length l)
          | JObj kvs =>
              match find (fun c => match lookup_key c kvs with Some _ => true | None => false end)
                      common_keys with
              | Some c => option_map len_or_1 (lookup_key c kvs)
              | None => Some (List.length kvs)
              end
          | _ => Some 1%nat
          end
      end
  end.

(** [os.path.exists(filepath)] *)
Definition path_exists (d : dir) (filename : string) : bool :=
  match d !! filename with Some _ => true | None => false end.

(** [get_file_info]: [Some None] when the path does not exist ([return
    None]), [None] when it raises. *)
Definition get_file_info (d : dir) (filename : string) (count_key : option string)
  : option (option file_info) :=
  match d !! filename with
  | None => Some None
  | Some Directory => None   (* [open] raises [IsADirectoryError] *)
  | Some (Regular content mtime) =>
      let digest := calculate_file_hash content in
      let counted :=
        if endswith filename ".csv" then option_map Some (count_csv_rows content)
        else if endswith filename ".json" then option_map Some (count_json_items content count_key)
        else Some None in
      match counted with
      | None => None
      | Some c =>
          Some (Some (mkInfo filename (String.length content) (strftime_utc mtime) digest c))
      end
  end.

(** One iteration of either loop of [create_manifest]. *)
Definition process_file (d : dir) (source : string) (rename : string -> string)
  (a : acc) (fk : string * option string) : option acc :=
  let '(filename, count_key) := fk in
  match get_file_info d filename count_key with
  | None => None
  | Some None => Some a
  | Some (Some info) =>
      let resource_name := rename filename in
      Some (mkAcc (afiles a ++ [info])
              (<[resource_name := mkResource (count_or0 info) filename source]> (aresources a))
              (S (atotal_files a)) (atotal_resources a + count_or0 info))
  end.

Fixpoint process_files (d : dir) (source : string) (rename : string -> string)
  (entries : list (string * option string)) (a : acc) : option acc :=
  match entries with
  | [] => Some a
  | fk :: rest =>
      match process_file d source rename a fk with
      | None => None
      | Some a' => process_files d source rename rest a'
      end
  end.

Definition create_manifest (d : dir) (state_bucket state_key state_version : option string)
  : option manifest :=
  match process_files d "export" rename_backup backup_files acc0 with
  | None => None
  | Some a1 =>
      match process_files d "terraform" rename_oig oig_files a1 with
      | None => None
      | Some a2 =>
          let tf :=
            match state_bucket, state_key with
            | Some b, Some k =>
                if (truthy state_bucket && truthy state_key)%bool
                then Some (mkTfState b k (if truthy state_version then state_version else None))
                else None
            | _, _ => None
            end in
          Some (mkManifest (aresources a2) (afiles a2) tf (atotal_files a2) (atotal_resources a2))
      end
  end.

End Builder.

Definition expected_files : list string := List.map fst backup_files ++ List.map fst oig_files.

End Manifest.

(* ------------------------------------------------------------------ *)
(** ** [export_users_to_csv.py]: writing the CSV                        *)
(* ------------------------------------------------------------------ *)

(** [csv.writer] with the default dialect: delimiter [','], quotechar
    [DQUOTE], doublequote, [QUOTE_MINIMAL], lineterminator ["\r\n"]
    (translated from [join_append_data] and [writerow] in [_csv.c]). *)
Module CsvWriter.
Import Py.

Definition needs_quote_char (c : ascii) : bool :=
  (Ascii.eqb c COMMA || Ascii.eqb c DQUOTE || Ascii.eqb c CR || Ascii.eqb c LF)%bool.

Definition needs_quote (s : string) : bool :=
  existsb needs_quote_char (list_ascii_of_string s).

Fixpoint double_quotes (l : list ascii) : list ascii :=
  match l with
  | [] => []
  | c :: r => if Ascii.eqb c DQUOTE then c :: c :: double_quotes r else c :: double_quotes r
  end.

Definition quote_field (s : string) : string :=
  if needs_quote s
  then string_of_list_ascii (DQUOTE :: double_quotes (list_ascii_of_string s) ++ [DQUOTE])
  else s.

Definition CRLF : string := String CR (String LF EmptyString).

(** [writer.writerow(fields)]; a row made of one empty field is written
    as two quote characters. *)
Definition format_row (fields : list string) : string :=
  match fields with
  | [f] => if String.eqb f "" then (String DQUOTE (String DQUOTE EmptyString) ++ CRLF)%string
           else (quote_field f ++ CRLF)%string
  | _ => (String.concat "," (List.map quote_field fields) ++ CRLF)%string
  end.

End CsvWriter.

Module ExportUsers.
Import Py CsvWriter.

(** [str(n)] for a natural number. *)
Fixpoint str_nat_aux (fuel n : nat) (acc : string) : string :=
  match fuel with
  | O => acc
  | S fuel' =>
      let acc' := String (ascii_of_nat (48 + n mod 10)) acc in
      if Nat.ltb n 10 then acc' else str_nat_aux fuel' (n / 10) acc'
  end.

Definition str_nat (n : nat) : string := str_nat_aux (S n) n EmptyString.

(** A row of [user_data]: every key of [fieldnames] set. *)
Record user_row := mkRow {
  email : string;
  first_name : string;
  last_name : string;
  login : string;
  status : string;
  department : string;
  title : string;
  manager_email : string;
  groups : string;
  custom_profile_attributes : string
}.

Definition fieldnames : list string :=
  ["email"; "first_name"; "last_name"; "login"; "status"; "department"; "title";
   "manager_email"; "groups"; "custom_profile_attributes"].

(** [DictWriter._dict_to_list]: the values in [fieldnames] order. *)
Definition dict_values (r : user_row) : list string :=
  [email r; first_name r; last_name r; login r; status r; department r; title r;
   manager_email r; groups r; custom_profile_attributes r].

(** The text [export_users_to_csv] writes to [output_file] (opened with
    [newline='']), given the org name, the formatted export date and
    [user_data]; [None] when there are no users and no file is written. *)
Definition export_csv_text (org_name export_date : string) (user_data : list user_row)
  : option string :=
  match user_data with
  | [] => None
  | _ =>
      Some (format_row fieldnames
            ++ "# Exported from Okta org: " ++ org_name ++ String LF EmptyString
            ++ "# Export date: " ++ export_date ++ String LF EmptyString
            ++ "# Total users: " ++ str_nat (List.length user_data) ++ String LF EmptyString
            ++ String.concat "" (List.map (fun r => format_row (dict_values r)) user_data))%string
  end.

End ExportUsers.

(* ------------------------------------------------------------------ *)
(** ** Python dictionary access on JSON values                          *)
(* ------------------------------------------------------------------ *)

Module PyJson.
Import Json.

(** [v.get(k, default)]; [None] when [v] is not a dict
    ([AttributeError]). *)
Definition dict_get (v : json) (k : string) (default : json) : option json :=
  match v with
  | JObj kvs => Some (match lookup_key k kvs with Some x => x | None => default end)
  | _ => None
  end.

(** [k in v] for a dict [v]. *)
Definition dict_has (v : json) (k : string) : bool :=
  match v with
  | JObj kvs => match lookup_key k kvs with Some _ => true | None => false end
  | _ => false
  end.

(** [v == s] for a string [s]. *)
Definition is_str (v : json) (s : string) : bool :=
  match v with JStr s' => String.eqb s' s | _ => false end.

End PyJson.

(* ------------------------------------------------------------------ *)
(** ** [backup_state.py]: the manifest of a state-based backup          *)
(* ------------------------------------------------------------------ *)

Module BackupState.
Import Json.

(** [state_info] of an S3 backup: the dict of [get_s3_state_version], then
    [state_info["source"] = "s3"], then, with [--download-state], the
    backup path and its SHA-256. *)
Definition s3_state_info (bucket key region : string)
    (version_id : json) (etag : string) (last_modified content_length : json)
    (download : option (string * string)) : json :=
  JObj ([("bucket", JStr bucket); ("key", JStr key); ("region", JStr region);
         ("version_id", version_id); ("etag", JStr etag);
         ("last_modified", last_modified); ("content_length", content_length);
         ("source", JStr "s3")]
        ++ match download with
           | Some (path, sha) => [("backup_path", JStr path); ("backup_sha256", JStr sha)]
           | None => []
           end).

(** [copy_local_state]: the [state_info] of a local backup. *)
Definition local_state_info (original_path backup_path sha256 : string)
    (size_bytes : Z) (modified : string) : json :=
  JObj [("source", JStr "local"); ("original_path", JStr original_path);
        ("backup_path", JStr backup_path); ("sha256", JStr sha256);
        ("size_bytes", JNum size_bytes); ("modified", JStr modified)].

(** [create_state_manifest]: the dict written to [MANIFEST.json]; the
    snapshot id, timestamps and environment defaults are its inputs. *)
Definition create_state_manifest (snapshot_id environment org_name created_at
    created_by schedule_type : string) (state_info : json)
    (resource_exports : list (string * json)) : json :=
  JObj [("version", JStr "2.0");
        ("backup_type", JStr "state-based");
        ("snapshot_id", JStr snapshot_id);
        ("environment", JStr environment);
        ("org_name", JStr org_name);
        ("created_at", JStr created_at);
        ("created_by", JStr created_by);
        ("schedule", JStr schedule_type);
        ("terraform_state", state_info);
        ("resource_exports", JObj resource_exports);
        ("restore_instructions",
          JObj [("state_restore", JStr "Use restore_state.py --restore-state to rollback S3 state");
                ("full_restore", JStr "Use restore_state.py --full-restore for state + terraform apply")])].

End BackupState.

(* ------------------------------------------------------------------ *)
(** ** [restore_state.load_manifest] and [restore_state.main]           *)
(* ------------------------------------------------------------------ *)

Module RestoreMain.
Import Json PyJson S3 Restore Terraform.

Inductive py_error := FileNotFoundError | ValueError | AttributeError.

(** [load_manifest(path)]: [doc] is the parsed content of the file, [None]
    when the path does not exist. *)
Definition load_manifest (doc : option json) : py_error + json :=
  match doc with
  | None => inl FileNotFoundError
  | Some manifest =>
      match dict_get manifest "backup_type" JNull with
      | None => inl AttributeError
      | Some bt =>
          if negb (is_str bt "state-based") then inl ValueError
          else if negb (dict_has manifest "terraform_state") then inl ValueError
          else inr manifest
      end
  end.

(** What the [if args.manifest:] block of [main] makes of a manifest: the
    exception it raises, [sys.exit(1)] for a local-state manifest, or the
    values it takes for [bucket], [key], [region] and [version_id], with
    [manifest.get("environment")], from which [terraform_dir] is inferred
    as [f"environments/{env}/terraform"]. *)
Inductive manifest_source :=
| SourceRaised (e : py_error)
| SourceExit1
| SourceS3 (bucket key region version_id environment : json).

Definition manifest_source_of (doc : option json) : manifest_source :=
  match load_manifest doc with
  | inl e => SourceRaised e
  | inr manifest =>
      match dict_get manifest "terraform_state" (JObj []) with
      | None => SourceRaised AttributeError
      | Some state_info =>
          match dict_get state_info "source" JNull with
          | None => SourceRaised AttributeError
          | Some src =>
              if is_str src "s3" then
                match dict_get state_info "bucket" JNull, dict_get state_info "key" JNull,
                      dict_get state_info "region" (JStr "us-east-1"),
                      dict_get state_info "version_id" JNull,
                      dict_get manifest "environment" JNull with
                | Some b, Some k, Some r, Some v, Some env => SourceS3 b k r v env
                | _, _, _, _, _ => SourceRaised AttributeError
                end
              else SourceExit1
          end
      end
  end.

(** The rest of [main] with [--restore-state] ([full = false]) or
    [--full-restore] ([full = true]), once the target version is known:
    the final terraform environment, the terraform commands run, and the
    exit code or the exception of [run_terraform_apply]. An S3 error is
    raised through the monad. *)
Definition main_restore (returncode : tf_command -> Z) (plan_writes_file : bool)
    (full dry_run auto_approve : bool) (target : version_id) (env : tf_env)
  : M (tf_env * list tf_command * (tf_error + Z)) :=
  let! result := restore_s3_state_version target dry_run in
  let failed := match result with
                | AlreadyCurrent _ => false
                | Restored _ _ _ => false
                | DryRun _ => negb dry_run
                end in
  if failed then ret (env, [], inr 1)
  else if full then
    let '(env', cmds, r) := run_terraform_apply returncode plan_writes_file dry_run auto_approve env in
    ret (env', cmds, match r with
                     | inl e => inl e
                     | inr Applied | inr TfDryRun => inr 0
                     | inr _ => inr 1
                     end)
  else ret (env, [], inr 0).

End RestoreMain.

(* ------------------------------------------------------------------ *)
(** ** [copy_group_memberships.export_memberships]                      *)
(* ------------------------------------------------------------------ *)

Module MembershipsExport.

(** A group as [get_groups] lists it: its [id] and its [profile.name],
    each [None] when the key is absent. *)
Record okta_group := mkGroup {
  group_id : option string;
  group_name : option string
}.

(** A member as [get_group_members] lists it: its [profile.email]. *)
Record okta_member := mkMember {
  member_email : option string
}.

(** The value stored under a group name in [memberships]. *)
Record membership := mkMembership {
  source_group_id : option string;
  member_count : nat;
  member_emails : list string
}.

Definition system_groups : list string := ["Everyone"; "Administrators"].

(** [d[k] = v] on a dict kept in insertion order: an existing key keeps its
    place and gets the new value, a new key goes last. *)
Fixpoint dict_set {A} (k : string) (v : A) (d : list (string * A)) : list (string * A) :=
  match d with
  | [] => [(k, v)]
  | (k', v') :: r => if String.eqb k k' then (k', v) :: r else (k', v') :: dict_set k v r
  end.

(** The loop [for member in members]: [email = ....get('email', '').lower()],
    kept when non-empty. *)
Fixpoint collect_emails (members : list okta_member) : list string :=
  match members with
  | [] => []
  | m :: rest =>
      let email := Py.lower (match member_email m with Some e => e | None => EmptyString end) in
      if String.eqb email EmptyString then collect_emails rest else email :: collect_emails rest
  end.

Section ExportRun.
(** [client.get_group_members(group_id)]: the members the API lists for a
    group id (all pages up to the first error). *)
Variable get_group_members : option string -> list okta_member.
Variable exclude_system : bool.

(** One iteration of [for group in groups]; the state is [memberships] and
    [total_members]. *)
Definition export_group (st : list (string * membership) * nat) (g : okta_group)
  : list (string * membership) * nat :=
  let '(memberships, total_members) := st in
  let name := match group_name g with Some n => n | None => EmptyString end in
  if exclude_system && existsb (String.eqb name) system_groups then st
  else
    match get_group_members (group_id g) with
    | [] => st
    | members =>
        match collect_emails members with
        | [] => st
        | member_emails =>
            (dict_set name (mkMembership (group_id g) (length member_emails) member_emails) memberships,
             (total_members + length member_emails)%nat)
        end
    end.

(** [export_memberships]: [memberships] and the [total_members] written to
    the output file ([group_count] is [len(memberships)]). *)
Definition export_memberships (groups : list okta_group) : list (string * membership) * nat :=
  fold_left export_group groups ([], 0%nat).

End ExportRun.

(** What [import_memberships] reads back from the file:
    [(group_name, membership_data.get('member_emails', []))] for each entry
    of [memberships.items()]. *)
Definition import_input (memberships : list (string * membership)) : list (string * list string) :=
  List.map (fun kv => (fst kv, member_emails (snd kv))) memberships.

End MembershipsExport.

(* ================================================================== *)
(** * Proofs                                                            *)
(* ================================================================== *)

(* ------------------------------------------------------------------ *)
(** ** The CSV row count (create_backup_manifest.count_csv_rows)        *)
(* ------------------------------------------------------------------ *)

Module CsvFacts.
Import Py Csv.

(** A character that neither ends a line nor opens a quoted field. *)
Definition plain (c : ascii) : Prop := c <> LF /\ c <> CR /\ c <> DQUOTE.

(** The fields of an unquoted record, from the field being read. *)
Fixpoint split_from (acc : list ascii) (cs : list ascii) : list string :=
  match cs with
  | [] => [string_of_list_ascii (rev acc)]
  | c :: r =>
      if Ascii.eqb c COMMA then string_of_list_ascii (rev acc) :: split_from [] r
      else split_from (c :: acc) r
  end.

Definition in_unquoted_field (r : reader) : Prop :=
  rstate r = START_FIELD \/ rstate r = IN_FIELD.

Lemma eqb_false (a b : ascii) : a <> b -> Ascii.eqb a b = false.
Proof. intros H. destruct (Ascii.eqb_spec a b); congruence. Qed.

(** Below the limit, [parse_add_char] adds the character. *)
Lemma add_char_ok r c st :
  (Z.of_nat (List.length (rfield r)) < field_limit)%Z ->
  parse_add_char r (Ch c) st = Some (mkReader st (rfields r) (c :: rfield r)).
Proof.
  intros H. unfold parse_add_char.
  assert (Hle := List.filter_length_le (fun c => negb (is_cont c)) (rfield r)).
  unfold field_len. destruct (negb (is_cont c)); cbn [andb]; [|reflexivity].
  replace (field_limit <=? _)%Z with false by (symmetry; apply Z.leb_gt; lia).
  reflexivity.
Qed.

Lemma plain_step r c :
  plain c -> in_unquoted_field r ->
  (Z.of_nat (List.length (rfield r)) < field_limit)%Z ->
  parse_process_char r (Ch c) =
    if Ascii.eqb c COMMA then Some (parse_save_field r START_FIELD)
    else Some (mkReader IN_FIELD (rfields r) (c :: rfield r)).
Proof.
  intros (H1 & H2 & H3) [Hs | Hs] Hl; unfold parse_process_char, start_field;
    rewrite Hs; simpl;
    rewrite ?(eqb_false _ _ H1), ?(eqb_false _ _ H2), ?(eqb_false _ _ H3); simpl;
    destruct (Ascii.eqb c COMMA); try reflexivity; apply add_char_ok, Hl.
Qed.

Lemma feed_plain cs : forall r,
  Forall plain cs -> in_unquoted_field r ->
  (Z.of_nat (List.length (rfield r) + List.length cs) <= field_limit)%Z ->
  feed r cs = Some (mkReader START_RECORD (rfields r ++ split_from (rfield r) cs) [])
  /\ feed r (cs ++ [LF])
     = Some (mkReader START_RECORD (rfields r ++ split_from (rfield r) cs) []).
Proof.
  induction cs as [|c cs IH]; intros r Hp Hr Hl.
  - destruct Hr as [Hs | Hs]; simpl; unfold parse_process_char, start_field;
      rewrite Hs; simpl; split; reflexivity.
  - inversion Hp as [|? ? Hc Hcs]; subst. cbn [List.length] in Hl.
    simpl. rewrite (plain_step r c Hc Hr) by lia.
    destruct (Ascii.eqb c COMMA) eqn:Ec.
    + destruct (IH (parse_save_field r START_FIELD) Hcs (or_introl eq_refl))
        as [E1 E2]; [cbn; lia|].
      simpl in E1, E2. rewrite <- app_assoc in E1, E2. split; assumption.
    + destruct (IH (mkReader IN_FIELD (rfields r) (c :: rfield r)) Hcs (or_intror eq_refl))
        as [E1 E2]; [cbn [rfield List.length]; lia|].
      split; assumption.
Qed.

(** A line of a quote-free file: a body of plain characters, followed by
    its newline, or the non-empty last line of a file with no final
    newline. *)
Definition good_line (l : list ascii) : Prop :=
  exists body, Forall plain body /\ (l = body ++ [LF] \/ (l = body /\ body <> [])).

Definition line_row (l : list ascii) : list string :=
  match line_body l with
  | [] => []
  | b => split_from [] b
  end.

Lemma last_in (l : list ascii) d : l <> [] -> In (List.last l d) l.
Proof.
  intros H. rewrite (app_removelast_last d H) at 2. apply in_or_app. right. left. reflexivity.
Qed.

Lemma line_body_good l body :
  Forall plain body -> (l = body ++ [LF] \/ (l = body /\ body <> [])) ->
  line_body l = body.
Proof.
  intros Hp [-> | [-> Hne]].
  - unfold line_body. destruct (body ++ [LF]) eqn:E.
    + destruct body; discriminate.
    + rewrite <- E, last_last, Ascii.eqb_refl, removelast_last. reflexivity.
  - unfold line_body.
    assert (Hin := last_in body "x"%char Hne).
    rewrite List.Forall_forall in Hp. destruct (Hp _ Hin) as [H1 _].
    destruct body as [|c r]; [congruence|].
    rewrite (eqb_false _ _ H1). reflexivity.
Qed.

Lemma feed_good_line l :
  good_line l -> (Z.of_nat (List.length l) <= field_limit)%Z ->
  feed parse_reset l = Some (mkReader START_RECORD (line_row l) []).
Proof.
  intros (body & Hp & Hl) Hlen.
  assert (Hb : (Z.of_nat (List.length body) <= field_limit)%Z).
  { destruct Hl as [-> | [-> _]]; [rewrite List.length_app in Hlen|]; lia. }
  unfold line_row. rewrite (line_body_good l body Hp Hl).
  destruct body as [|c cs].
  - destruct Hl as [-> | [_ H]]; [reflexivity | congruence].
  - inversion Hp as [|? ? Hc Hcs]; subst.
    assert (Hstep : parse_process_char parse_reset (Ch c)
                    = parse_process_char (mkReader START_FIELD [] []) (Ch c)).
    { destruct Hc as (H1 & H2 & H3). unfold parse_process_char; simpl.
      rewrite (eqb_false _ _ H1), (eqb_false _ _ H2). reflexivity. }
    destruct (feed_plain (c :: cs) (mkReader START_FIELD [] []) Hp
                (or_introl eq_refl) Hb) as [E1 E2].
    simpl in E1, E2. rewrite <- Hstep in E1, E2.
    destruct Hl as [-> | [-> _]]; simpl; assumption.
Qed.

Lemma rows_fuel_good lines : forall fuel,
  Forall good_line lines ->
  Forall (fun l => Z.of_nat (List.length l) <= field_limit)%Z lines ->
  (List.length lines < fuel)%nat ->
  rows_fuel fuel lines = Some (List.map line_row lines).
Proof.
  induction lines as [|l rest IH]; intros fuel Hg Hl Hf.
  - destruct fuel; [lia|]. reflexivity.
  - destruct fuel as [|fuel]; [lia|].
    inversion Hg; subst. inversion Hl; subst. simpl.
    unfold reader_next. simpl. rewrite feed_good_line by assumption. simpl.
    rewrite IH by (simpl in Hf; lia || assumption). reflexivity.
Qed.

(** Universal-newline translation leaves no carriage return and adds no
    quote character. *)
Lemma translate_newlines_plain l :
  Forall (fun c => c <> DQUOTE) l ->
  Forall (fun c => c <> CR /\ c <> DQUOTE) (TextIO.translate_newlines l).
Proof.
  assert (HLF : LF <> CR /\ LF <> DQUOTE) by (split; discriminate).
  induction l as [l IH] using
    (well_founded_ind (Wf_nat.well_founded_ltof _ (@List.length ascii))).
  unfold Wf_nat.ltof in IH.
  intros Hq. destruct l as [|c r]; [constructor|].
  inversion Hq as [|? ? Hc Hr]; subst. simpl.
  destruct (Ascii.eqb_spec c CR) as [->|Hne].
  - destruct r as [|c2 r'].
    + constructor; [exact HLF | constructor].
    + inversion Hr; subst.
      destruct (Ascii.eqb c2 LF).
      * constructor; [exact HLF|]. apply IH; [simpl; lia | assumption].
      * constructor; [exact HLF|]. apply IH; [simpl; lia | assumption].
  - constructor; [split; assumption|]. apply IH; [simpl; lia | assumption].
Qed.

Lemma split_lines_good l : forall acc,
  Forall (fun c => c <> CR /\ c <> DQUOTE) l ->
  Forall plain acc ->
  Forall good_line (TextIO.split_lines_acc acc l).
Proof.
  induction l as [|c r IH]; intros acc Hl Hacc; simpl.
  - destruct acc as [|a acc']; constructor; [|constructor].
    exists (rev (a :: acc')). split; [apply Forall_rev; assumption|].
    right. split; [reflexivity|]. simpl. destruct (rev acc'); discriminate.
  - inversion Hl as [|? ? [Hc1 Hc2] Hr]; subst.
    destruct (Ascii.eqb_spec c LF) as [->|Hne].
    + constructor.
      * exists (rev acc). split; [apply Forall_rev; assumption|]. left. reflexivity.
      * apply IH; [assumption | constructor].
    + apply IH; [assumption|]. constructor; [|assumption]. repeat split; assumption.
Qed.

Lemma file_lines_good content :
  Forall (fun c => c <> DQUOTE) (list_ascii_of_string content) ->
  Forall good_line (TextIO.file_lines content).
Proof.
  intros Hq. unfold TextIO.file_lines.
  apply split_lines_good; [apply translate_newlines_plain; assumption | constructor].
Qed.

Lemma split_from_head cs : forall acc,
  exists tl, split_from acc cs = string_of_list_ascii (rev acc ++ first_field cs) :: tl.
Proof.
  induction cs as [|c r IH]; intros acc; simpl.
  - exists []. rewrite app_nil_r. reflexivity.
  - destruct (Ascii.eqb c COMMA).
    + exists (split_from [] r). rewrite app_nil_r. reflexivity.
    + destruct (IH (c :: acc)) as [tl E]. exists tl. rewrite E. simpl.
      rewrite <- app_assoc. reflexivity.
Qed.

Lemma row_counted_line l :
  csv_row_counted (line_row l) = line_counted l.
Proof.
  unfold line_row, line_counted. destruct (line_body l) as [|c r]; [reflexivity|].
  destruct (split_from_head (c :: r) []) as [tl E]. rewrite E. reflexivity.
Qed.

End CsvFacts.

Lemma no_quote_of_bool (l : list ascii) :
  forallb (fun c => negb (Ascii.eqb c Py.DQUOTE)) l = true ->
  Forall (fun c => c <> Py.DQUOTE) l.
Proof.
  induction l as [|c r IH]; simpl; intros H; constructor.
  - apply andb_true_iff in H as [H _]. destruct (Ascii.eqb_spec c Py.DQUOTE); easy.
  - apply IH. apply andb_true_iff in H as [_ H]. exact H.
Qed.

(** C7 (counterexample). A line whose first field is empty, [",x"], is a
    counted data row: [csv.reader] yields [['', 'x']], a non-empty row
    whose first field neither starts with '#' nor equals 'email'. *)
Lemma count_csv_rows_empty_first_field_counted :
  Csv.csv_reader ("," ++ "x" ++ nl)%string = Some [[""; "x"]%string]
  /\ count_csv_rows ("," ++ "x" ++ nl)%string = Some 1%nat.
Proof. split; vm_compute; reflexivity. Qed.

(** C7 (amended). [count_csv_rows] raises on a file that is not UTF-8.
    For a UTF-8 file without quote characters whose lines (newline
    included) have at most [field_limit] = 131072 bytes, it counts exactly
    the lines that are not blank, whose first field (the text before the
    first comma) does not start with '#' and is not 'email'. Blank lines
    are skipped, but a line whose first field is empty and that has other
    fields is counted. *)
Theorem count_csv_rows_by_line (content : string) :
  (TextIO.utf8_ok (list_ascii_of_string content) = false -> count_csv_rows content = None)
  /\ (TextIO.utf8_ok (list_ascii_of_string content) = true ->
      Forall (fun c => c <> Py.DQUOTE) (list_ascii_of_string content) ->
      Forall (fun l => Z.of_nat (List.length l) <= Csv.field_limit) (TextIO.file_lines content) ->
      count_csv_rows content
      = Some (List.length (List.filter line_counted (TextIO.file_lines content)))).
Proof.
  unfold count_csv_rows. split; intros Hu; rewrite Hu; [reflexivity|].
  intros Hq Hlen. cbn [negb]. unfold Csv.csv_reader.
  assert (Hg := CsvFacts.file_lines_good content Hq).
  rewrite CsvFacts.rows_fuel_good by (assumption || lia).
  f_equal. clear Hlen. induction Hg as [|l rest _ _ IH]; [reflexivity|].
  simpl. rewrite CsvFacts.row_counted_line.
  destruct (line_counted l); simpl; rewrite IH; reflexivity.
Qed.

(** Witness for C7: the five-line file with a header, a comment and three
    data rows; the count is 3. *)
Lemma count_csv_rows_five_row_witness :
  let csv := ("email,first_name,last_name" ++ nl ++ "# Exported from Okta org: acme" ++ nl
              ++ "alice@x.com,Alice,A" ++ nl ++ "bob@x.com,Bob,B" ++ nl
              ++ "carol@x.com,Carol,C" ++ nl)%string in
  count_csv_rows csv
  = Some (List.length (List.filter line_counted (TextIO.file_lines csv)))
  /\ count_csv_rows csv = Some 3%nat.
Proof.
  intros csv. split.
  - apply (proj2 (count_csv_rows_by_line csv)).
    + vm_compute. reflexivity.
    + apply no_quote_of_bool. vm_compute. reflexivity.
    + vm_compute. repeat constructor; discriminate.
  - vm_compute. reflexivity.
Defined.

(* ------------------------------------------------------------------ *)
(** ** State restore (restore_state.restore_s3_state_version)            *)
(* ------------------------------------------------------------------ *)

Module RestoreFacts.
Import S3 Restore.

Lemma find_version_in v h body :
  find_version v h = Some body -> In v (List.map fst h).
Proof.
  induction h as [|[v' b'] h IH]; simpl; [discriminate|].
  destruct (Nat.eqb_spec v v') as [->|_]; [left; reflexivity|].
  intros H. right. apply IH. exact H.
Qed.

Lemma fresh_version_not_in h : ~ In (fresh_version h) (List.map fst h).
Proof.
  unfold fresh_version. intros Hin.
  assert (Hle : Forall (fun k => (k <= list_max (List.map fst h))%nat) (List.map fst h))
    by (apply list_max_le; lia).
  rewrite List.Forall_forall in Hle. specialize (Hle _ Hin). lia.
Qed.

(** One non-dry-run restore from a state whose current version is not the
    target: the content of the target becomes the content of a new, fresh
    current version. *)
Lemma restore_once o v body :
  find_version v (history o) = Some body ->
  current_version o <> Some v ->
  exists prev,
    current_version o = Some prev /\
    restore_s3_state_version v false o
    = (mkS3 ((fresh_version (history o), body) :: history o)
            (calls o ++ [HeadObject] ++ [GetObjectVersion v] ++ [PutObject body]
                     ++ [HeadObject]),
       inr (Restored prev v (fresh_version (history o)))).
Proof.
  intros Hv Hcur. destruct o as [h cs]. simpl in *.
  destruct h as [|[c cb] rest] eqn:Eh; [discriminate|].
  exists c. split; [reflexivity|].
  unfold current_version in Hcur. simpl in Hcur.
  assert (Hne : Nat.eqb c v = false)
    by (destruct (Nat.eqb_spec c v); congruence).
  unfold restore_s3_state_version, get_s3_state_version, head_object,
    download_version, upload, bind, log, ret.
  cbn -[find_version fresh_version].
  rewrite Hne. cbn -[find_version fresh_version]. rewrite Hv.
  cbn -[fresh_version].
  rewrite <- !app_assoc. reflexivity.
Qed.

Lemma fresh_differs_from_stored o v body :
  find_version v (history o) = Some body -> fresh_version (history o) <> v.
Proof.
  intros Hv E. apply (fresh_version_not_in (history o)). rewrite E.
  eapply find_version_in. exact Hv.
Qed.

(** In dry-run mode the object's history is untouched and the only call
    made is the metadata read, whatever the outcome. *)
Lemma restore_dry_run_no_write o v :
  fst (restore_s3_state_version v true o)
  = mkS3 (history o) (calls o ++ [HeadObject]).
Proof.
  destruct o as [h cs].
  unfold restore_s3_state_version, get_s3_state_version, head_object, bind, log, ret.
  simpl. destruct h as [|[c cb] rest]; [reflexivity|].
  destruct (Nat.eqb c v); reflexivity.
Qed.

End RestoreFacts.

(** C1. A non-dry-run restore to a stored version [v], from a state whose
    current version is not [v], makes [v]'s content current under a new
    version id different from [v]. Restoring [v] again then restores again:
    the content is again [v]'s and the new id differs both from [v] and
    from the id of the first restore. *)
Theorem restore_content_idempotent_not_version
  (o : S3.s3_object) (v : S3.version_id) (body : string)
  (Hv : S3.find_version v (S3.history o) = Some body)
  (Hcur : S3.current_version o <> Some v) :
  exists prev v1 v2 o1 o2,
    Restore.restore_s3_state_version v false o
      = (o1, inr (Restore.Restored prev v v1))
    /\ S3.current_version o1 = Some v1 /\ S3.current_content o1 = Some body /\ v1 <> v
    /\ Restore.restore_s3_state_version v false o1
      = (o2, inr (Restore.Restored v1 v v2))
    /\ S3.current_version o2 = Some v2 /\ S3.current_content o2 = Some body
    /\ v2 <> v /\ v2 <> v1.
Proof.
  destruct (RestoreFacts.restore_once o v body Hv Hcur) as [prev [_ E1]].
  set (v1 := S3.fresh_version (S3.history o)) in *.
  set (o1 := S3.mkS3 ((v1, body) :: S3.history o) _) in E1.
  assert (Hv1 : v1 <> v) by (apply (RestoreFacts.fresh_differs_from_stored o v body Hv)).
  assert (Hv' : S3.find_version v (S3.history o1) = Some body).
  { simpl. destruct (Nat.eqb_spec v v1) as [E|_]; [congruence | exact Hv]. }
  assert (Hcur' : S3.current_version o1 <> Some v)
    by (unfold S3.current_version; simpl; congruence).
  destruct (RestoreFacts.restore_once o1 v body Hv' Hcur') as [prev' [Hp E2]].
  simpl in Hp. injection Hp as <-.
  set (v2 := S3.fresh_version (S3.history o1)) in *.
  assert (Hv2 : v2 <> v) by (apply (RestoreFacts.fresh_differs_from_stored o1 v body Hv')).
  assert (Hv21 : v2 <> v1).
  { intros E. apply (RestoreFacts.fresh_version_not_in (S3.history o1)).
    fold v2. rewrite E. simpl. left. reflexivity. }
  eexists prev, v1, v2, o1, _.
  split; [exact E1|]. split; [reflexivity|]. split; [reflexivity|].
  split; [exact Hv1|]. split; [exact E2|]. split; [reflexivity|].
  split; [reflexivity|]. split; assumption.
Qed.

(** Witness for C1: an object with versions 1 (["old"]) and 2 (["new"],
    current); restoring version 1 twice. *)
Lemma restore_content_idempotent_not_version_witness :
  let o := S3.mkS3 [(2%nat, "new"%string); (1%nat, "old"%string)] [] in
  S3.find_version 1%nat (S3.history o) = Some "old"%string
  /\ S3.current_version o <> Some 1%nat
  /\ exists prev v1 v2 o1 o2,
    Restore.restore_s3_state_version 1%nat false o
      = (o1, inr (Restore.Restored prev 1%nat v1))
    /\ S3.current_version o1 = Some v1 /\ S3.current_content o1 = Some "old"%string
    /\ v1 <> 1%nat
    /\ Restore.restore_s3_state_version 1%nat false o1
      = (o2, inr (Restore.Restored v1 1%nat v2))
    /\ S3.current_version o2 = Some v2 /\ S3.current_content o2 = Some "old"%string
    /\ v2 <> 1%nat /\ v2 <> v1.
Proof.
  intros o. split; [reflexivity|]. split; [simpl; discriminate|].
  apply restore_content_idempotent_not_version; [reflexivity | simpl; discriminate].
Defined.

(** C2. When the current version is the target, the restore returns
    "already_current" and performs no write: the history is unchanged and
    the only S3 call is the metadata read, whether or not it is a dry run. *)
Theorem restore_already_current_no_write
  (o : S3.s3_object) (v : S3.version_id) (dry_run : bool)
  (Hcur : S3.current_version o = Some v) :
  Restore.restore_s3_state_version v dry_run o
  = (S3.mkS3 (S3.history o) (S3.calls o ++ [S3.HeadObject]),
     inr (Restore.AlreadyCurrent v)).
Proof.
  destruct o as [h cs]. unfold S3.current_version in Hcur. simpl in Hcur.
  destruct h as [|[c cb] rest]; [discriminate|]. injection Hcur as ->.
  unfold Restore.restore_s3_state_version, Restore.get_s3_state_version,
    S3.head_object, S3.bind, S3.log, S3.ret.
  simpl. rewrite Nat.eqb_refl. reflexivity.
Qed.

(** Witness for C2. *)
Lemma restore_already_current_no_write_witness :
  let o := S3.mkS3 [(2%nat, "new"%string); (1%nat, "old"%string)] [] in
  S3.current_version o = Some 2%nat
  /\ Restore.restore_s3_state_version 2%nat false o
     = (S3.mkS3 (S3.history o) (S3.calls o ++ [S3.HeadObject]),
        inr (Restore.AlreadyCurrent 2%nat)).
Proof.
  intros o. split; [reflexivity|].
  apply restore_already_current_no_write. reflexivity.
Defined.

(* ------------------------------------------------------------------ *)
(** ** Full restore (restore_state.run_terraform_apply)                  *)
(* ------------------------------------------------------------------ *)

(** C3. Whatever the exit codes of the terraform commands: an apply is run
    only after an init and a plan that both exited 0; a non-zero init exit
    returns "init_failed" and a non-zero plan exit returns "plan_failed",
    with no apply run; after an "applied" or a dry-run result the plan file
    restore.tfplan no longer exists. *)
Theorem run_terraform_apply_sequencing
  (returncode : Terraform.tf_command -> Z) (plan_writes_file dry_run auto_approve : bool)
  (env : Terraform.tf_env) :
  let '(env', commands, result) :=
    Terraform.run_terraform_apply returncode plan_writes_file dry_run auto_approve env in
  (existsb Terraform.is_apply commands = true ->
     commands = [Terraform.TfInit; Terraform.TfPlan; Terraform.TfApply auto_approve]
     /\ returncode Terraform.TfInit = 0 /\ returncode Terraform.TfPlan = 0)
  /\ (In Terraform.TfInit commands -> returncode Terraform.TfInit <> 0 ->
        result = inr Terraform.InitFailed /\ existsb Terraform.is_apply commands = false)
  /\ (In Terraform.TfPlan commands -> returncode Terraform.TfPlan <> 0 ->
        result = inr Terraform.PlanFailed /\ existsb Terraform.is_apply commands = false)
  /\ (result = inr Terraform.Applied \/ result = inr Terraform.TfDryRun ->
        Terraform.plan_file_exists env' = false).
Proof.
  unfold Terraform.run_terraform_apply, Terraform.run.
  destruct (Terraform.dir_exists env) eqn:Ed; simpl.
  2:{ repeat split; intros; try discriminate; try contradiction.
      destruct H as [H|H]; discriminate. }
  destruct (Z.eqb_spec (returncode Terraform.TfInit) 0) as [Hi|Hi]; simpl.
  2:{ repeat split; intros; try discriminate; try contradiction; try reflexivity.
      - destruct H as [H|[]]; discriminate.
      - destruct H as [H|H]; discriminate. }
  destruct (Z.eqb_spec (returncode Terraform.TfPlan) 0) as [Hp|Hp]; simpl.
  2:{ repeat split; intros; try discriminate; try contradiction; try reflexivity.
      destruct H as [H|H]; discriminate. }
  destruct dry_run; simpl.
  { repeat split; intros; try discriminate; try contradiction; reflexivity. }
  destruct (Z.eqb_spec (returncode (Terraform.TfApply auto_approve)) 0); simpl;
    repeat split; intros; try discriminate; try contradiction; try assumption;
    try reflexivity.
Qed.

(** Witness for C3: init succeeds, plan fails. *)
Lemma run_terraform_apply_sequencing_witness :
  let rc := fun c => match c with Terraform.TfPlan => 1 | _ => 0 end in
  let env := Terraform.mkTfEnv true false in
  Terraform.run_terraform_apply rc true false false env
    = (Terraform.mkTfEnv true true, [Terraform.TfInit; Terraform.TfPlan],
       inr Terraform.PlanFailed)
  /\ (let '(env', commands, result) := Terraform.run_terraform_apply rc true false false env in
  (existsb Terraform.is_apply commands = true ->
     commands = [Terraform.TfInit; Terraform.TfPlan; Terraform.TfApply false]
     /\ rc Terraform.TfInit = 0 /\ rc Terraform.TfPlan = 0)
  /\ (In Terraform.TfInit commands -> rc Terraform.TfInit <> 0 ->
        result = inr Terraform.InitFailed /\ existsb Terraform.is_apply commands = false)
  /\ (In Terraform.TfPlan commands -> rc Terraform.TfPlan <> 0 ->
        result = inr Terraform.PlanFailed /\ existsb Terraform.is_apply commands = false)
  /\ (result = inr Terraform.Applied \/ result = inr Terraform.TfDryRun ->
        Terraform.plan_file_exists env' = false)).
Proof.
  intros rc env. split; [reflexivity|].
  exact (run_terraform_apply_sequencing rc true false false env).
Defined.

(* ------------------------------------------------------------------ *)
(** ** Rate-limit backoff of the API clients                            *)
(* ------------------------------------------------------------------ *)

(** C5 (counterexample). Two behaviours the claim excludes. (1) The
    governance client gets a 429 whose X-Rate-Limit-Reset (epoch 0) is
    already past at time 100 s: it sleeps 1 s, up to 101 s, not until the
    reset time plus one second. (2) The users-export client gets a 200 whose
    X-Rate-Limit-Remaining is 5: it sleeps 0.5 s before returning it. *)
Lemma make_request_backoff_not_until_reset :
  let r429 := Http.mkResp 429 (Some 0) None Json.JNull in
  let r200 := Http.mkResp 200 None None Json.JNull in
  let rq := Http.mkReq Http.GET "/api/v1/users" None in
  GovernanceClient.make_request
    (Http.scripted (fun n => match n with O => r429 | _ => r200 end)) rq
    (Http.mkNet 100000 [])
  = (Http.mkNet 101000 [Http.Sent rq; Http.Slept 1000; Http.Sent rq], r200)
  /\ 101000 <> 0 * 1000 + 1000
  /\ UsersClient.make_request
       (Http.scripted (fun _ => Http.mkResp 200 None (Some 5) Json.JNull)) 1000 rq
       (Http.mkNet 100000 [])
     = (5, Http.mkNet 100500 [Http.Sent rq; Http.Slept 500],
        Http.mkResp 200 None (Some 5) Json.JNull).
Proof. repeat split; try reflexivity; lia. Qed.

(** C5 (amended). For the governance client, against a transport that
    answers the n-th request with [rs n], from time [t0]: a non-429
    response ends the loop and is returned; each 429 is followed by a sleep
    of [wait_time_ms], which ends at the reset time plus one second, or one
    second from now if that is later (reset time: X-Rate-Limit-Reset, else
    int(now + 60 s)), and by a retry of the same request; after three 429s
    the third response is returned as it is (after one more sleep). The
    users-export client behaves the same, except that before returning a
    non-429 response it sleeps 0.5 s when the last X-Rate-Limit-Remaining
    it has seen is below 10. *)
Theorem make_request_backoff (rs : nat -> Http.response) (rq : Http.request) (t0 c0 : Z) :
  let r0 := rs 0%nat in let r1 := rs 1%nat in let r2 := rs 2%nat in
  let w0 := GovernanceClient.wait_time_ms r0 t0 in
  let w1 := GovernanceClient.wait_time_ms r1 (t0 + w0) in
  let w2 := GovernanceClient.wait_time_ms r2 (t0 + w0 + w1) in
  let c1 := UsersClient.update_remaining c0 r0 in
  let c2 := UsersClient.update_remaining c1 r1 in
  let c3 := UsersClient.update_remaining c2 r2 in
  let pause c := if c <? 10 then [Http.Slept 500] else [] in
  let S := Http.Sent rq in
  (forall resp now,
     now + GovernanceClient.wait_time_ms resp now
     = Z.max (GovernanceClient.reset_time resp now * 1000 + 1000) (now + 1000))
  /\ (let '(nt, resp) := GovernanceClient.make_request (Http.scripted rs) rq (Http.mkNet t0 []) in
      (Http.status_code r0 <> 429 -> resp = r0 /\ Http.events nt = [S])
      /\ (Http.status_code r0 = 429 -> Http.status_code r1 <> 429 ->
          resp = r1 /\ Http.events nt = [S; Http.Slept w0; S])
      /\ (Http.status_code r0 = 429 -> Http.status_code r1 = 429 -> Http.status_code r2 <> 429 ->
          resp = r2 /\ Http.events nt = [S; Http.Slept w0; S; Http.Slept w1; S])
      /\ (Http.status_code r0 = 429 -> Http.status_code r1 = 429 -> Http.status_code r2 = 429 ->
          resp = r2
          /\ Http.events nt = [S; Http.Slept w0; S; Http.Slept w1; S; Http.Slept w2]))
  /\ (let '(_, nt, resp) := UsersClient.make_request (Http.scripted rs) c0 rq (Http.mkNet t0 []) in
      (Http.status_code r0 <> 429 -> resp = r0 /\ Http.events nt = [S] ++ pause c1)
      /\ (Http.status_code r0 = 429 -> Http.status_code r1 <> 429 ->
          resp = r1 /\ Http.events nt = [S; Http.Slept w0; S] ++ pause c2)
      /\ (Http.status_code r0 = 429 -> Http.status_code r1 = 429 -> Http.status_code r2 <> 429 ->
          resp = r2 /\ Http.events nt = [S; Http.Slept w0; S; Http.Slept w1; S] ++ pause c3)
      /\ (Http.status_code r0 = 429 -> Http.status_code r1 = 429 -> Http.status_code r2 = 429 ->
          resp = r2
          /\ Http.events nt = [S; Http.Slept w0; S; Http.Slept w1; S; Http.Slept w2])).
Proof.
  intros r0 r1 r2 w0 w1 w2 c1 c2 c3 pause S. split; [|split].
  - intros resp now. unfold GovernanceClient.wait_time_ms. lia.
  - unfold GovernanceClient.make_request, GovernanceClient.attempt,
      GovernanceClient.handle_rate_limit, Http.send, Http.sleep, Http.scripted.
    cbn -[GovernanceClient.wait_time_ms].
    fold r0. destruct (Z.eqb_spec (Http.status_code r0) 429) as [H0|H0];
      cbn -[GovernanceClient.wait_time_ms].
    2:{ repeat split; intros; try contradiction; reflexivity. }
    rewrite H0. cbn -[GovernanceClient.wait_time_ms]. fold r1 w0.
    destruct (Z.eqb_spec (Http.status_code r1) 429) as [H1|H1];
      cbn -[GovernanceClient.wait_time_ms].
    2:{ repeat split; intros; try contradiction; reflexivity. }
    rewrite H1. cbn -[GovernanceClient.wait_time_ms]. fold r2 w1.
    destruct (Z.eqb_spec (Http.status_code r2) 429) as [H2|H2];
      cbn -[GovernanceClient.wait_time_ms].
    2:{ repeat split; intros; try contradiction; reflexivity. }
    rewrite H2. cbn -[GovernanceClient.wait_time_ms]. fold w2.
    repeat split; intros; try contradiction; reflexivity.
  - subst pause S.
    unfold UsersClient.make_request, UsersClient.attempt,
      UsersClient.handle_rate_limit, Http.send, Http.sleep, Http.scripted.
    cbn -[GovernanceClient.wait_time_ms UsersClient.update_remaining].
    fold r0 c1. destruct (Z.eqb_spec (Http.status_code r0) 429) as [H0|H0].
    2:{ destruct (c1 <? 10); cbn; repeat split; intros; try contradiction; reflexivity. }
    rewrite ?H0. cbn -[GovernanceClient.wait_time_ms UsersClient.update_remaining].
    fold r1 w0 c2.
    destruct (Z.eqb_spec (Http.status_code r1) 429) as [H1|H1].
    2:{ destruct (c2 <? 10); cbn; repeat split; intros; try contradiction; reflexivity. }
    rewrite ?H1. cbn -[GovernanceClient.wait_time_ms UsersClient.update_remaining].
    fold r2 w1 c3.
    destruct (Z.eqb_spec (Http.status_code r2) 429) as [H2|H2].
    2:{ destruct (c3 <? 10); cbn; repeat split; intros; try contradiction; reflexivity. }
    rewrite ?H2. cbn -[GovernanceClient.wait_time_ms UsersClient.update_remaining]. fold w2.
    repeat split; intros; try contradiction; reflexivity.
Qed.

(** Witness for C5: two 429s with X-Rate-Limit-Reset = 1002 s, then a
    200, from time 1000 s; the client sleeps 3 s, then 1 s, and returns the
    200 response on the third attempt. *)
Lemma make_request_backoff_witness :
  let r429 := Http.mkResp 429 (Some 1002) None Json.JNull in
  let r200 := Http.mkResp 200 None None Json.JNull in
  let rs := fun n => match n with O | 1%nat => r429 | _ => r200 end in
  let rq := Http.mkReq Http.GET "/api/v1/users" None in
  let '(nt, resp) := GovernanceClient.make_request (Http.scripted rs) rq (Http.mkNet 1000000 []) in
  resp = r200
  /\ Http.events nt = [Http.Sent rq; Http.Slept 3000; Http.Sent rq; Http.Slept 1000; Http.Sent rq].
Proof.
  intros r429 r200 rs rq.
  pose proof (make_request_backoff rs rq 1000000 1000) as H.
  destruct H as [_ [H _]]. cbv zeta in H. revert H.
  destruct (GovernanceClient.make_request (Http.scripted rs) rq (Http.mkNet 1000000 []))
    as [nt resp].
  intros (_ & _ & H3 & _).
  destruct (H3 eq_refl eq_refl ltac:(discriminate)) as [E1 E2].
  split; [exact E1|]. rewrite E2. reflexivity.
Defined.

(* ------------------------------------------------------------------ *)
(** ** Dry-run mode of the importers and of the state restore           *)
(* ------------------------------------------------------------------ *)

Module DryRunFacts.
Import Http.

Lemma gov_attempt_answer server k rq : forall nt,
  exists evs, snd (GovernanceClient.attempt server k rq nt) = server evs rq.
Proof.
  induction k as [|k IH]; intros nt; simpl.
  - destruct (Http.status_code (server (events nt) rq) =? 429); simpl; eauto.
  - destruct (Http.status_code (server (events nt) rq) =? 429); simpl; eauto.
Qed.

Lemma create_grant_ok server bid pid ptype nt :
  (forall evs rq, method rq = POST -> ok (server evs rq) = true) ->
  exists nt' data,
    GovernanceClient.create_grant server bid pid ptype false nt
    = (nt', GovernanceClient.GrantCreated data).
Proof.
  intros Hok. unfold GovernanceClient.create_grant, GovernanceClient.make_request.
  cbv zeta.
  match goal with |- context [GovernanceClient.attempt server 2 ?r nt] => set (rq := r) end.
  destruct (gov_attempt_answer server 2 rq nt) as [evs E].
  destruct (GovernanceClient.attempt server 2 rq nt) as [nt' resp]. simpl in E.
  rewrite E, (Hok evs rq eq_refl). eauto.
Qed.

Lemma import_one_dry_net server idx excl res nt g :
  snd (GrantsImport.import_one server idx excl true (res, nt) g) = nt.
Proof.
  unfold GrantsImport.import_one.
  destruct (match GrantsImport.target_app_name g with
            | Some a => existsb (String.eqb a) excl | None => false end);
    [reflexivity|].
  destruct (GrantsImport.get_truthy _ _) as [bid|]; [|reflexivity].
  destruct (GrantsImport.resolve_principal _ _ _) as [pid|]; reflexivity.
Qed.

Lemma import_one_same server idx excl res nt nt' g :
  (forall evs rq, method rq = POST -> ok (server evs rq) = true) ->
  fst (GrantsImport.import_one server idx excl false (res, nt) g)
  = fst (GrantsImport.import_one server idx excl true (res, nt') g).
Proof.
  intros Hok. unfold GrantsImport.import_one.
  destruct (match GrantsImport.target_app_name g with
            | Some a => existsb (String.eqb a) excl | None => false end);
    [reflexivity|].
  destruct (GrantsImport.get_truthy _ _) as [bid|]; [|reflexivity].
  destruct (GrantsImport.resolve_principal _ _ _) as [pid|]; [|reflexivity].
  destruct (create_grant_ok server bid pid (GrantsImport.principal_type g) nt Hok)
    as (nt1 & data & E). rewrite E. reflexivity.
Qed.

Lemma grants_dry_net server idx excl gs : forall res nt,
  snd (fold_left (GrantsImport.import_one server idx excl true) gs (res, nt)) = nt.
Proof.
  induction gs as [|g gs IH]; intros res nt; [reflexivity|].
  cbn [fold_left]. pose proof (import_one_dry_net server idx excl res nt g) as E.
  destruct (GrantsImport.import_one server idx excl true (res, nt) g) as [r n].
  simpl in E. subst n. apply IH.
Qed.

Lemma grants_same_counts server idx excl gs :
  (forall evs rq, method rq = POST -> ok (server evs rq) = true) ->
  forall res nt nt',
  fst (fold_left (GrantsImport.import_one server idx excl false) gs (res, nt))
  = fst (fold_left (GrantsImport.import_one server idx excl true) gs (res, nt')).
Proof.
  intros Hok. induction gs as [|g gs IH]; intros res nt nt'; [reflexivity|].
  cbn [fold_left]. pose proof (import_one_same server idx excl res nt nt' g Hok) as E.
  destruct (GrantsImport.import_one server idx excl false (res, nt) g) as [r1 n1].
  destruct (GrantsImport.import_one server idx excl true (res, nt') g) as [r2 n2].
  simpl in E. subst r2. apply IH.
Qed.

(** The four counts the import summary prints in both modes. *)
Definition reported (s : MembershipsImport.stats) : nat * nat * nat * nat :=
  (MembershipsImport.groups_found s, MembershipsImport.groups_missing s,
   MembershipsImport.users_matched s, MembershipsImport.users_missing s).

Definition assignments (s : MembershipsImport.stats) : nat * nat :=
  (MembershipsImport.assignments_made s, MembershipsImport.assignments_failed s).

Ltac stats_congr H :=
  unfold reported, assignments in *; injection H as ? ? ? ?; simpl; congruence.

Lemma member_step server tu gid sd c nt sr cr ntr e :
  reported sd = reported sr ->
  let d := MembershipsImport.import_member server tu true gid (sd, c, nt) e in
  let r := MembershipsImport.import_member server tu false gid (sr, cr, ntr) e in
  snd (fst d) = c /\ snd d = nt /\ assignments (fst (fst d)) = assignments sd
  /\ reported (fst (fst d)) = reported (fst (fst r)).
Proof.
  intros Hrep d r. subst d r. unfold MembershipsImport.import_member.
  destruct (tu !! Py.lower e) as [uid|]; simpl.
  - destruct (MembershipsClient.add_user_to_group server cr gid uid ntr)
      as [[cr' ntr'] []]; simpl; repeat split; stats_congr Hrep.
  - repeat split; stats_congr Hrep.
Qed.

Lemma members_dry server tu gid es : forall sd c nt sr cr ntr,
  reported sd = reported sr ->
  let d := fold_left (MembershipsImport.import_member server tu true gid) es (sd, c, nt) in
  let r := fold_left (MembershipsImport.import_member server tu false gid) es (sr, cr, ntr) in
  snd (fst d) = c /\ snd d = nt /\ assignments (fst (fst d)) = assignments sd
  /\ reported (fst (fst d)) = reported (fst (fst r)).
Proof.
  induction es as [|e es IH]; intros sd c nt sr cr ntr Hrep d r; subst d r.
  - simpl. auto.
  - cbn [fold_left].
    pose proof (member_step server tu gid sd c nt sr cr ntr e Hrep) as Hs. cbv zeta in Hs.
    destruct (MembershipsImport.import_member server tu true gid (sd, c, nt) e)
      as [[sd1 c1] n1].
    destruct (MembershipsImport.import_member server tu false gid (sr, cr, ntr) e)
      as [[sr1 cr1] nr1].
    simpl in Hs. destruct Hs as (-> & -> & Ha & Hr).
    destruct (IH sd1 c nt sr1 cr1 nr1 Hr) as (H1 & H2 & H3 & H4).
    repeat split; try assumption. congruence.
Qed.

Lemma group_step server tu tg sd c nt sr cr ntr gm :
  reported sd = reported sr ->
  let d := MembershipsImport.import_group server tu tg true (sd, c, nt) gm in
  let r := MembershipsImport.import_group server tu tg false (sr, cr, ntr) gm in
  snd (fst d) = c /\ snd d = nt /\ assignments (fst (fst d)) = assignments sd
  /\ reported (fst (fst d)) = reported (fst (fst r)).
Proof.
  intros Hrep d r. subst d r. unfold MembershipsImport.import_group.
  destruct gm as [g es]. destruct (tg !! g) as [gid|].
  - assert (Hrep' : reported (MembershipsImport.add_group_found sd)
                    = reported (MembershipsImport.add_group_found sr))
      by stats_congr Hrep.
    destruct (members_dry server tu gid es _ c nt _ cr ntr Hrep') as (H1 & H2 & H3 & H4).
    repeat split; assumption.
  - simpl. repeat split; stats_congr Hrep.
Qed.

Lemma groups_dry server tu tg ms : forall sd c nt sr cr ntr,
  reported sd = reported sr ->
  let d := fold_left (MembershipsImport.import_group server tu tg true) ms (sd, c, nt) in
  let r := fold_left (MembershipsImport.import_group server tu tg false) ms (sr, cr, ntr) in
  snd (fst d) = c /\ snd d = nt /\ assignments (fst (fst d)) = assignments sd
  /\ reported (fst (fst d)) = reported (fst (fst r)).
Proof.
  induction ms as [|gm ms IH]; intros sd c nt sr cr ntr Hrep d r; subst d r.
  - simpl. auto.
  - cbn [fold_left].
    pose proof (group_step server tu tg sd c nt sr cr ntr gm Hrep) as Hs. cbv zeta in Hs.
    destruct (MembershipsImport.import_group server tu tg true (sd, c, nt) gm)
      as [[sd1 c1] n1].
    destruct (MembershipsImport.import_group server tu tg false (sr, cr, ntr) gm)
      as [[sr1 cr1] nr1].
    simpl in Hs. destruct Hs as (-> & -> & Ha & Hr).
    destruct (IH sd1 c nt sr1 cr1 nr1 Hr) as (H1 & H2 & H3 & H4).
    repeat split; try assumption. congruence.
Qed.

End DryRunFacts.

Definition same_reported_counts (d r : MembershipsImport.stats) : Prop :=
  DryRunFacts.reported d = DryRunFacts.reported r.

(** An index in which bundle [B] and group [G] of the exported grant resolve. *)
Definition demo_index : GrantsImport.target_index :=
  GrantsImport.mkIndex (<["B" := "b1"]> ∅) (<["G" := "g1"]> ∅) ∅ ∅.

Definition demo_grant : GrantsImport.exported_grant :=
  GrantsImport.mkGrant "B" None "G" "GROUP".

Definition net0 : Http.net := Http.mkNet 0 [].

(** A server for which every grant already exists in the target org. *)
Definition server_409 : list Http.event -> Http.request -> Http.response :=
  fun _ _ => Http.mkResp 409 None None Json.JNull.

(** A server that accepts every call. *)
Definition server_201 : list Http.event -> Http.request -> Http.response :=
  fun _ _ => Http.mkResp 201 None None Json.JNull.

(** A server that rejects every call with an internal error. *)
Definition server_500 : list Http.event -> Http.request -> Http.response :=
  fun _ _ => Http.mkResp 500 None None Json.JNull.

(** C4 (counterexample): with every principal and bundle resolving, the
    grants importer reports [created = 1] in a dry run, but [created = 0,
    exists = 1] in a real run whose POST answers 409: the summary counts of
    the two runs differ. *)
Lemma dry_run_counts_differ_on_409 :
  fst (GrantsImport.import_loop server_409 demo_index [] true [demo_grant] net0)
    = GrantsImport.mkResults 1 0 0 0 0
  /\ fst (GrantsImport.import_loop server_409 demo_index [] false [demo_grant] net0)
    = GrantsImport.mkResults 0 1 0 0 0.
Proof. split; vm_compute; reflexivity. Qed.

(** C4 (amended): a dry run sends no request at all. For grants it leaves
    the network untouched, and its result counts equal those of a real run
    whenever every POST is answered with a success status (below 400). For
    memberships it leaves the network and the client untouched, and its
    groups_found, groups_missing, users_matched and users_missing equal
    those of a real run; assignments_made and assignments_failed stay 0.
    For the state restore it appends only the [head_object] read to the
    store's calls and leaves the version history unchanged. *)
Theorem dry_run_no_mutating_calls :
  (forall server idx excl grants nt,
     snd (GrantsImport.import_loop server idx excl true grants nt) = nt
     /\ ((forall evs rq, Http.method rq = Http.POST -> Http.ok (server evs rq) = true) ->
         fst (GrantsImport.import_loop server idx excl false grants nt)
         = fst (GrantsImport.import_loop server idx excl true grants nt)))
  /\ (forall server tu tg ms c nt,
       let d := MembershipsImport.import_memberships server tu tg true ms c nt in
       let r := MembershipsImport.import_memberships server tu tg false ms c nt in
       snd d = nt /\ snd (fst d) = c
       /\ MembershipsImport.assignments_made (fst (fst d)) = 0%nat
       /\ MembershipsImport.assignments_failed (fst (fst d)) = 0%nat
       /\ same_reported_counts (fst (fst d)) (fst (fst r)))
  /\ (forall v o,
       fst (Restore.restore_s3_state_version v true o)
       = S3.mkS3 (S3.history o) (S3.calls o ++ [S3.HeadObject])).
Proof.
  split; [|split].
  - intros server idx excl grants nt. unfold GrantsImport.import_loop. split.
    + apply DryRunFacts.grants_dry_net.
    + intros Hok. apply DryRunFacts.grants_same_counts; exact Hok.
  - intros server tu tg ms c nt d r. subst d r.
    unfold MembershipsImport.import_memberships.
    destruct (DryRunFacts.groups_dry server tu tg ms MembershipsImport.stats0 c nt
                MembershipsImport.stats0 c nt eq_refl) as (H1 & H2 & H3 & H4).
    unfold DryRunFacts.assignments in H3. simpl in H3. injection H3 as H5 H6.
    repeat split; assumption.
  - intros v o. apply RestoreFacts.restore_dry_run_no_write.
Qed.

(** C4: the theorem at the grant of [demo_index] under [server_201],
    and the dry-run equalities it yields. *)
Lemma dry_run_no_mutating_calls_witness :
  (forall evs rq, Http.method rq = Http.POST ->
     Http.ok (server_201 evs rq) = true)
  /\ fst (GrantsImport.import_loop server_201
            demo_index [] false [demo_grant] net0)
     = fst (GrantsImport.import_loop server_201
            demo_index [] true [demo_grant] net0).
Proof.
  assert (Hok : forall evs rq, Http.method rq = Http.POST ->
     Http.ok (server_201 evs rq) = true)
    by (intros; reflexivity).
  split; [exact Hok|].
  destruct dry_run_no_mutating_calls as [G _].
  apply (proj2 (G _ demo_index [] [demo_grant] net0)). exact Hok.
Defined.

(** C6 (code bug): the group-memberships importer exits with status 0 even
    when an assignment fails. Group [Eng] resolves, its member resolves,
    and the PUT is answered with 500: [assignments_failed = 1] and
    [main] returns 0. The grants importer, on a result with one error,
    returns 1; with skipped (unresolved) grants and no error it returns 0. *)
Lemma memberships_failed_assignment_exits_zero :
  let '(code, s, _) :=
    MembershipsImport.main_import server_500
      (<["alice@x.com" := "u1"]> ∅) (<["Eng" := "g1"]> ∅) false
      [("Eng", ["alice@x.com"])] net0 in
  code = 0 /\ MembershipsImport.assignments_failed s = 1%nat
  /\ GrantsImport.exit_code (GrantsImport.mkResults 0 0 0 1 0) = 1
  /\ GrantsImport.exit_code (GrantsImport.mkResults 0 0 3 0 0) = 0.
Proof. vm_compute. repeat split. Qed.

(* ------------------------------------------------------------------ *)
(** ** The backup manifest (create_backup_manifest.create_manifest)    *)
(* ------------------------------------------------------------------ *)

Module ManifestFacts.
Import Manifest.

Lemma read_blocks_concat fuel : forall bs,
  (List.length bs <= fuel)%nat -> concat (read_blocks fuel bs) = bs.
Proof.
  induction fuel as [|fuel IH]; intros bs Hl.
  - destruct bs; [reflexivity|simpl in Hl; lia].
  - destruct bs as [|b bs']; [reflexivity|].
    cbn [read_blocks concat]. rewrite IH.
    + apply firstn_skipn.
    + rewrite length_skipn. simpl in *. lia.
Qed.

Lemma fold_sha_update bl : forall h,
  fold_left sha_update bl h = mkSha (hashed_data h ++ concat bl).
Proof.
  induction bl as [|b bl IH]; intros [h]; simpl.
  - rewrite app_nil_r. reflexivity.
  - rewrite IH. simpl. rewrite app_assoc. reflexivity.
Qed.

Lemma calculate_file_hash_whole sha content :
  calculate_file_hash sha content = sha (list_ascii_of_string content).
Proof.
  unfold calculate_file_hash. rewrite fold_sha_update. simpl.
  rewrite read_blocks_concat by lia. reflexivity.
Qed.

(** A descriptor whose [sha256] is the digest of the bytes of its file. *)
Definition hashed (sha : list ascii -> string) (d : dir) (fi : file_info) : Prop :=
  exists content mtime, d !! file fi = Some (Regular content mtime)
                        /\ Manifest.sha256 fi = sha (list_ascii_of_string content).

Lemma get_file_info_spec sha jl tm d f k :
  match get_file_info sha jl tm d f k with
  | None => True
  | Some None => path_exists d f = false
  | Some (Some fi) => file fi = f /\ hashed sha d fi
  end.
Proof.
  unfold get_file_info, path_exists, hashed.
  destruct (d !! f) as [[content mtime|]|] eqn:E; [|exact I|reflexivity].
  destruct (if endswith f ".csv" then _ else _) as [c|]; [|exact I].
  simpl. split; [reflexivity|].
  exists content, mtime. split; [exact E|]. apply calculate_file_hash_whole.
Qed.

Lemma process_files_files sha jl tm d src ren entries : forall a a',
  process_files sha jl tm d src ren entries a = Some a' ->
  List.map file (afiles a')
    = List.map file (afiles a) ++ List.filter (path_exists d) (List.map fst entries)
  /\ (Forall (hashed sha d) (afiles a) -> Forall (hashed sha d) (afiles a')).
Proof.
  induction entries as [|[f k] rest IH]; intros a a' H; simpl in H.
  - injection H as <-. simpl. rewrite app_nil_r. auto.
  - unfold process_file in H.
    pose proof (get_file_info_spec sha jl tm d f k) as Hs.
    destruct (get_file_info sha jl tm d f k) as [[fi|]|]; [| |discriminate].
    + destruct Hs as [Hf Hh]. destruct (IH _ _ H) as [E1 E2]. simpl in E1.
      assert (Hp : path_exists d f = true).
      { destruct Hh as (c & m & Hl & _). unfold path_exists. rewrite <- Hf, Hl. reflexivity. }
      split.
      * rewrite E1. cbn [List.map fst List.filter]. rewrite Hp.
        rewrite List.map_app. simpl. rewrite Hf, <- app_assoc. reflexivity.
      * intros Ha. apply E2. simpl. apply Forall_app. split; [exact Ha|].
        constructor; [exact Hh|constructor].
    + destruct (IH _ _ H) as [E1 E2]. split; [|exact E2].
      rewrite E1. cbn [List.map fst List.filter]. rewrite Hs. reflexivity.
Qed.

(** The consistency of the accumulator with the names under which its
    descriptors were entered in [resources]. *)
Definition consistent (a : acc) (names : list string) : Prop :=
  atotal_files a = List.length (afiles a)
  /\ atotal_resources a = list_sum (List.map count_or0 (afiles a))
  /\ Forall2 (fun fi n => exists src,
        aresources a !! n = Some (mkResource (count_or0 fi) (file fi) src))
       (afiles a) names.

Lemma list_sum_app l1 l2 : list_sum (l1 ++ l2) = (list_sum l1 + list_sum l2)%nat.
Proof. induction l1 as [|x l1 IH]; simpl; lia. Qed.

Lemma forall2_insert_other (l : list file_info) names k v (m : gmap string resource) :
  Forall (fun n => n <> k) names ->
  Forall2 (fun fi n => exists src, m !! n = Some (mkResource (count_or0 fi) (file fi) src))
    l names ->
  Forall2 (fun fi n => exists src, <[k := v]> m !! n = Some (mkResource (count_or0 fi) (file fi) src))
    l names.
Proof.
  intros Hne H. induction H as [|fi n l names Hn _ IH]; constructor.
  - inversion Hne; subst. destruct Hn as [src Hs]. exists src.
    rewrite lookup_insert_ne by congruence. exact Hs.
  - inversion Hne; subst. apply IH. assumption.
Qed.

Lemma process_files_consistent sha jl tm d src ren entries : forall a a' names done,
  consistent a names -> incl names done ->
  NoDup (done ++ List.map (fun fk => ren (fst fk)) entries) ->
  process_files sha jl tm d src ren entries a = Some a' ->
  exists names', consistent a' names'
                 /\ incl names' (done ++ List.map (fun fk => ren (fst fk)) entries).
Proof.
  induction entries as [|[f k] rest IH]; intros a a' names done Hc Hi Hnd H; simpl in H.
  - injection H as <-. exists names. rewrite app_nil_r. auto.
  - cbn [List.map fst] in Hnd.
    assert (Hnd' : NoDup ((done ++ [ren f]) ++ List.map (fun fk => ren (fst fk)) rest))
      by (rewrite <- app_assoc; exact Hnd).
    assert (Hnew : ~ In (ren f) done).
    { intros Hin. apply NoDup_app in Hnd as (_ & Hd & _).
      apply (Hd (ren f)); [apply list_elem_of_In; exact Hin|left]. }
    assert (Hsplit : forall l, incl l ((done ++ [ren f]) ++ List.map (fun fk => ren (fst fk)) rest)
                     -> incl l (done ++ ren f :: List.map (fun fk => ren (fst fk)) rest))
      by (intros l; rewrite <- app_assoc; exact (fun x => x)).
    unfold process_file in H.
    pose proof (get_file_info_spec sha jl tm d f k) as Hs.
    destruct (get_file_info sha jl tm d f k) as [[fi|]|]; [| |discriminate].
    + destruct Hs as [Hf _].
      destruct Hc as (Hc1 & Hc2 & Hc3).
      assert (Hc' : consistent
        (mkAcc (afiles a ++ [fi])
           (<[ren f := mkResource (count_or0 fi) f src]> (aresources a))
           (S (atotal_files a)) (atotal_resources a + count_or0 fi))
        (names ++ [ren f])).
      { unfold consistent. simpl. split; [|split].
        - rewrite length_app. simpl. lia.
        - rewrite List.map_app, list_sum_app. simpl. lia.
        - apply Forall2_app.
          + apply forall2_insert_other; [|exact Hc3].
            apply List.Forall_forall. intros n Hn ->. apply Hnew, Hi, Hn.
          + constructor; [|constructor]. exists src.
            rewrite lookup_insert. case_decide; [|congruence]. rewrite Hf. reflexivity. }
      destruct (IH _ a' (names ++ [ren f]) (done ++ [ren f]) Hc') as (names' & H1 & H2).
      * apply incl_app_app; [exact Hi|apply incl_refl].
      * exact Hnd'.
      * exact H.
      * exists names'. split; [exact H1|]. apply Hsplit, H2.
    + destruct (IH a a' names (done ++ [ren f]) Hc) as (names' & H1 & H2).
      * apply incl_appl, Hi.
      * exact Hnd'.
      * exact H.
      * exists names'. split; [exact H1|]. apply Hsplit, H2.
Qed.

Lemma resource_names_nodup :
  NoDup (List.map (fun fk => rename_backup (fst fk)) backup_files
         ++ List.map (fun fk => rename_oig (fst fk)) oig_files).
Proof. apply (bool_decide_unpack _). vm_compute. reflexivity. Qed.

End ManifestFacts.

Lemma forall2_exists_r {A B} (P : A -> B -> Prop) l names :
  Forall2 P l names -> Forall (fun x => exists y, P x y) l.
Proof. intros H. induction H; constructor; eauto. Qed.

(** A backup directory with [users.csv] (one header, one data row) and
    [groups.json], and none of the other expected files. *)
Definition demo_dir : Manifest.dir :=
  <["users.csv" := Manifest.Regular ("email,first_name" ++ nl ++ "a@x.com,A" ++ nl)%string 0]>
  (<["groups.json" := Manifest.Regular "{}" 0]> ∅).

(** Stand-ins for the digest, the JSON parser and the date formatter. *)
Definition demo_sha (bs : list ascii) : string := string_of_list_ascii bs.
Definition demo_json (_ : string) : option Json.json :=
  Some (Json.JObj [("groups", Json.JArr [Json.JNull; Json.JNull])]).
Definition demo_time (_ : Z) : string := "1970-01-01T00:00:00Z".

(** C8: a manifest lists exactly the expected files present in the
    directory, in the order of the expected-file list, and the [sha256] of
    each descriptor is the SHA-256 of the bytes of that file; an empty
    directory gives a manifest with no files (absent files raise nothing). *)
Theorem create_manifest_files_exact :
  (forall sha jl tm d sb sk sv m,
     Manifest.create_manifest sha jl tm d sb sk sv = Some m ->
     List.map Manifest.file (Manifest.files m)
       = List.filter (Manifest.path_exists d) Manifest.expected_files
     /\ Forall (fun fi => exists content mtime,
                  d !! Manifest.file fi = Some (Manifest.Regular content mtime)
                  /\ Manifest.sha256 fi = sha (list_ascii_of_string content))
          (Manifest.files m))
  /\ (forall sha jl tm sb sk sv, exists m,
        Manifest.create_manifest sha jl tm ∅ sb sk sv = Some m /\ Manifest.files m = []).
Proof.
  split.
  - intros sha jl tm d sb sk sv m H. unfold Manifest.create_manifest in H.
    destruct (Manifest.process_files sha jl tm d "export" Manifest.rename_backup
                Manifest.backup_files Manifest.acc0) as [a1|] eqn:E1; [|discriminate].
    destruct (Manifest.process_files sha jl tm d "terraform" Manifest.rename_oig
                Manifest.oig_files a1) as [a2|] eqn:E2; [|discriminate].
    injection H as <-. cbn [Manifest.files].
    destruct (ManifestFacts.process_files_files _ _ _ _ _ _ _ _ _ E1) as [F1 G1].
    destruct (ManifestFacts.process_files_files _ _ _ _ _ _ _ _ _ E2) as [F2 G2].
    split.
    + rewrite F2, F1. unfold Manifest.expected_files. rewrite List.filter_app. reflexivity.
    + apply G2, G1. constructor.
  - intros sha jl tm sb sk sv. eexists. split; [vm_compute; reflexivity | reflexivity].
Qed.

(** Witness for C8: on [demo_dir] the manifest lists [users.csv] and
    [groups.json], the two expected files present. *)
Lemma create_manifest_files_exact_witness :
  exists m, Manifest.create_manifest demo_sha demo_json demo_time demo_dir None None None = Some m
            /\ List.map Manifest.file (Manifest.files m) = ["users.csv"; "groups.json"]%string.
Proof.
  destruct (Manifest.create_manifest demo_sha demo_json demo_time demo_dir None None None)
    as [m|] eqn:E; [|vm_compute in E; discriminate].
  exists m. split; [reflexivity|].
  rewrite (proj1 (proj1 create_manifest_files_exact _ _ _ _ _ _ _ _ E)).
  vm_compute. reflexivity.
Defined.

(** C10: in every manifest, [total_files] is the number of descriptors,
    [total_resources] is the sum of their counts (0 for a descriptor with
    none), and every descriptor has an entry in [resources] with its count
    and its file name. *)
Theorem create_manifest_summary_consistent sha jl tm d sb sk sv m :
  Manifest.create_manifest sha jl tm d sb sk sv = Some m ->
  Manifest.total_files m = List.length (Manifest.files m)
  /\ Manifest.total_resources m = list_sum (List.map Manifest.count_or0 (Manifest.files m))
  /\ Forall (fun fi => exists name r,
               Manifest.resources m !! name = Some r
               /\ Manifest.rcount r = Manifest.count_or0 fi
               /\ Manifest.rfile r = Manifest.file fi)
       (Manifest.files m).
Proof.
  intros H. unfold Manifest.create_manifest in H.
  destruct (Manifest.process_files sha jl tm d "export" Manifest.rename_backup
              Manifest.backup_files Manifest.acc0) as [a1|] eqn:E1; [|discriminate].
  destruct (Manifest.process_files sha jl tm d "terraform" Manifest.rename_oig
              Manifest.oig_files a1) as [a2|] eqn:E2; [|discriminate].
  injection H as <-. cbn [Manifest.files Manifest.total_files Manifest.total_resources
                          Manifest.resources].
  pose proof ManifestFacts.resource_names_nodup as Hnd.
  destruct (ManifestFacts.process_files_consistent _ _ _ _ _ _ _ Manifest.acc0 a1 [] []
              ltac:(repeat split; constructor) (incl_refl _)
              ltac:(apply NoDup_app in Hnd; exact (proj1 Hnd)) E1) as (n1 & C1 & I1).
  destruct (ManifestFacts.process_files_consistent _ _ _ _ _ _ _ a1 a2 n1 _ C1 I1 Hnd E2)
    as (n2 & (T1 & T2 & T3) & _).
  split; [exact T1|]. split; [exact T2|].
  apply forall2_exists_r in T3.
  refine (List.Forall_impl _ _ T3). intros fi [n [src Hs]].
  exists n, (Manifest.mkResource (Manifest.count_or0 fi) (Manifest.file fi) src).
  auto.
Qed.

(** Witness for C10: the manifest of [demo_dir] has two files and three
    resources (one user row, two groups). *)
Lemma create_manifest_summary_consistent_witness :
  exists m, Manifest.create_manifest demo_sha demo_json demo_time demo_dir None None None = Some m
            /\ Manifest.total_files m = 2%nat /\ Manifest.total_resources m = 3%nat.
Proof.
  destruct (Manifest.create_manifest demo_sha demo_json demo_time demo_dir None None None)
    as [m|] eqn:E; [|vm_compute in E; discriminate].
  exists m. split; [reflexivity|].
  destruct (create_manifest_summary_consistent _ _ _ _ _ _ _ _ E) as (T1 & T2 & _).
  rewrite T1, T2. revert E. vm_compute. intros E. injection E as <-. split; reflexivity.
Defined.

Module ExportFacts.
Import Py CsvWriter ExportUsers.

Lemma las_app (s1 s2 : string) :
  list_ascii_of_string (s1 ++ s2) = list_ascii_of_string s1 ++ list_ascii_of_string s2.
Proof. induction s1 as [|c s1 IH]; simpl; [reflexivity|rewrite IH; reflexivity]. Qed.

(** A field written as it is: no delimiter, quote or line break in it. *)
Definition safe (s : string) : Prop :=
  Forall (fun c => CsvFacts.plain c /\ c <> COMMA) (list_ascii_of_string s).

Lemma safe_of_needs_quote s : needs_quote s = false -> safe s.
Proof.
  unfold needs_quote, safe. induction (list_ascii_of_string s) as [|c r IH]; simpl; intros H.
  - constructor.
  - apply orb_false_iff in H as [Hc Hr]. constructor; [|apply IH, Hr].
    unfold needs_quote_char in Hc.
    repeat rewrite orb_false_iff in Hc. destruct Hc as [[[H1 H2] H3] H4].
    repeat split; intros ->; rewrite Ascii.eqb_refl in *; discriminate.
Qed.

Lemma needs_quote_app s1 s2 :
  needs_quote (s1 ++ s2) = (needs_quote s1 || needs_quote s2)%bool.
Proof. unfold needs_quote. rewrite las_app, existsb_app. reflexivity. Qed.

Lemma digit_no_quote d : (d < 10)%nat -> needs_quote_char (ascii_of_nat (48 + d)) = false.
Proof. intros H. do 10 (destruct d as [|d]; [reflexivity|]). lia. Qed.

Lemma str_nat_aux_no_quote fuel : forall n acc,
  needs_quote acc = false -> needs_quote (str_nat_aux fuel n acc) = false.
Proof.
  induction fuel as [|fuel IH]; intros n acc H; cbn [str_nat_aux]; [exact H|].
  assert (Hd : needs_quote (String (ascii_of_nat (48 + n mod 10)) acc) = false).
  { unfold needs_quote. cbn [list_ascii_of_string existsb].
    rewrite digit_no_quote by (apply Nat.mod_upper_bound; lia).
    exact H. }
  destruct (Nat.ltb n 10); [exact Hd|apply IH, Hd].
Qed.

Lemma str_nat_no_quote n : needs_quote (str_nat n) = false.
Proof. apply str_nat_aux_no_quote. reflexivity. Qed.

Lemma translate_app_no_cr b r :
  Forall (fun c => c <> CR) b ->
  TextIO.translate_newlines (b ++ r) = b ++ TextIO.translate_newlines r.
Proof.
  induction 1 as [|c b Hc _ IH]; [reflexivity|].
  simpl. rewrite (CsvFacts.eqb_false _ _ Hc), IH. reflexivity.
Qed.

Lemma split_lines_app_no_lf b r : forall acc,
  Forall (fun c => c <> LF) b ->
  TextIO.split_lines_acc acc (b ++ LF :: r)
  = (rev acc ++ b ++ [LF]) :: TextIO.split_lines_acc [] r.
Proof.
  induction b as [|c b IH]; intros acc Hb.
  - simpl. rewrite ?Ascii.eqb_refl. reflexivity.
  - inversion Hb as [|? ? Hc Hb']; subst. simpl.
    rewrite (CsvFacts.eqb_false _ _ Hc), IH by exact Hb'. simpl.
    rewrite <- app_assoc. reflexivity.
Qed.

Lemma safe_plain s : safe s -> Forall CsvFacts.plain (list_ascii_of_string s).
Proof. intros H. refine (List.Forall_impl _ _ H). intros c [Hp _]. exact Hp. Qed.

Lemma quote_field_safe f : needs_quote f = false -> quote_field f = f.
Proof. unfold quote_field. intros ->. reflexivity. Qed.

Lemma las_concat_empty (g : user_row -> string) rows :
  list_ascii_of_string (String.concat "" (List.map g rows))
  = concat (List.map (fun r => list_ascii_of_string (g r)) rows).
Proof.
  induction rows as [|r rows IH]; [reflexivity|].
  destruct rows as [|r' rows'].
  - simpl. rewrite app_nil_r. reflexivity.
  - change (String.concat "" (List.map g (r :: r' :: rows')))
      with (g r ++ "" ++ String.concat "" (List.map g (r' :: rows')))%string.
    rewrite !las_app, IH. reflexivity.
Qed.

Lemma counted_users rows :
  List.length (List.filter csv_row_counted (List.map dict_values rows))
  = List.length (List.filter
      (fun r => negb (startswith (email r) "#") && negb (String.eqb (email r) "email"))%bool rows).
Proof.
  induction rows as [|r rows IH]; [reflexivity|]. cbn [List.map List.filter].
  change (csv_row_counted (dict_values r))
    with (negb (startswith (email r) "#") && negb (String.eqb (email r) "email"))%bool.
  destruct (_ && _)%bool; cbn [List.length]; rewrite IH; reflexivity.
Qed.

End ExportFacts.

Ltac nl_free_by_computation :=
  vm_compute;
  repeat (first [apply List.Forall_nil | apply List.Forall_cons | split | discriminate]).

Module CsvRoundTrip.
Import Py Csv CsvWriter ExportUsers.

(** A field with no line break in it. *)
Definition nl_free (s : string) : Prop :=
  Forall (fun c => c <> LF /\ c <> CR) (list_ascii_of_string s).

(** A field of at most [field_limit] bytes, hence of at most
    [field_limit] characters. *)
Definition fits (s : string) : Prop := (Z.of_nat (String.length s) <= field_limit)%Z.

Lemma length_las s : List.length (list_ascii_of_string s) = String.length s.
Proof. induction s as [|c s IH]; cbn; [reflexivity|rewrite IH; reflexivity]. Qed.

(** The characters of a line, fed one by one, without the end-of-line
    mark. *)
Fixpoint steps (r : reader) (cs : list ascii) : option reader :=
  match cs with
  | [] => Some r
  | c :: cs' =>
      match parse_process_char r (Ch c) with
      | Some r' => steps r' cs'
      | None => None
      end
  end.

Lemma feed_app r a b :
  feed r (a ++ b) = match steps r a with Some r' => feed r' b | None => None end.
Proof.
  revert r. induction a as [|c a IH]; intros r; [reflexivity|].
  cbn [app feed steps]. destruct (parse_process_char r (Ch c)); [apply IH|reflexivity].
Qed.

Lemma steps_app r a b :
  steps r (a ++ b) = match steps r a with Some r' => steps r' b | None => None end.
Proof.
  revert r. induction a as [|c a IH]; intros r; [reflexivity|].
  cbn [app steps]. destruct (parse_process_char r (Ch c)); [apply IH|reflexivity].
Qed.

(** Where a field starts: the start of a record or a field, nothing read. *)
Definition at_start (r : reader) : Prop :=
  (rstate r = START_RECORD \/ rstate r = START_FIELD) /\ rfield r = [].

(** Where a field ends: its characters read, in a state where a comma or
    the end of the line closes it. *)
Definition at_end (r0 : reader) (f : string) (r : reader) : Prop :=
  rfields r = rfields r0 /\ rfield r = rev (list_ascii_of_string f)
  /\ (rstate r = IN_FIELD \/ rstate r = QUOTE_IN_QUOTED_FIELD \/ (r = r0 /\ f = EmptyString)).

Lemma steps_unquoted cs : forall r,
  Forall (fun c => CsvFacts.plain c /\ c <> COMMA) cs -> CsvFacts.in_unquoted_field r ->
  (Z.of_nat (List.length (rfield r) + List.length cs) <= field_limit)%Z ->
  exists st, steps r cs = Some (mkReader st (rfields r) (rev cs ++ rfield r))
    /\ (st = IN_FIELD \/ (cs = [] /\ st = rstate r)).
Proof.
  induction cs as [|c cs IH]; intros r Hp Hr Hl.
  - exists (rstate r). destruct r; split; [reflexivity|right; split; reflexivity].
  - inversion Hp as [|? ? [Hc Hcomma] Hcs]; subst. cbn [steps]. cbn [List.length] in Hl.
    rewrite (CsvFacts.plain_step r c Hc Hr) by lia. rewrite (CsvFacts.eqb_false _ _ Hcomma).
    destruct (IH (mkReader IN_FIELD (rfields r) (c :: rfield r)) Hcs (or_intror eq_refl))
      as (st & E & Hst); [cbn [rfield List.length]; lia|].
    exists st. rewrite E. cbn [rfields rfield rev]. rewrite <- app_assoc. split; [reflexivity|].
    left. destruct Hst as [->|[_ ->]]; reflexivity.
Qed.

Lemma start_record_step r c :
  CsvFacts.plain c -> rstate r = START_RECORD ->
  parse_process_char r (Ch c) = parse_process_char (mkReader START_FIELD (rfields r) (rfield r)) (Ch c).
Proof.
  intros (H1 & H2 & H3) Hs. unfold parse_process_char. rewrite Hs. cbn [rstate].
  simpl. rewrite (CsvFacts.eqb_false _ _ H1), (CsvFacts.eqb_false _ _ H2). reflexivity.
Qed.

Lemma steps_doubled l : forall fs acc,
  (Z.of_nat (List.length acc + List.length l) <= field_limit)%Z ->
  steps (mkReader IN_QUOTED_FIELD fs acc) (double_quotes l)
  = Some (mkReader IN_QUOTED_FIELD fs (rev l ++ acc)).
Proof.
  induction l as [|c l IH]; intros fs acc Hl; [reflexivity|]. cbn [List.length] in Hl.
  cbn [double_quotes rev]. rewrite <- app_assoc. cbn [app].
  destruct (Ascii.eqb c DQUOTE) eqn:E.
  - apply Ascii.eqb_eq in E. subst c. cbn [steps].
    change (parse_process_char (mkReader IN_QUOTED_FIELD fs acc) (Ch DQUOTE))
      with (Some (mkReader QUOTE_IN_QUOTED_FIELD fs acc)).
    cbn iota. cbn [steps].
    change (parse_process_char (mkReader QUOTE_IN_QUOTED_FIELD fs acc) (Ch DQUOTE))
      with (parse_add_char (mkReader QUOTE_IN_QUOTED_FIELD fs acc) (Ch DQUOTE) IN_QUOTED_FIELD).
    rewrite CsvFacts.add_char_ok by (cbn [rfield]; lia). cbn [rfields rfield].
    apply IH. cbn [List.length]. lia.
  - cbn [steps].
    assert (P : parse_process_char (mkReader IN_QUOTED_FIELD fs acc) (Ch c)
                = parse_add_char (mkReader IN_QUOTED_FIELD fs acc) (Ch c) IN_QUOTED_FIELD)
      by (unfold parse_process_char; cbn [rstate is_eol is_char]; rewrite E; reflexivity).
    rewrite P, CsvFacts.add_char_ok by (cbn [rfield]; lia). cbn [rfields rfield].
    apply IH. cbn [List.length]. lia.
Qed.

Lemma las_nil_empty s : list_ascii_of_string s = [] -> s = EmptyString.
Proof. destruct s; [reflexivity|discriminate]. Qed.

Lemma steps_field f r0 :
  at_start r0 -> fits f ->
  exists r, steps r0 (list_ascii_of_string (quote_field f)) = Some r /\ at_end r0 f r.
Proof.
  intros [Hst Hf0] Hfit. unfold fits in Hfit. rewrite <- length_las in Hfit.
  unfold quote_field. destruct (needs_quote f) eqn:Hq.
  - rewrite list_ascii_of_string_of_list_ascii. cbn [steps].
    assert (E1 : parse_process_char r0 (Ch DQUOTE)
                 = Some (mkReader IN_QUOTED_FIELD (rfields r0) (rfield r0))).
    { unfold parse_process_char. destruct Hst as [-> | ->]; reflexivity. }
    rewrite E1, steps_app, Hf0, steps_doubled by (cbn [List.length]; lia). cbn [steps]. simpl.
    eexists. split; [reflexivity|]. unfold at_end. cbn.
    rewrite app_nil_r. split; [reflexivity|]. split; [reflexivity|]. right; left; reflexivity.
  - pose proof (ExportFacts.safe_of_needs_quote f Hq) as Hsafe. unfold ExportFacts.safe in Hsafe.
    destruct (list_ascii_of_string f) as [|c cs] eqn:Ef.
    + apply las_nil_empty in Ef. subst f. exists r0. split; [reflexivity|].
      unfold at_end. split; [reflexivity|]. split; [exact Hf0|]. right; right; split; reflexivity.
    + inversion Hsafe as [|? ? [Hc _] _]; subst.
      set (r1 := mkReader START_FIELD (rfields r0) (rfield r0)).
      assert (E : steps r0 (c :: cs) = steps r1 (c :: cs)).
      { cbn [steps]. destruct Hst as [Hs | Hs].
        - rewrite (start_record_step r0 c Hc Hs). reflexivity.
        - destruct r0; cbn in Hs; subst; reflexivity. }
      rewrite E. destruct (steps_unquoted (c :: cs) r1 Hsafe (or_introl eq_refl))
        as (st & E2 & Hst2); [subst r1; cbn [rfield]; rewrite Hf0; cbn [List.length] in *; lia|].
      eexists. split; [exact E2|]. unfold at_end. cbn. rewrite Hf0, app_nil_r, Ef.
      split; [reflexivity|]. split; [reflexivity|].
      destruct Hst2 as [-> | [H _]]; [left; reflexivity|discriminate].
Qed.

Lemma save_end r0 f r :
  at_end r0 f r ->
  mkReader START_FIELD (rfields r ++ [string_of_list_ascii (rev (rfield r))]) []
  = mkReader START_FIELD (rfields r0 ++ [f]) [].
Proof.
  intros (H1 & H2 & _). rewrite H1, H2, rev_involutive, string_of_list_ascii_of_string.
  reflexivity.
Qed.

Lemma comma_after r0 f r :
  at_start r0 -> at_end r0 f r ->
  parse_process_char r (Ch COMMA) = Some (mkReader START_FIELD (rfields r0 ++ [f]) []).
Proof.
  intros [Hs0 _] He. rewrite <- (save_end r0 f r He).
  destruct He as (_ & _ & [Hs | [Hs | [-> ->]]]).
  - unfold parse_process_char. rewrite Hs. reflexivity.
  - unfold parse_process_char. rewrite Hs. reflexivity.
  - unfold parse_process_char. destruct Hs0 as [-> | ->]; reflexivity.
Qed.

Lemma eol_after r0 f r :
  at_start r0 -> at_end r0 f r -> (rstate r0 = START_FIELD \/ f <> EmptyString) ->
  feed r [LF] = Some (mkReader START_RECORD (rfields r0 ++ [f]) []).
Proof.
  intros [Hs0 _] He Hnot.
  assert (E : rfields r ++ [string_of_list_ascii (rev (rfield r))] = rfields r0 ++ [f]).
  { pose proof (save_end r0 f r He) as Hs. injection Hs as Hs. exact Hs. }
  destruct He as (_ & _ & [Hs | [Hs | [-> ->]]]).
  - cbn [feed]. unfold parse_process_char at 1. rewrite Hs.
    unfold parse_save_field. simpl. rewrite E. reflexivity.
  - cbn [feed]. unfold parse_process_char at 1. rewrite Hs.
    unfold parse_save_field. simpl. rewrite E. reflexivity.
  - destruct Hnot as [Hs | Hne]; [|contradiction].
    cbn [feed]. unfold parse_process_char at 1. rewrite Hs. unfold start_field.
    unfold parse_save_field. simpl. rewrite E. reflexivity.
Qed.

Lemma feed_row fs : forall r0,
  fs <> [] -> Forall fits fs -> at_start r0 -> (rstate r0 = START_FIELD \/ fs <> [EmptyString]) ->
  feed r0 (list_ascii_of_string (String.concat "," (List.map quote_field fs)) ++ [LF])
  = Some (mkReader START_RECORD (rfields r0 ++ fs) []).
Proof.
  induction fs as [|f fs IH]; intros r0 Hne Hfit Hst Hnot; [contradiction|].
  inversion Hfit as [|? ? Hf Hfs]; subst.
  destruct (steps_field f r0 Hst Hf) as (r & Es & He).
  destruct fs as [|f' fs'].
  - change (String.concat "," (List.map quote_field [f])) with (quote_field f).
    rewrite feed_app, Es. apply (eol_after r0 f r Hst He).
    destruct Hnot as [H | H]; [left; exact H|right; intros ->; apply H; reflexivity].
  - change (String.concat "," (List.map quote_field (f :: f' :: fs')))
      with (quote_field f ++ "," ++ String.concat "," (List.map quote_field (f' :: fs')))%string.
    rewrite !ExportFacts.las_app, <- app_assoc, feed_app, Es.
    change (list_ascii_of_string ",") with [COMMA]. cbn [app feed].
    rewrite (comma_after r0 f r Hst He).
    rewrite (IH (mkReader START_FIELD (rfields r0 ++ [f]) [])).
    + cbn [rfields]. rewrite <- app_assoc. reflexivity.
    + discriminate.
    + exact Hfs.
    + split; [right; reflexivity|reflexivity].
    + left; reflexivity.
Qed.

Definition nl_free_chars (l : list ascii) : Prop := Forall (fun c => c <> LF /\ c <> CR) l.

Lemma double_quotes_forall (P : ascii -> Prop) l :
  P DQUOTE -> Forall P l -> Forall P (double_quotes l).
Proof.
  intros Hq. induction 1 as [|c l Hc _ IH]; [constructor|]. cbn [double_quotes].
  destruct (Ascii.eqb c DQUOTE); repeat constructor; assumption.
Qed.

Lemma quote_field_nl_free f : nl_free f -> nl_free (quote_field f).
Proof.
  unfold nl_free, quote_field. intros H. destruct (needs_quote f); [|exact H].
  rewrite list_ascii_of_string_of_list_ascii.
  assert (Hq : DQUOTE <> LF /\ DQUOTE <> CR) by (split; discriminate).
  constructor; [exact Hq|]. apply Forall_app. split.
  - apply double_quotes_forall; assumption.
  - repeat constructor; apply Hq.
Qed.

Lemma concat_nl_free fs : Forall nl_free fs -> nl_free (String.concat "," fs).
Proof.
  induction 1 as [|f fs Hf Hfs IH]; [constructor|].
  destruct fs as [|f' fs']; [exact Hf|].
  change (String.concat "," (f :: f' :: fs')) with (f ++ "," ++ String.concat "," (f' :: fs'))%string.
  unfold nl_free. rewrite !ExportFacts.las_app. apply Forall_app. split; [exact Hf|].
  change (list_ascii_of_string ",") with [COMMA]. constructor; [split; discriminate|exact IH].
Qed.

(** A written line: a body with no line break, and its terminator. *)
Definition line_block (bt : list ascii * list ascii) : Prop :=
  nl_free_chars (fst bt) /\ (snd bt = [LF] \/ snd bt = [CR; LF]).

Lemma lines_of_line_blocks blocks :
  Forall line_block blocks ->
  TextIO.split_lines_acc []
    (TextIO.translate_newlines (concat (List.map (fun bt => fst bt ++ snd bt) blocks)))
  = List.map (fun bt => fst bt ++ [LF]) blocks.
Proof.
  induction 1 as [|[b t] blocks [Hp Ht] _ IH]; [reflexivity|].
  simpl in *. rewrite <- app_assoc, ExportFacts.translate_app_no_cr.
  2: { refine (List.Forall_impl _ _ Hp). intros c [_ ?]. assumption. }
  assert (Ht' : TextIO.translate_newlines (t ++ concat (List.map (fun bt => fst bt ++ snd bt) blocks))
                = LF :: TextIO.translate_newlines (concat (List.map (fun bt => fst bt ++ snd bt) blocks))).
  { destruct Ht as [-> | ->]; reflexivity. }
  rewrite Ht', ExportFacts.split_lines_app_no_lf.
  - rewrite IH. reflexivity.
  - refine (List.Forall_impl _ _ Hp). intros c [? _]. assumption.
Qed.

Lemma rows_of_lines blocks rows :
  Forall2 (fun (bt : list ascii * list ascii) row => feed parse_reset (fst bt ++ [LF]) = Some (mkReader START_RECORD row []))
    blocks rows ->
  forall fuel, (List.length blocks < fuel)%nat ->
  rows_fuel fuel (List.map (fun bt => fst bt ++ [LF]) blocks) = Some rows.
Proof.
  induction 1 as [|bt row blocks rows Hf _ IH]; intros fuel Hlen.
  - destruct fuel; [cbn in Hlen; lia|reflexivity].
  - destruct fuel as [|fuel]; [cbn in Hlen; lia|].
    cbn [List.map rows_fuel]. unfold reader_next. cbn [iter_lines]. rewrite Hf.
    cbn [rstate pstate_eqb rfields]. rewrite IH by (cbn in Hlen; lia). reflexivity.
Qed.

Lemma reader_of_line_blocks out blocks rows :
  list_ascii_of_string out = concat (List.map (fun bt => fst bt ++ snd bt) blocks) ->
  Forall line_block blocks ->
  Forall2 (fun (bt : list ascii * list ascii) row => feed parse_reset (fst bt ++ [LF]) = Some (mkReader START_RECORD row []))
    blocks rows ->
  csv_reader out = Some rows.
Proof.
  intros Hl Hb Hr. unfold csv_reader, TextIO.file_lines.
  rewrite Hl, lines_of_line_blocks by exact Hb.
  apply rows_of_lines; [exact Hr|]. rewrite List.length_map. lia.
Qed.

Lemma feed_reset_row fs :
  fs <> [] -> fs <> [EmptyString] -> Forall fits fs ->
  feed parse_reset (list_ascii_of_string (String.concat "," (List.map quote_field fs)) ++ [LF])
  = Some (mkReader START_RECORD fs []).
Proof.
  intros Hne Hnot Hfit. rewrite (feed_row fs parse_reset Hne Hfit); [reflexivity| |right; exact Hnot].
  split; [left|]; reflexivity.
Qed.

Lemma forall2_map {A B C} (P : B -> C -> Prop) (f : A -> B) (g : A -> C) l :
  Forall (fun x => P (f x) (g x)) l -> Forall2 P (List.map f l) (List.map g l).
Proof. induction 1; constructor; assumption. Qed.

Lemma comment_row p s :
  needs_quote p = false -> needs_quote s = false -> p <> EmptyString -> fits (p ++ s) ->
  line_block (list_ascii_of_string (p ++ s), [LF])
  /\ feed parse_reset (list_ascii_of_string (p ++ s) ++ [LF])
     = Some (mkReader START_RECORD [(p ++ s)%string] []).
Proof.
  intros Hp Hs Hne Hfit.
  assert (Hq : needs_quote (p ++ s) = false) by (rewrite ExportFacts.needs_quote_app, Hp, Hs; reflexivity).
  split.
  - split; [|left; reflexivity]. cbn [fst].
    refine (List.Forall_impl _ _ (ExportFacts.safe_plain _ (ExportFacts.safe_of_needs_quote _ Hq))).
    intros c (H1 & H2 & _). split; assumption.
  - pose proof (feed_reset_row [(p ++ s)%string] ltac:(discriminate)) as E.
    cbn [List.map String.concat] in E. rewrite ExportFacts.quote_field_safe in E by exact Hq.
    apply E; [|constructor; [exact Hfit|constructor]].
    intros [= H]. destruct p; [contradiction|discriminate].
Qed.
(** The text written by [export_users_to_csv], read back by
    [csv.reader]: the header row, the three comment rows, then each
    user's field values. *)
Lemma export_reader org date rows out :
  needs_quote org = false -> needs_quote date = false ->
  Forall fits [("# Exported from Okta org: " ++ org)%string; ("# Export date: " ++ date)%string;
               ("# Total users: " ++ str_nat (List.length rows))%string] ->
  Forall (fun r => Forall (fun f => nl_free f /\ fits f) (dict_values r)) rows ->
  export_csv_text org date rows = Some out ->
  csv_reader out
  = Some (fieldnames
          :: [("# Exported from Okta org: " ++ org)%string]
          :: [("# Export date: " ++ date)%string]
          :: [("# Total users: " ++ str_nat (List.length rows))%string]
          :: List.map dict_values rows).
Proof.
  intros Horg Hdate Hcfit Hrows Hout.
  inversion Hcfit as [|? ? Fit1 Hc2]; subst. inversion Hc2 as [|? ? Fit2 Hc3]; subst.
  inversion Hc3 as [|? ? Fit3 _]; subst.
  destruct rows as [|r0 rs]; [discriminate|].
  set (rows := r0 :: rs) in *.
  set (c1 := ("# Exported from Okta org: " ++ org)%string) in *.
  set (c2 := ("# Export date: " ++ date)%string) in *.
  set (c3 := ("# Total users: " ++ str_nat (List.length rows))%string) in *.
  set (qrow := fun fs => String.concat "," (List.map quote_field fs)).
  set (user_block := fun r => (list_ascii_of_string (qrow (dict_values r)), [CR; LF])).
  set (blocks := (list_ascii_of_string (qrow fieldnames), [CR; LF])
                 :: (list_ascii_of_string c1, [LF]) :: (list_ascii_of_string c2, [LF])
                 :: (list_ascii_of_string c3, [LF]) :: List.map user_block rows).
  assert (Hlas : list_ascii_of_string out = concat (List.map (fun bt => fst bt ++ snd bt) blocks)).
  { assert (Eo : export_csv_text org date rows
                 = Some (format_row fieldnames
                         ++ "# Exported from Okta org: " ++ org ++ String LF EmptyString
                         ++ "# Export date: " ++ date ++ String LF EmptyString
                         ++ "# Total users: " ++ str_nat (List.length rows)
                         ++ String LF EmptyString
                         ++ String.concat "" (List.map (fun r => format_row (dict_values r)) rows))%string)
      by reflexivity.
    rewrite Eo in Hout. apply (inj Some) in Hout. rewrite <- Hout.
    change (format_row fieldnames) with (qrow fieldnames ++ CRLF)%string.
    rewrite !ExportFacts.las_app, ExportFacts.las_concat_empty.
    subst blocks c1 c2 c3. cbn [concat List.map fst snd].
    rewrite !ExportFacts.las_app, !List.map_map, <- !app_assoc.
    repeat (apply (f_equal2 (@app ascii)); [reflexivity|]).
    f_equal. apply List.map_ext. intros r.
    change (format_row (dict_values r)) with (qrow (dict_values r) ++ CRLF)%string.
    rewrite ExportFacts.las_app. reflexivity. }
  destruct (comment_row "# Exported from Okta org: " org eq_refl Horg ltac:(discriminate) Fit1)
    as (B1 & F1).
  destruct (comment_row "# Export date: " date eq_refl Hdate ltac:(discriminate) Fit2)
    as (B2 & F2).
  destruct (comment_row "# Total users: " (str_nat (List.length rows))
              eq_refl (ExportFacts.str_nat_no_quote _) ltac:(discriminate) Fit3) as (B3 & F3).
  apply (reader_of_line_blocks out blocks _ Hlas).
  - constructor; [split; [nl_free_by_computation|right; reflexivity]|].
    constructor; [exact B1|]. constructor; [exact B2|]. constructor; [exact B3|].
    apply Forall_map. refine (List.Forall_impl _ _ Hrows). intros r Hr.
    split; [|right; reflexivity]. cbn [fst].
    apply concat_nl_free. apply Forall_map.
    refine (List.Forall_impl _ _ Hr). intros f [Hf _]. apply quote_field_nl_free, Hf.
  - constructor; [apply feed_reset_row; [discriminate|discriminate|]|].
    { repeat constructor; unfold fits; vm_compute; discriminate. }
    constructor; [exact F1|]. constructor; [exact F2|]. constructor; [exact F3|].
    apply forall2_map. apply List.Forall_forall. intros r Hin.
    apply feed_reset_row; [discriminate|discriminate|].
    refine (List.Forall_impl _ _ (proj1 (List.Forall_forall _ _) Hrows r Hin)).
    intros f [_ Hf]. exact Hf.
Qed.

End CsvRoundTrip.

Module Utf8Facts.
Import Py TextIO CsvWriter ExportUsers.

(** The bytes of a Python [str]: its UTF-8 encoding is well formed. *)
Definition valid (s : string) : Prop := utf8_ok (list_ascii_of_string s) = true.

Lemma utf8_app a b : utf8_ok a = true -> utf8_ok (a ++ b) = utf8_ok b.
Proof.
  induction a as [a IH] using
    (well_founded_ind (Wf_nat.well_founded_ltof _ (@List.length ascii))).
  unfold Wf_nat.ltof in IH.
  destruct a as [|x r]; intros H; [reflexivity|].
  cbn [app utf8_ok] in *.
  destruct (byte_in 0 127 x); [apply IH; [cbn; lia|exact H]|].
  destruct (byte_in 194 223 x).
  { destruct r as [|c1 r1]; [discriminate|]. cbn [app].
    apply andb_true_iff in H as [H1 H2]. rewrite H1, (IH r1); [reflexivity|cbn; lia|exact H2]. }
  destruct (byte_in 224 239 x).
  { destruct r as [|c1 [|c2 r2]]; try discriminate. cbn [app].
    apply andb_true_iff in H as [H1 H2]. rewrite H1, (IH r2); [reflexivity|cbn; lia|exact H2]. }
  destruct (byte_in 240 244 x); [|discriminate].
  destruct r as [|c1 [|c2 [|c3 r3]]]; try discriminate. cbn [app].
  apply andb_true_iff in H as [H1 H2]. rewrite H1, (IH r3); [reflexivity|cbn; lia|exact H2].
Qed.

Lemma valid_app s1 s2 : valid s1 -> valid s2 -> valid (s1 ++ s2).
Proof. unfold valid. intros H1 H2. rewrite ExportFacts.las_app, utf8_app by exact H1. exact H2. Qed.

Lemma high_not_dquote c lo hi :
  byte_in lo hi c = true -> (128 <= lo)%nat -> Ascii.eqb c DQUOTE = false.
Proof.
  unfold byte_in. intros H Hlo. apply andb_true_iff in H as [H _]. apply Nat.leb_le in H.
  destruct (Ascii.eqb_spec c DQUOTE) as [->|]; [|reflexivity]. vm_compute in H. lia.
Qed.

Lemma lead_not_dquote x : byte_in 0 127 x = false -> Ascii.eqb x DQUOTE = false.
Proof.
  intros H. destruct (Ascii.eqb_spec x DQUOTE) as [->|]; [vm_compute in H; discriminate H|reflexivity].
Qed.

Lemma cont_not_dquote c : cont_byte c = true -> Ascii.eqb c DQUOTE = false.
Proof. intros H. apply (high_not_dquote c 128 191 H). lia. Qed.

Lemma second_not_dquote n b1 b2 lo1 hi1 lo2 hi2 c1 :
  (if Nat.eqb n b1 then byte_in lo1 hi1 c1
   else if Nat.eqb n b2 then byte_in lo2 hi2 c1 else cont_byte c1) = true ->
  (128 <= lo1)%nat -> (128 <= lo2)%nat -> Ascii.eqb c1 DQUOTE = false.
Proof.
  intros H H1 H2. destruct (Nat.eqb n b1); [|destruct (Nat.eqb n b2)].
  - exact (high_not_dquote _ _ _ H H1).
  - exact (high_not_dquote _ _ _ H H2).
  - exact (cont_not_dquote _ H).
Qed.

Lemma utf8_double_quotes l : utf8_ok l = true -> utf8_ok (double_quotes l) = true.
Proof.
  induction l as [l IH] using
    (well_founded_ind (Wf_nat.well_founded_ltof _ (@List.length ascii))).
  unfold Wf_nat.ltof in IH.
  destruct l as [|x r]; intros H; [reflexivity|].
  cbn [utf8_ok] in H.
  destruct (byte_in 0 127 x) eqn:Ex.
  - assert (Hr : utf8_ok (double_quotes r) = true) by (apply IH; [cbn; lia|exact H]).
    cbn [double_quotes].
    destruct (Ascii.eqb x DQUOTE); cbn [utf8_ok]; rewrite Ex; exact Hr.
  - destruct (byte_in 194 223 x) eqn:E2.
    { destruct r as [|c1 r1]; [discriminate|]. apply andb_true_iff in H as [H1 H2].
      cbn [double_quotes]. rewrite (lead_not_dquote x Ex), (cont_not_dquote c1 H1).
      cbn [utf8_ok]. rewrite Ex, E2, H1. apply IH; [cbn; lia|exact H2]. }
    destruct (byte_in 224 239 x) eqn:E3.
    { destruct r as [|c1 [|c2 r2]]; try discriminate. apply andb_true_iff in H as [H1 H2].
      pose proof H1 as H1'. apply andb_true_iff in H1' as [H11 H12].
      cbn [double_quotes].
      rewrite (lead_not_dquote x Ex), (second_not_dquote _ _ _ _ _ _ _ _ H11), (cont_not_dquote c2 H12)
        by lia.
      cbn [utf8_ok]. rewrite Ex, E2, E3, H1. apply IH; [cbn; lia|exact H2]. }
    destruct (byte_in 240 244 x) eqn:E4; [|discriminate].
    destruct r as [|c1 [|c2 [|c3 r3]]]; try discriminate. apply andb_true_iff in H as [H1 H2].
    pose proof H1 as H1'. apply andb_true_iff in H1' as [H1' H13].
    apply andb_true_iff in H1' as [H11 H12].
    cbn [double_quotes].
    rewrite (lead_not_dquote x Ex), (second_not_dquote _ _ _ _ _ _ _ _ H11), (cont_not_dquote c2 H12),
      (cont_not_dquote c3 H13) by lia.
    cbn [utf8_ok]. rewrite Ex, E2, E3, E4, H1. apply IH; [cbn; lia|exact H2].
Qed.

Lemma valid_ascii_cons c s : byte_in 0 127 c = true -> valid s -> valid (String c s).
Proof. unfold valid. intros Hc Hs. cbn [list_ascii_of_string utf8_ok]. rewrite Hc. exact Hs. Qed.

Lemma valid_quote_field f : valid f -> valid (quote_field f).
Proof.
  unfold quote_field. intros H. destruct (needs_quote f); [|exact H].
  unfold valid. rewrite list_ascii_of_string_of_list_ascii. cbn [utf8_ok].
  replace (byte_in 0 127 DQUOTE) with true by reflexivity.
  rewrite utf8_app by (apply utf8_double_quotes, H). reflexivity.
Qed.

Lemma valid_concat sep fs : valid sep -> Forall valid fs -> valid (String.concat sep fs).
Proof.
  intros Hs. induction 1 as [|f fs Hf Hfs IH]; [reflexivity|].
  destruct fs as [|f' fs']; [exact Hf|].
  change (String.concat sep (f :: f' :: fs')) with (f ++ sep ++ String.concat sep (f' :: fs'))%string.
  apply valid_app; [exact Hf|]. apply valid_app; assumption.
Qed.

Lemma valid_format_row fs : Forall valid fs -> valid (format_row fs).
Proof.
  intros H. unfold format_row.
  assert (Hq : Forall valid (List.map quote_field fs))
    by (apply Forall_map; refine (List.Forall_impl _ _ H); apply valid_quote_field).
  assert (Hc : valid CRLF) by reflexivity.
  destruct fs as [|f [|f' fs']].
  - apply valid_app; [reflexivity|exact Hc].
  - destruct (String.eqb f ""); [reflexivity|].
    apply valid_app; [apply valid_quote_field; inversion H; assumption|exact Hc].
  - apply valid_app; [apply valid_concat; [reflexivity|exact Hq]|exact Hc].
Qed.

Lemma valid_str_nat_aux fuel : forall n acc, valid acc -> valid (str_nat_aux fuel n acc).
Proof.
  induction fuel as [|fuel IH]; intros n acc H; cbn [str_nat_aux]; [exact H|].
  assert (Hd : valid (String (ascii_of_nat (48 + n mod 10)) acc)).
  { apply valid_ascii_cons; [|exact H].
    assert (Hm : (n mod 10 < 10)%nat) by (apply Nat.mod_upper_bound; lia).
    destruct (n mod 10)%nat as [|[|[|[|[|[|[|[|[|[|d]]]]]]]]]]; try reflexivity. lia. }
  destruct (Nat.ltb n 10); [exact Hd|apply IH, Hd].
Qed.

Lemma valid_str_nat n : valid (str_nat n).
Proof. apply valid_str_nat_aux. reflexivity. Qed.

(** The text written by [export_users_to_csv] is well-formed UTF-8. *)
Lemma export_valid org date rows out :
  valid org -> valid date -> Forall (fun r => Forall valid (dict_values r)) rows ->
  export_csv_text org date rows = Some out -> valid out.
Proof.
  intros Ho Hd Hr Hout. destruct rows as [|r0 rs]; [discriminate|].
  injection Hout as <-.
  assert (Hnl : valid (String LF EmptyString)) by reflexivity.
  assert (Hh : valid (format_row fieldnames)) by reflexivity.
  assert (Hn := valid_str_nat (List.length (r0 :: rs))).
  assert (Hu : valid (String.concat "" (List.map (fun r => format_row (dict_values r)) (r0 :: rs)))).
  { apply valid_concat; [reflexivity|]. apply Forall_map.
    refine (List.Forall_impl _ _ Hr). intros r. apply valid_format_row. }
  apply valid_app; [exact Hh|]. apply valid_app; [reflexivity|].
  apply valid_app; [exact Ho|]. apply valid_app; [exact Hnl|].
  apply valid_app; [reflexivity|]. apply valid_app; [exact Hd|]. apply valid_app; [exact Hnl|].
  apply valid_app; [reflexivity|]. apply valid_app; [exact Hn|]. apply valid_app; [exact Hnl|].
  exact Hu.
Qed.


End Utf8Facts.

(** A one-user export of org [acme]. *)
Definition demo_user : ExportUsers.user_row :=
  ExportUsers.mkRow "a@x.com" "Ann" "Lee" "a@x.com" "ACTIVE" "Eng" "Dev" "" "" "".

Definition dq : string := String Py.DQUOTE EmptyString.

(** A user in two groups with a JSON custom attribute: both fields hold
    commas, the second also quote characters. *)
Definition quoted_user : ExportUsers.user_row :=
  ExportUsers.mkRow "b@x.com" "Bo" "Ng" "b@x.com" "ACTIVE" "Eng" "Dev" "" "Admins,Eng"
    ("{" ++ dq ++ "team" ++ dq ++ ": " ++ dq ++ "a,b" ++ dq ++ "}")%string.

(** C9 (counterexample): the header row is not preceded by the comment
    lines. [writer.writeheader()] runs first, so the file read back by
    [csv.reader] starts with the header row and the three comment rows
    follow it. *)
Lemma export_header_before_comments :
  exists out,
    ExportUsers.export_csv_text "acme" "2026-01-01T00:00:00Z" [demo_user] = Some out
    /\ Csv.csv_reader out
       = Some [ExportUsers.fieldnames;
               ["# Exported from Okta org: acme"]%string;
               ["# Export date: 2026-01-01T00:00:00Z"]%string;
               ["# Total users: 1"]%string;
               ExportUsers.dict_values demo_user].
Proof. eexists. split; [reflexivity|]. vm_compute. reflexivity. Qed.

(** C9 (amended): when there are no users no file is written. Otherwise
    the file starts with the header row [email,first_name,last_name,login,
    status,department,title,manager_email,groups,custom_profile_attributes]
    written by [writeheader], the three comment lines (org, date, user
    count) follow it, and then comes one CSV record per user, whatever its
    fields hold. When the org name and the date need no quoting, no user
    field holds a line break, and every field and comment line has at most
    [field_limit] = 131072 bytes, [csv.reader] reads the file back as the
    header row, the three one-field comment rows starting with '#', and one
    row per user holding exactly its field values, commas and quotes
    included. *)
Theorem export_csv_layout org date rows :
  ExportUsers.export_csv_text org date [] = None
  /\ (rows <> [] ->
      ExportUsers.export_csv_text org date rows
      = Some ("email,first_name,last_name,login,status,department,title,manager_email,groups,custom_profile_attributes"
              ++ CsvWriter.CRLF
              ++ "# Exported from Okta org: " ++ org ++ String Py.LF EmptyString
              ++ "# Export date: " ++ date ++ String Py.LF EmptyString
              ++ "# Total users: " ++ ExportUsers.str_nat (List.length rows) ++ String Py.LF EmptyString
              ++ String.concat ""
                   (List.map (fun r => CsvWriter.format_row (ExportUsers.dict_values r)) rows))%string)
  /\ (forall out,
      CsvWriter.needs_quote org = false -> CsvWriter.needs_quote date = false ->
      Forall CsvRoundTrip.fits
        [("# Exported from Okta org: " ++ org)%string; ("# Export date: " ++ date)%string;
         ("# Total users: " ++ ExportUsers.str_nat (List.length rows))%string] ->
      Forall (fun r => Forall (fun f => CsvRoundTrip.nl_free f /\ CsvRoundTrip.fits f)
                              (ExportUsers.dict_values r)) rows ->
      ExportUsers.export_csv_text org date rows = Some out ->
      Csv.csv_reader out
      = Some (ExportUsers.fieldnames
              :: [("# Exported from Okta org: " ++ org)%string]
              :: [("# Export date: " ++ date)%string]
              :: [("# Total users: " ++ ExportUsers.str_nat (List.length rows))%string]
              :: List.map ExportUsers.dict_values rows)).
Proof.
  split; [reflexivity|]. split.
  - intros Hne. destruct rows as [|r0 rs]; [contradiction|]. reflexivity.
  - intros out. apply CsvRoundTrip.export_reader.
Qed.

(** Witness for C9: the export of [quoted_user] for org [acme], read back
    field by field. *)
Lemma export_csv_layout_witness :
  exists out,
    ExportUsers.export_csv_text "acme" "2026-01-01T00:00:00Z" [quoted_user] = Some out
    /\ List.last (match Csv.csv_reader out with Some rows => rows | None => [] end) []
       = ExportUsers.dict_values quoted_user.
Proof.
  eexists. split; [reflexivity|].
  rewrite (proj2 (proj2 (export_csv_layout "acme" "2026-01-01T00:00:00Z" [quoted_user])) _
             eq_refl eq_refl
             ltac:(repeat constructor; unfold CsvRoundTrip.fits; vm_compute; discriminate)
             ltac:(repeat constructor; first [ unfold CsvRoundTrip.fits; vm_compute; discriminate
                                             | unfold CsvRoundTrip.nl_free; nl_free_by_computation ])
             eq_refl).
  reflexivity.
Defined.

(** [count_csv_rows] of [create_backup_manifest.py], run on the file
    written by [export_users_to_csv], counts exactly the users whose email
    neither starts with '#' nor equals 'email', when the org name and the
    date need no quoting, every field and comment line is UTF-8 of at most
    [field_limit] bytes and no field holds a line break; fields may hold
    commas and quotes. *)
Theorem export_csv_quoted_fields org date rows out :
  CsvWriter.needs_quote org = false -> CsvWriter.needs_quote date = false ->
  Utf8Facts.valid org -> Utf8Facts.valid date ->
  Forall CsvRoundTrip.fits
    [("# Exported from Okta org: " ++ org)%string; ("# Export date: " ++ date)%string;
     ("# Total users: " ++ ExportUsers.str_nat (List.length rows))%string] ->
  Forall (fun r => Forall (fun f => CsvRoundTrip.nl_free f /\ CsvRoundTrip.fits f
                                    /\ Utf8Facts.valid f)
                          (ExportUsers.dict_values r)) rows ->
  ExportUsers.export_csv_text org date rows = Some out ->
  count_csv_rows out
  = Some (List.length (List.filter
            (fun r => negb (Py.startswith (ExportUsers.email r) "#")
                      && negb (String.eqb (ExportUsers.email r) "email"))%bool rows)).
Proof.
  intros Horg Hdate Vorg Vdate Hfit Hrows Hout.
  assert (Hv : Utf8Facts.valid out).
  { apply (Utf8Facts.export_valid org date rows out Vorg Vdate); [|exact Hout].
    refine (List.Forall_impl _ _ Hrows). intros r Hr.
    refine (List.Forall_impl _ _ Hr). intros f (_ & _ & Hf). exact Hf. }
  assert (Hrd := CsvRoundTrip.export_reader org date rows out Horg Hdate Hfit
                   ltac:(refine (List.Forall_impl _ _ Hrows); intros r Hr;
                         refine (List.Forall_impl _ _ Hr); intros f (H1 & H2 & _); split; assumption)
                   Hout).
  unfold count_csv_rows. unfold Utf8Facts.valid in Hv. rewrite Hv. cbn [negb].
  rewrite Hrd. f_equal.
  assert (G0 : csv_row_counted ExportUsers.fieldnames = false) by reflexivity.
  assert (G1 : csv_row_counted [("# Exported from Okta org: " ++ org)%string] = false) by reflexivity.
  assert (G2 : csv_row_counted [("# Export date: " ++ date)%string] = false) by reflexivity.
  assert (G3 : csv_row_counted [("# Total users: " ++ ExportUsers.str_nat (List.length rows))%string]
               = false) by reflexivity.
  cbn [List.filter]. rewrite G0, G1, G2, G3. apply ExportFacts.counted_users.
Qed.

Lemma export_csv_quoted_fields_witness :
  exists out,
    ExportUsers.export_csv_text "acme" "2026-01-01T00:00:00Z" [quoted_user; demo_user] = Some out
    /\ count_csv_rows out = Some 2%nat.
Proof.
  eexists. split; [reflexivity|].
  rewrite (export_csv_quoted_fields "acme" "2026-01-01T00:00:00Z" [quoted_user; demo_user] _
             eq_refl eq_refl eq_refl eq_refl
             ltac:(repeat constructor; unfold CsvRoundTrip.fits; vm_compute; discriminate)
             ltac:(repeat constructor; first [ unfold CsvRoundTrip.fits; vm_compute; discriminate
                                             | unfold CsvRoundTrip.nl_free; nl_free_by_computation
                                             | reflexivity ])
             eq_refl).
  reflexivity.
Defined.

Module RequestFacts.
Import Http.

(** The events a call appended: every request sent satisfies [P]. *)
Definition sends_only (P : request -> Prop) (new : list event) : Prop :=
  Forall (fun e => match e with Sent r => P r | Slept _ => True end) new.

Lemma count_sent_app a b : count_sent (a ++ b) = (count_sent a + count_sent b)%nat.
Proof. unfold count_sent. rewrite List.filter_app, List.length_app. reflexivity. Qed.

Lemma sends_only_app P a b : sends_only P a -> sends_only P b -> sends_only P (a ++ b).
Proof. unfold sends_only. intros Ha Hb. apply Forall_app. split; assumption. Qed.

Lemma sends_only_weaken (P Q : request -> Prop) a :
  (forall r, P r -> Q r) -> sends_only P a -> sends_only Q a.
Proof.
  intros HPQ H. unfold sends_only in *. refine (List.Forall_impl _ _ H).
  intros [r|ms]; [apply HPQ|trivial].
Qed.

Lemma sleep_events ms nt : events (sleep ms nt) = events nt ++ [Slept ms].
Proof. reflexivity. Qed.

(** [GovernanceClient._make_request] sends its request once, and again
    after each 429, at most [S remaining] times. *)
Lemma gov_attempt_sends server : forall k rq nt,
  exists new, events (fst (GovernanceClient.attempt server k rq nt)) = events nt ++ new
    /\ sends_only (fun r => r = rq) new /\ (1 <= count_sent new <= S k)%nat.
Proof.
  induction k as [|k IH]; intros rq nt; cbn [GovernanceClient.attempt send].
  - destruct (status_code (server (events nt) rq) =? 429) eqn:E; cbn [fst].
    + unfold GovernanceClient.handle_rate_limit. rewrite E.
      eexists. rewrite sleep_events. cbn [events]. rewrite <- app_assoc. split; [reflexivity|].
      split; [repeat constructor|]. cbv. lia.
    + eexists. split; [reflexivity|]. split; [repeat constructor|]. cbv. lia.
  - destruct (status_code (server (events nt) rq) =? 429) eqn:E; cbn [fst].
    + unfold GovernanceClient.handle_rate_limit. rewrite E.
      match goal with |- context [GovernanceClient.attempt server k rq ?n] =>
        destruct (IH rq n) as (new & Hev & Hs & Hc) end.
      rewrite sleep_events in Hev. cbn [events] in Hev.
      exists ([Sent rq; Slept (GovernanceClient.wait_time_ms (server (events nt) rq) (clock_ms nt))]
              ++ new).
      rewrite Hev, <- !app_assoc. split; [reflexivity|]. split.
      * apply sends_only_app; [repeat constructor|exact Hs].
      * rewrite count_sent_app. cbn. lia.
    + eexists. split; [reflexivity|]. split; [repeat constructor|]. cbv. lia.
Qed.

(** The same for [copy_group_memberships.OktaClient._make_request]. *)
Lemma mem_attempt_sends server : forall k c rq nt,
  exists new,
    events (snd (fst (MembershipsClient.attempt server k c rq nt))) = events nt ++ new
    /\ sends_only (fun r => r = rq) new /\ (1 <= count_sent new <= S k)%nat.
Proof.
  assert (Hh : forall c resp nt, exists s,
             events (snd (MembershipsClient.handle_rate_limit c resp nt)) = events nt ++ s
             /\ sends_only (fun _ => False) s /\ count_sent s = 0%nat).
  { intros c resp nt. unfold MembershipsClient.handle_rate_limit.
    destruct (status_code resp =? 429); [|destruct (_ <? 10)]; cbn [snd];
      rewrite ?sleep_events.
    - eexists. split; [reflexivity|]. split; [repeat constructor|reflexivity].
    - eexists. split; [reflexivity|]. split; [repeat constructor|reflexivity].
    - exists []. rewrite app_nil_r. split; [reflexivity|]. split; [constructor|reflexivity]. }
  induction k as [|k IH]; intros c rq nt; cbn [MembershipsClient.attempt send].
  - destruct (MembershipsClient.handle_rate_limit c (server (events nt) rq)
                (mkNet (clock_ms nt) (events nt ++ [Sent rq]))) as [c' nt2] eqn:Eh.
    destruct (Hh c (server (events nt) rq) (mkNet (clock_ms nt) (events nt ++ [Sent rq])))
      as (s & Hev & Hs & Hc). rewrite Eh in Hev. cbn [snd events] in Hev.
    exists (Sent rq :: s).
    destruct (status_code (server (events nt) rq) =? 429); cbn [fst snd];
      (rewrite Hev, <- app_assoc; split; [reflexivity|]; split;
       [constructor; [reflexivity|exact (sends_only_weaken _ _ _ (fun _ f => False_ind _ f) Hs)]
       |change (Sent rq :: s) with ([Sent rq] ++ s); rewrite count_sent_app, Hc; cbv; lia]).
  - destruct (MembershipsClient.handle_rate_limit c (server (events nt) rq)
                (mkNet (clock_ms nt) (events nt ++ [Sent rq]))) as [c' nt2] eqn:Eh.
    destruct (Hh c (server (events nt) rq) (mkNet (clock_ms nt) (events nt ++ [Sent rq])))
      as (s & Hev & Hs & Hc). rewrite Eh in Hev. cbn [snd events] in Hev.
    assert (Hs' : sends_only (fun r => r = rq) (Sent rq :: s))
      by (constructor; [reflexivity|exact (sends_only_weaken _ _ _ (fun _ f => False_ind _ f) Hs)]).
    assert (Hc' : count_sent (Sent rq :: s) = 1%nat)
      by (change (Sent rq :: s) with ([Sent rq] ++ s); rewrite count_sent_app, Hc; reflexivity).
    destruct (status_code (server (events nt) rq) =? 429); cbn [fst snd].
    + destruct (IH c' rq nt2) as (new & Hev2 & Hs2 & Hc2).
      exists ((Sent rq :: s) ++ new). rewrite Hev2, Hev, <- !app_assoc.
      split; [reflexivity|]. split; [apply sends_only_app; assumption|].
      rewrite count_sent_app, Hc'. lia.
    + exists (Sent rq :: s). rewrite Hev, <- app_assoc. split; [reflexivity|].
      split; [exact Hs'|]. rewrite Hc'. lia.
Qed.

End RequestFacts.

Module ImportFacts.
Import Http RequestFacts.

(** Every grant of the export lands in one of the five result counters. *)
Definition grant_total (r : GrantsImport.results) : nat :=
  (GrantsImport.created r + GrantsImport.exists_ r + GrantsImport.skipped r
   + GrantsImport.errors r + GrantsImport.excluded r)%nat.

(** The grants for which a creation request was made. *)
Definition grant_posted (r : GrantsImport.results) : nat :=
  (GrantsImport.created r + GrantsImport.exists_ r + GrantsImport.errors r)%nat.

Definition grant_post (rq : request) : Prop :=
  method rq = POST /\ url rq = GovernanceClient.grants_url.

Lemma import_one_step server idx excl dry res nt g :
  let '(res', nt') := GrantsImport.import_one server idx excl dry (res, nt) g in
  grant_total res' = S (grant_total res)
  /\ exists new d, events nt' = events nt ++ new /\ sends_only grant_post new
     /\ grant_posted res' = (grant_posted res + d)%nat
     /\ (if dry then count_sent new = 0%nat else (d <= count_sent new <= 3 * d)%nat).
Proof.
  unfold GrantsImport.import_one.
  assert (Hnone : exists new d, events nt = events nt ++ new /\ sends_only grant_post new
            /\ grant_posted res = (grant_posted res + d)%nat
            /\ (if dry then count_sent new = 0%nat else (d <= count_sent new <= 3 * d)%nat)).
  { exists [], 0%nat. rewrite app_nil_r. split; [reflexivity|]. split; [constructor|].
    split; [lia|]. destruct dry; cbv; lia. }
  destruct (match GrantsImport.target_app_name g with
            | Some a => existsb (String.eqb a) excl | None => false end).
  { split; [unfold grant_total; simpl; lia|]. exact Hnone. }
  destruct (GrantsImport.get_truthy _ _) as [bid|].
  2: { split; [unfold grant_total; simpl; lia|]. exact Hnone. }
  destruct (GrantsImport.resolve_principal _ _ _) as [pid|].
  2: { split; [unfold grant_total; simpl; lia|]. exact Hnone. }
  unfold GovernanceClient.create_grant. destruct dry.
  - split; [unfold grant_total; simpl; lia|].
    exists [], 1%nat. rewrite app_nil_r. split; [reflexivity|]. split; [constructor|].
    split; [unfold grant_posted; simpl; lia|reflexivity].
  - cbv zeta. unfold GovernanceClient.make_request.
    match goal with |- context [GovernanceClient.attempt server 2 ?r nt] =>
      destruct (gov_attempt_sends server 2 r nt) as (new & Hev & Hs & Hc);
      destruct (GovernanceClient.attempt server 2 r nt) as [nt1 resp] end.
    cbn [fst] in Hev.
    assert (Hp : sends_only grant_post new)
      by (refine (sends_only_weaken _ _ _ _ Hs); intros r ->; split; reflexivity).
    destruct (ok resp); [|destruct (status_code resp =? 409)];
      (split; [unfold grant_total; simpl; lia|];
       exists new, 1%nat; split; [exact Hev|]; split; [exact Hp|];
       split; [unfold grant_posted; simpl; lia|lia]).
Qed.

(** Without [--dry-run], the import loop of [import_grants] accounts for
    every grant once, and makes one to three POST requests to the grants
    endpoint for each grant counted created, existing or failed, and no
    other request. *)
Theorem import_grants_accounting server idx excl dry grants nt :
  let '(res, nt') := GrantsImport.import_loop server idx excl dry grants nt in
  grant_total res = List.length grants
  /\ exists new, events nt' = events nt ++ new /\ sends_only grant_post new
     /\ (if dry then count_sent new = 0%nat
         else (grant_posted res <= count_sent new <= 3 * grant_posted res)%nat).
Proof.
  unfold GrantsImport.import_loop.
  assert (Hgen : forall gs res nt,
    let '(res', nt') := fold_left (GrantsImport.import_one server idx excl dry) gs (res, nt) in
    grant_total res' = (grant_total res + List.length gs)%nat
    /\ exists new, events nt' = events nt ++ new /\ sends_only grant_post new
       /\ (if dry then count_sent new = 0%nat
           else (grant_posted res' - grant_posted res <= count_sent new
                 <= 3 * (grant_posted res' - grant_posted res))%nat
                /\ (grant_posted res <= grant_posted res')%nat)).
  { induction gs as [|g gs IH]; intros res nt0; cbn [fold_left].
    - split; [simpl; lia|]. exists []. rewrite app_nil_r. split; [reflexivity|].
      split; [constructor|]. change (count_sent []) with 0%nat. destruct dry; lia.
    - pose proof (import_one_step server idx excl dry res nt0 g) as Hs1.
      destruct (GrantsImport.import_one server idx excl dry (res, nt0) g) as [r1 n1].
      destruct Hs1 as (Ht1 & new1 & d & Hev1 & Hp1 & Hpost1 & Hc1).
      specialize (IH r1 n1).
      destruct (fold_left (GrantsImport.import_one server idx excl dry) gs (r1, n1)) as [r2 n2].
      destruct IH as (Ht2 & new2 & Hev2 & Hp2 & Hc2).
      split; [simpl; lia|]. exists (new1 ++ new2).
      rewrite Hev2, Hev1, <- app_assoc. split; [reflexivity|].
      split; [apply sends_only_app; assumption|].
      rewrite count_sent_app. destruct dry; cbn iota in Hc1, Hc2 |- *; lia. }
  specialize (Hgen grants GrantsImport.results0 nt).
  destruct (fold_left _ grants (GrantsImport.results0, nt)) as [res nt'].
  destruct Hgen as (Ht & new & Hev & Hp & Hc). split; [exact Ht|].
  exists new. split; [exact Hev|]. split; [exact Hp|].
  destruct dry; [exact Hc|]. unfold grant_posted in *. simpl in Hc. lia.
Qed.

End ImportFacts.

Module MembershipImportFacts.
Import Http RequestFacts MembershipsImport.

Definition assigned (s : stats) : nat := (assignments_made s + assignments_failed s)%nat.

Definition group_put (rq : request) : Prop := method rq = PUT.

(** How the statistics and the network move from [st] to [st'], having
    handled [dg] groups and [du] member emails of found groups. *)
Definition progress (dry : bool) (st st' : stats * MembershipsClient.client * net)
  (dg du : nat) : Prop :=
  let '(s, _, nt) := st in
  let '(s', _, nt') := st' in
  (groups_found s' + groups_missing s' = groups_found s + groups_missing s + dg
   /\ users_matched s' + users_missing s' = users_matched s + users_missing s + du
   /\ users_matched s <= users_matched s'
   /\ assigned s' = assigned s + (if dry then 0 else users_matched s' - users_matched s)
   /\ exists new, events nt' = events nt ++ new /\ sends_only group_put new
      /\ (if dry then count_sent new = 0
          else assigned s' - assigned s <= count_sent new <= 3 * (assigned s' - assigned s)))%nat.

Lemma progress_refl dry st : progress dry st st 0 0.
Proof.
  destruct st as [[s c] nt]. unfold progress.
  repeat split; try lia; [destruct dry; lia|].
  exists []. rewrite app_nil_r. split; [reflexivity|]. split; [constructor|].
  change (count_sent []) with 0%nat. destruct dry; lia.
Qed.

Lemma progress_trans dry st1 st2 st3 dg1 du1 dg2 du2 :
  progress dry st1 st2 dg1 du1 -> progress dry st2 st3 dg2 du2 ->
  progress dry st1 st3 (dg1 + dg2) (du1 + du2).
Proof.
  destruct st1 as [[s1 c1] n1], st2 as [[s2 c2] n2], st3 as [[s3 c3] n3]. unfold progress.
  intros (G1 & U1 & M1 & A1 & new1 & E1 & P1 & C1) (G2 & U2 & M2 & A2 & new2 & E2 & P2 & C2).
  split; [lia|]. split; [lia|]. split; [lia|].
  split; [destruct dry; lia|].
  exists (new1 ++ new2). rewrite E2, E1, <- app_assoc. split; [reflexivity|].
  split; [apply sends_only_app; assumption|]. rewrite count_sent_app.
  destruct dry; lia.
Qed.

Lemma member_progress server tu dry gid st e :
  progress dry st (import_member server tu dry gid st e) 0 1.
Proof.
  destruct st as [[s c] nt]. unfold import_member.
  destruct (tu !! Py.lower e) as [uid|].
  - destruct dry; cbn [negb].
    + unfold progress, assigned; cbn. repeat split; try lia.
      exists []. rewrite app_nil_r. split; [reflexivity|]. split; [constructor|reflexivity].
    + unfold MembershipsClient.add_user_to_group, MembershipsClient.make_request.
      match goal with |- context [MembershipsClient.attempt server 2 c ?r nt] =>
        destruct (mem_attempt_sends server 2 c r nt) as (new & Hev & Hs & Hc);
        destruct (MembershipsClient.attempt server 2 c r nt) as [[c' nt'] resp] end.
      cbn [fst snd] in Hev.
      assert (Hp : sends_only group_put new)
        by (refine (sends_only_weaken _ _ _ _ Hs); intros r ->; reflexivity).
      destruct (status_code resp =? 204); unfold progress, assigned; cbn;
        (split; [lia|]; split; [lia|]; split; [lia|]; split; [lia|];
         exists new; split; [exact Hev|]; split; [exact Hp|]; lia).
  - unfold progress, assigned; cbn. repeat split; try lia; [destruct dry; lia|].
    exists []. rewrite app_nil_r. split; [reflexivity|]. split; [constructor|].
    change (count_sent []) with 0%nat. destruct dry; lia.
Qed.

Lemma members_progress server tu dry gid es : forall st,
  progress dry st (fold_left (import_member server tu dry gid) es st) 0 (List.length es).
Proof.
  induction es as [|e es IH]; intros st; cbn [fold_left List.length].
  - apply progress_refl.
  - apply (progress_trans dry _ (import_member server tu dry gid st e) _ 0 1 0 (List.length es));
      [apply member_progress|apply IH].
Qed.

Definition found_members (tg : gmap string string) (gm : string * list string) : nat :=
  match tg !! gm.1 with Some _ => List.length gm.2 | None => 0%nat end.

Lemma group_progress server tu tg dry st gm :
  progress dry st (import_group server tu tg dry st gm) 1 (found_members tg gm).
Proof.
  destruct st as [[s c] nt], gm as [g es]. unfold import_group, found_members. cbn [fst snd].
  destruct (tg !! g) as [gid|].
  - apply (progress_trans dry _ (add_group_found s, c, nt) _ 1 0 0 (List.length es));
      [|apply members_progress].
    unfold progress, assigned; cbn. repeat split; try lia; [destruct dry; lia|].
    exists []. rewrite app_nil_r. split; [reflexivity|]. split; [constructor|].
    change (count_sent []) with 0%nat. destruct dry; lia.
  - unfold progress, assigned; cbn. repeat split; try lia; [destruct dry; lia|].
    exists []. rewrite app_nil_r. split; [reflexivity|]. split; [constructor|].
    change (count_sent []) with 0%nat. destruct dry; lia.
Qed.

(** The loop of [import_memberships] over [memberships.items()] (after
    [target_users] and [target_groups] have been fetched) accounts for
    every group once (found or missing) and for every member email of a
    found group once (matched or missing); without [--dry-run] each
    matched user gives one assignment, made or failed, through one to
    three PUT requests, and the loop sends no other request; with
    [--dry-run] the loop sends no request. *)
Theorem import_memberships_accounting server tu tg dry ms c nt :
  let '(s, _, nt') := import_memberships server tu tg dry ms c nt in
  (groups_found s + groups_missing s = List.length ms
   /\ users_matched s + users_missing s = list_sum (List.map (found_members tg) ms)
   /\ assigned s = (if dry then 0 else users_matched s)
   /\ exists new, events nt' = events nt ++ new /\ sends_only group_put new
      /\ (if dry then count_sent new = 0 else assigned s <= count_sent new <= 3 * assigned s))%nat.
Proof.
  unfold import_memberships.
  assert (Hgen : forall ms st,
    progress dry st (fold_left (import_group server tu tg dry) ms st)
      (List.length ms) (list_sum (List.map (found_members tg) ms))).
  { induction ms0 as [|gm ms0 IH]; intros st; cbn [fold_left List.length List.map list_sum].
    - apply progress_refl.
    - apply (progress_trans dry _ (import_group server tu tg dry st gm) _ 1 (found_members tg gm));
        [apply group_progress|apply IH]. }
  specialize (Hgen ms (stats0, c, nt)).
  destruct (fold_left _ ms (stats0, c, nt)) as [[s c'] nt'].
  unfold progress, assigned in *. cbn in Hgen.
  destruct Hgen as (G & U & M & A & new & E & P & C).
  split; [lia|]. split; [lia|]. split; [destruct dry; lia|].
  exists new. split; [exact E|]. split; [exact P|]. destruct dry; lia.
Qed.

End MembershipImportFacts.

Module RestoreMainFacts.
Import Json S3 Restore Terraform RestoreMain.

(** A manifest written by [backup_state.create_state_manifest] for an S3
    state is accepted by [restore_state.load_manifest], and [main] takes
    from it exactly the bucket, key, region and version id captured at
    backup time, with the backup's environment; for a local-state backup
    [main] exits with status 1. *)
Theorem restore_reads_backup_manifest snapshot_id environment org_name created_at created_by
    schedule resource_exports bucket key region version_id etag last_modified content_length
    download original_path backup_path sha256 size_bytes modified :
  manifest_source_of (Some (BackupState.create_state_manifest snapshot_id environment org_name
      created_at created_by schedule
      (BackupState.s3_state_info bucket key region version_id etag last_modified content_length download)
      resource_exports))
  = SourceS3 (JStr bucket) (JStr key) (JStr region) version_id (JStr environment)
  /\ manifest_source_of (Some (BackupState.create_state_manifest snapshot_id environment org_name
      created_at created_by schedule
      (BackupState.local_state_info original_path backup_path sha256 size_bytes modified)
      resource_exports))
  = SourceExit1.
Proof. split; [destruct download as [[p s]|]|]; reflexivity. Qed.

Lemma restore_step target dry o :
  restore_s3_state_version target dry o =
  match history o with
  | [] => (mkS3 (history o) (calls o ++ [HeadObject]), inl NoSuchKey)
  | (v, b) :: _ =>
      if Nat.eqb v target then (mkS3 (history o) (calls o ++ [HeadObject]), inr (AlreadyCurrent target))
      else if dry then (mkS3 (history o) (calls o ++ [HeadObject]), inr (DryRun target))
      else match find_version target (history o) with
           | None => (mkS3 (history o) (calls o ++ [HeadObject; GetObjectVersion target]), inl NoSuchVersion)
           | Some body =>
               (mkS3 ((fresh_version (history o), body) :: history o)
                     (calls o ++ [HeadObject; GetObjectVersion target; PutObject body; HeadObject]),
                inr (Restored v target (fresh_version (history o))))
           end
  end.
Proof.
  destruct o as [h cs].
  unfold restore_s3_state_version, get_s3_state_version, head_object, download_version,
    upload, log, bind, ret. cbn.
  destruct h as [|[v b] h]; cbn; [reflexivity|].
  destruct (Nat.eqb v target); [reflexivity|].
  destruct dry; [reflexivity|]. cbn.
  destruct (if Nat.eqb target v then Some b else find_version target h); cbn;
    rewrite <- ?app_assoc; reflexivity.
Qed.


Lemma main_restore_unfold rc pw full dry auto target env o :
  main_restore rc pw full dry auto target env o =
  match restore_s3_state_version target dry o with
  | (o1, inl e) => (o1, inl e)
  | (o1, inr result) =>
      if match result with AlreadyCurrent _ => false | Restored _ _ _ => false | DryRun _ => negb dry end
      then (o1, inr (env, [], inr 1))
      else if full then
        let '(env', cmds, r) := run_terraform_apply rc pw dry auto env in
        (o1, inr (env', cmds, match r with
                              | inl e => inl e
                              | inr Applied | inr TfDryRun => inr 0
                              | inr _ => inr 1
                              end))
      else (o1, inr (env, [], inr 0))
  end.
Proof.
  unfold main_restore, bind, ret.
  destruct (restore_s3_state_version target dry o) as [o1 [e|result]]; [reflexivity|].
  destruct (match result with AlreadyCurrent _ => false | Restored _ _ _ => false | DryRun _ => negb dry end);
    [reflexivity|].
  destruct full; [|reflexivity].
  destruct (run_terraform_apply rc pw dry auto env) as [[env' cmds] r]. reflexivity.
Qed.

(** With [--dry-run], [main] (restore-state or full-restore mode) writes
    nothing to S3: its only S3 call is one [head_object], and it raises
    only when the state object does not exist. No [terraform apply] is run,
    and it exits 0 exactly when it only restores state, or when the
    terraform directory exists and [terraform init] and [terraform plan]
    succeed. *)
Theorem main_restore_dry_run_read_only rc pw full auto target env o :
  let '(o', r) := main_restore rc pw full true auto target env o in
  history o' = history o /\ calls o' = calls o ++ [HeadObject]
  /\ match r with
     | inl e => e = NoSuchKey /\ history o = []
     | inr (_, cmds, code) =>
         Forall (fun c => is_apply c = false) cmds
         /\ (code = inr 0 <-> full = false \/ (dir_exists env = true /\ rc TfInit = 0 /\ rc TfPlan = 0))
     end.
Proof.
  rewrite main_restore_unfold, restore_step.
  destruct (history o) as [|[v b] h] eqn:Ho; cbn; [tauto|].
  destruct (Nat.eqb v target); cbn;
  (destruct full;
   [unfold run_terraform_apply, run, cleanup_plan;
    destruct (dir_exists env) eqn:Hd; cbn;
    [destruct (Z.eqb (rc TfInit) 0) eqn:Hi; cbn;
     [destruct (Z.eqb (rc TfPlan) 0) eqn:Hp; cbn|]|]
   |]);
  rewrite ?Z.eqb_eq, ?Z.eqb_neq in *;
  (repeat split; try reflexivity; try discriminate;
   repeat constructor; try tauto; try (intros H; destruct H as [H|H]; [discriminate|]); intuition congruence).
Qed.


(** When a non-dry [--full-restore] run of [main] exits 0, the target
    version exists, the current state content is that of the target
    version, terraform ran init, plan and apply (all with exit code 0), and
    the plan file is gone. *)
Theorem full_restore_success rc pw auto target env o o' env' cmds :
  main_restore rc pw true false auto target env o = (o', inr (env', cmds, inr 0)) ->
  find_version target (history o) <> None
  /\ current_content o' = find_version target (history o)
  /\ cmds = [TfInit; TfPlan; TfApply auto]
  /\ rc TfInit = 0 /\ rc TfPlan = 0 /\ rc (TfApply auto) = 0
  /\ plan_file_exists env' = false.
Proof.
  rewrite main_restore_unfold, restore_step.
  assert (Hrun : forall o1, (let '(env'', cmds', r) := run_terraform_apply rc pw false auto env in
        (o1, @inr s3_error _ (env'', cmds', match r with
                              | inl e => inl e
                              | inr Applied | inr TfDryRun => inr 0
                              | inr _ => inr 1
                              end))) = (o', inr (env', cmds, inr 0)) ->
        o1 = o' /\ cmds = [TfInit; TfPlan; TfApply auto]
        /\ rc TfInit = 0 /\ rc TfPlan = 0 /\ rc (TfApply auto) = 0 /\ plan_file_exists env' = false).
  { intros o1. unfold run_terraform_apply, run, cleanup_plan.
    destruct (dir_exists env); cbn; [|discriminate].
    destruct (Z.eqb (rc TfInit) 0) eqn:Hi; cbn; [|discriminate].
    destruct (Z.eqb (rc TfPlan) 0) eqn:Hp; cbn; [|discriminate].
    destruct (Z.eqb (rc (TfApply auto)) 0) eqn:Ha; cbn; [|discriminate].
    intros H; inversion H; subst. rewrite Z.eqb_eq in Hi, Hp, Ha. tauto. }
  destruct (find_version target (history o)) as [body|] eqn:Ef.
  - destruct (history o) as [|[v b] h] eqn:Ho; cbn; [discriminate|].
    destruct (Nat.eqb v target) eqn:Ev; cbn.
    + intros H. apply Hrun in H as [Ho1 [Hc [Hi [Hp [Ha Hf]]]]]. subst o'.
      apply Nat.eqb_eq in Ev. subst v. 
      cbn in Ef. rewrite Nat.eqb_refl in Ef. injection Ef as <-. cbn.
      split; [discriminate|]. tauto.
    + intros H. apply Hrun in H as [Ho1 [Hc [Hi [Hp [Ha Hf]]]]]. subst o'. cbn.
      split; [discriminate|]. tauto.
  - destruct (history o) as [|[v b] h] eqn:Ho; cbn; [discriminate|].
    destruct (Nat.eqb v target) eqn:Ev; cbn.
    + exfalso. apply Nat.eqb_eq in Ev. subst v.  cbn in Ef.
      rewrite Nat.eqb_refl in Ef. discriminate.
    + discriminate.
Qed.

(** [main] returns exit code 1 only in full-restore mode, in an existing
    terraform directory, after terraform init, plan or (without
    [--dry-run]) apply failed: its "State restore failed" branch is never
    taken. *)
Theorem main_restore_exit1_only_from_terraform rc pw full dry auto target env o o' env' cmds :
  main_restore rc pw full dry auto target env o = (o', inr (env', cmds, inr 1)) ->
  full = true /\ dir_exists env = true
  /\ (rc TfInit <> 0 \/ rc TfPlan <> 0 \/ (dry = false /\ rc (TfApply auto) <> 0)).
Proof.
  rewrite main_restore_unfold, restore_step.
  assert (Hrun : forall o1, (let '(env'', cmds', r) := run_terraform_apply rc pw dry auto env in
        (o1, @inr s3_error _ (env'', cmds', match r with
                              | inl e => inl e
                              | inr Applied | inr TfDryRun => inr 0
                              | inr _ => inr 1
                              end))) = (o', inr (env', cmds, inr 1)) ->
        dir_exists env = true
        /\ (rc TfInit <> 0 \/ rc TfPlan <> 0 \/ (dry = false /\ rc (TfApply auto) <> 0))).
  { intros o1. unfold run_terraform_apply, run, cleanup_plan.
    destruct (dir_exists env); cbn; [|discriminate].
    destruct (Z.eqb (rc TfInit) 0) eqn:Hi; cbn;
      [|intros _; split; [reflexivity|]; left; apply Z.eqb_neq; exact Hi].
    destruct (Z.eqb (rc TfPlan) 0) eqn:Hp; cbn;
      [|intros _; split; [reflexivity|]; right; left; apply Z.eqb_neq; exact Hp].
    destruct dry; cbn; [discriminate|].
    destruct (Z.eqb (rc (TfApply auto)) 0) eqn:Ha; cbn; [discriminate|].
    intros _. split; [reflexivity|]. right; right. split; [reflexivity|]. apply Z.eqb_neq; exact Ha. }
  destruct (find_version target (history o)).
  all: destruct (history o) as [|[v b] h]; cbn; [discriminate|].
  all: destruct (Nat.eqb v target); cbn.
  all: destruct dry; cbn; try discriminate.
  all: destruct full; try discriminate.
  all: intros H; apply Hrun in H; tauto.
Qed.

Definition witness_store : s3_object :=
  mkS3 [(2%nat, "bad"%string); (1%nat, "good"%string)] [].

Lemma full_restore_success_witness :
  exists o' env' cmds,
    main_restore (fun _ => 0) true true false true 1%nat (mkTfEnv true false) witness_store
      = (o', inr (env', cmds, inr 0))
    /\ current_content o' = Some "good"%string /\ cmds = [TfInit; TfPlan; TfApply true].
Proof.
  exists (mkS3 [(3%nat, "good"%string); (2%nat, "bad"%string); (1%nat, "good"%string)]
               [HeadObject; GetObjectVersion 1%nat; PutObject "good"; HeadObject]),
         (mkTfEnv true false), [TfInit; TfPlan; TfApply true].
  assert (H : main_restore (fun _ => 0) true true false true 1%nat (mkTfEnv true false) witness_store
      = (mkS3 [(3%nat, "good"%string); (2%nat, "bad"%string); (1%nat, "good"%string)]
               [HeadObject; GetObjectVersion 1%nat; PutObject "good"; HeadObject],
         inr (mkTfEnv true false, [TfInit; TfPlan; TfApply true], inr 0))) by (vm_compute; reflexivity).
  split; [exact H|].
  destruct (full_restore_success _ _ _ _ _ _ _ _ _ H) as [_ [Hc [Hcmds _]]].
  split; [rewrite Hc; reflexivity | exact Hcmds].
Defined.

Definition plan_fails (c : tf_command) : Z := match c with TfPlan => 1 | _ => 0 end.

Lemma main_restore_exit1_only_from_terraform_witness :
  main_restore plan_fails true true true false 1%nat (mkTfEnv true false) witness_store
    = (mkS3 (history witness_store) [HeadObject], inr (mkTfEnv true true, [TfInit; TfPlan], inr 1))
  /\ plan_fails TfPlan <> 0.
Proof.
  assert (H : main_restore plan_fails true true true false 1%nat (mkTfEnv true false) witness_store
    = (mkS3 (history witness_store) [HeadObject], inr (mkTfEnv true true, [TfInit; TfPlan], inr 1)))
    by (vm_compute; reflexivity).
  split; [exact H|].
  destruct (main_restore_exit1_only_from_terraform _ _ _ _ _ _ _ _ _ _ _ H) as [_ [_ [Hi|[Hp|[Hd _]]]]].
  - cbn in Hi. contradiction.
  - exact Hp.
  - discriminate.
Defined.

End RestoreMainFacts.

Module MembershipsClientFacts.
Import Http MembershipsClient.

Lemma attempt_all_429 server rq
  (Hs : forall evs r, status_code (server evs r) = 429 /\ x_rate_limit_reset (server evs r) = None) :
  forall k c nt, rate_limit_reset c * 1000 <= clock_ms nt ->
  let '(c', nt', resp) := attempt server k c rq nt in
  events nt' = events nt ++ List.concat (List.repeat [Sent rq; Slept 1000] (S k))
  /\ clock_ms nt' = clock_ms nt + 1000 * Z.of_nat (S k)
  /\ status_code resp = 429 /\ rate_limit_reset c' = rate_limit_reset c.
Proof.
  induction k as [|k IH]; intros c nt Hr; cbn [attempt];
    unfold send, handle_rate_limit; cbn [events clock_ms];
    destruct (Hs (events nt) rq) as [H429 Hnone];
    rewrite H429, Hnone; cbn [Z.eqb Pos.eqb rate_limit_reset];
    replace (Z.max (rate_limit_reset c * 1000 - clock_ms nt + 1000) 1000) with 1000 by lia.
  - cbn. rewrite <- app_assoc. repeat split; try lia; exact H429.
  - match goal with |- context [attempt server k ?c' rq ?n'] =>
      specialize (IH c' n'); destruct (attempt server k c' rq n') as [[c2 nt2] resp2] end.
    cbn in IH. destruct IH as [He [Hc [Hst Hrc]]]; [lia|].
    rewrite He, Hc. cbn. rewrite <- !app_assoc. repeat split; try lia; assumption.
Qed.

(** The memberships client keeps the last X-Rate-Limit-Reset it saw. If
    that time has passed and the server answers every request with 429 and
    no reset header, [_make_request] sends the request three times, sleeps
    one second after each answer, and returns the last 429 response. *)
Theorem memberships_429_stale_reset_backoff server c rq nt :
  (forall evs r, status_code (server evs r) = 429 /\ x_rate_limit_reset (server evs r) = None) ->
  rate_limit_reset c * 1000 <= clock_ms nt ->
  let '(c', nt', resp) := make_request server c rq nt in
  events nt' = events nt ++ [Sent rq; Slept 1000; Sent rq; Slept 1000; Sent rq; Slept 1000]
  /\ clock_ms nt' = clock_ms nt + 3000
  /\ status_code resp = 429 /\ rate_limit_reset c' = rate_limit_reset c.
Proof.
  intros Hs Hr. unfold make_request.
  pose proof (attempt_all_429 server rq Hs 2 c nt Hr) as H.
  destruct (attempt server 2 c rq nt) as [[c' nt'] resp].
  destruct H as [He [Hc Hst]]. rewrite He, Hc. split; [reflexivity|]. split; [lia|exact Hst].
Qed.

Definition always_429 : list event -> request -> response :=
  fun _ _ => mkResp 429 None (Some 0) Json.JNull.

Lemma memberships_429_stale_reset_backoff_witness :
  let '(c', nt', resp) :=
    make_request always_429 client0 (mkReq GET "/api/v1/users?limit=200" None) (mkNet 1700000000000 []) in
  events nt' = [Sent (mkReq GET "/api/v1/users?limit=200" None); Slept 1000;
                Sent (mkReq GET "/api/v1/users?limit=200" None); Slept 1000;
                Sent (mkReq GET "/api/v1/users?limit=200" None); Slept 1000]
  /\ clock_ms nt' = 1700000003000 /\ status_code resp = 429 /\ rate_limit_reset c' = 0.
Proof.
  exact (memberships_429_stale_reset_backoff always_429 client0
           (mkReq GET "/api/v1/users?limit=200" None) (mkNet 1700000000000 [])
           (fun _ _ => conj eq_refl eq_refl) ltac:(cbn; lia)).
Defined.

End MembershipsClientFacts.

Module MembershipsExportFacts.
Import MembershipsExport.

Definition name_of (g : okta_group) : string :=
  match group_name g with Some n => n | None => EmptyString end.

Definition counted (ms : list (string * membership)) : nat :=
  list_sum (List.map (fun kv => member_count (snd kv)) ms).

(** An entry of the exported [memberships]. *)
Definition entry_ok (exclude_system : bool) (kv : string * membership) : Prop :=
  member_count (snd kv) = List.length (member_emails (snd kv))
  /\ (1 <= member_count (snd kv))%nat
  /\ Forall (fun e => e <> EmptyString /\ Py.lower e = e) (member_emails (snd kv))
  /\ (exclude_system = true -> ~ In (fst kv) system_groups).

Lemma ascii_lower_idem c : Py.ascii_lower (Py.ascii_lower c) = Py.ascii_lower c.
Proof. destruct c as [[] [] [] [] [] [] [] []]; reflexivity. Qed.

Lemma lower_idem s : Py.lower (Py.lower s) = Py.lower s.
Proof. induction s as [|c s IH]; cbn; [reflexivity|]. rewrite ascii_lower_idem, IH. reflexivity. Qed.

Lemma collect_emails_ok ms :
  Forall (fun e => e <> EmptyString /\ Py.lower e = e) (collect_emails ms).
Proof.
  induction ms as [|m ms IH]; cbn; [constructor|].
  destruct (String.eqb _ EmptyString) eqn:E; [exact IH|].
  constructor; [|exact IH]. split.
  - intros H. rewrite H in E. discriminate.
  - apply lower_idem.
Qed.

Lemma dict_set_keys {A} k (v : A) d x :
  In x (List.map fst (dict_set k v d)) -> x = k \/ In x (List.map fst d).
Proof.
  induction d as [|[k' v'] d IH]; cbn; [intros [H|[]]; left; congruence|].
  destruct (String.eqb k k') eqn:E; cbn.
  - intros [H|H]; [|tauto]. apply String.eqb_eq in E. left. congruence.
  - intros [H|H]; [tauto|]. destruct (IH H); tauto.
Qed.

Lemma dict_set_nodup {A} k (v : A) d :
  List.NoDup (List.map fst d) -> List.NoDup (List.map fst (dict_set k v d)).
Proof.
  induction d as [|[k' v'] d IH]; cbn; intros H.
  - constructor; [intros []|constructor].
  - inversion H as [|? ? Hn Hd]; subst.
    destruct (String.eqb k k') eqn:E; cbn; constructor; try assumption.
    + intros Hin. apply dict_set_keys in Hin as [Hk|Hin]; [|tauto].
      subst k'. rewrite String.eqb_refl in E. discriminate.
    + apply IH, Hd.
Qed.

Lemma dict_set_forall {A} (P : string * A -> Prop) k v d :
  Forall P d -> P (k, v) -> Forall P (dict_set k v d).
Proof.
  induction d as [|[k' v'] d IH]; cbn; intros H Hp.
  - constructor; [exact Hp|constructor].
  - inversion H as [|? ? Hh Ht]; subst.
    destruct (String.eqb k k') eqn:E.
    + apply String.eqb_eq in E. subst k'. constructor; assumption.
    + constructor; [exact Hh|apply IH; assumption].
Qed.

Lemma dict_set_counted_le k v d :
  (counted (dict_set k v d) <= counted d + member_count v)%nat.
Proof.
  unfold counted. induction d as [|[k' v'] d IH]; simpl; [lia|].
  destruct (String.eqb k k'); simpl in IH |- *; lia.
Qed.

Lemma dict_set_counted_fresh k v d :
  ~ In k (List.map fst d) -> counted (dict_set k v d) = (counted d + member_count v)%nat.
Proof.
  unfold counted. induction d as [|[k' v'] d IH]; simpl; intros Hn; [lia|].
  destruct (String.eqb k k') eqn:E.
  - apply String.eqb_eq in E. subst k'. tauto.
  - simpl in IH |- *. rewrite IH; [lia|tauto].
Qed.

Definition export_inv (es : bool) (st : list (string * membership) * nat) : Prop :=
  List.NoDup (List.map fst (fst st)) /\ Forall (entry_ok es) (fst st) /\ (counted (fst st) <= snd st)%nat.

Lemma system_name n : existsb (String.eqb n) system_groups = false -> ~ In n system_groups.
Proof.
  intros E Hin.
  assert (H : existsb (String.eqb n) system_groups = true)
    by (apply existsb_exists; exists n; split; [exact Hin|apply String.eqb_refl]).
  congruence.
Qed.

(** How one group changes the state: unchanged, or one entry set under its
    name with [member_count] added to [total_members]. *)
Lemma export_group_cases gm es st g :
  export_group gm es st g = st
  \/ exists emails,
       emails = collect_emails (gm (group_id g)) /\ emails <> []
       /\ (es = false \/ existsb (String.eqb (name_of g)) system_groups = false)
       /\ export_group gm es st g =
          (dict_set (name_of g) (mkMembership (group_id g) (List.length emails) emails) (fst st),
           (snd st + List.length emails)%nat).
Proof.
  destruct st as [ms total]. unfold export_group, name_of.
  destruct (es && existsb _ system_groups) eqn:Ex; [left; reflexivity|].
  destruct (gm (group_id g)) as [|m rest] eqn:Em; [left; reflexivity|].
  rewrite <- Em.
  destruct (collect_emails (gm (group_id g))) as [|e emails] eqn:Ec; [left; reflexivity|].
  right. exists (e :: emails). split; [reflexivity|]. split; [discriminate|].
  split; [destruct es; [right; exact Ex|left; reflexivity]|reflexivity].
Qed.

Lemma export_group_inv gm es st g : export_inv es st -> export_inv es (export_group gm es st g).
Proof.
  intros (Hn & Hf & Hc).
  destruct (export_group_cases gm es st g) as [->|(emails & Ee & Hne & Hsys & ->)];
    [split; [|split]; assumption|].
  unfold export_inv; cbn [fst snd]. split; [|split].
  - apply dict_set_nodup, Hn.
  - apply dict_set_forall; [exact Hf|].
    unfold entry_ok; cbn [fst snd member_count member_emails].
    split; [reflexivity|]. split; [destruct emails; [contradiction|cbn; lia]|].
    split; [subst emails; apply collect_emails_ok|].
    intros ->. destruct Hsys as [H|H]; [discriminate|apply system_name, H].
  - pose proof (dict_set_counted_le (name_of g) (mkMembership (group_id g) (List.length emails) emails) (fst st)).
    cbn [member_count] in H. lia.
Qed.

Lemma export_fold_inv gm es groups : forall st,
  export_inv es st -> export_inv es (fold_left (export_group gm es) groups st).
Proof.
  induction groups as [|g groups IH]; intros st H; cbn; [exact H|].
  apply IH, export_group_inv, H.
Qed.

Lemma export_group_keys gm es st g x :
  In x (List.map fst (fst (export_group gm es st g))) -> x = name_of g \/ In x (List.map fst (fst st)).
Proof.
  destruct (export_group_cases gm es st g) as [->|(emails & _ & _ & _ & ->)]; [tauto|].
  cbn [fst]. apply dict_set_keys.
Qed.

Lemma export_fold_exact gm es groups : forall st,
  List.NoDup (List.map name_of groups) ->
  (forall g, In g groups -> ~ In (name_of g) (List.map fst (fst st))) ->
  counted (fst st) = snd st ->
  counted (fst (fold_left (export_group gm es) groups st))
  = snd (fold_left (export_group gm es) groups st).
Proof.
  induction groups as [|g groups IH]; intros st Hnd Hfresh Hc; cbn; [exact Hc|].
  inversion Hnd as [|? ? Hng Hnd']; subst.
  apply IH; [exact Hnd'| |].
  - intros g' Hg' Hin. apply export_group_keys in Hin as [Heq|Hin].
    + apply Hng. rewrite <- Heq. apply in_map, Hg'.
    + exact (Hfresh g' (or_intror Hg') Hin).
  - destruct (export_group_cases gm es st g) as [->|(emails & _ & _ & _ & ->)]; [exact Hc|].
    cbn [fst snd]. rewrite dict_set_counted_fresh; [cbn [member_count]; lia|].
    apply (Hfresh g (or_introl eq_refl)).
Qed.

(** In what [export_memberships] writes, every group name appears once;
    every entry has [member_count] equal to the number of its emails and
    at least 1, every email is non-empty and lower-case, system groups are
    left out when [exclude_system] is set, and [total_members] is at least
    the sum of the [member_count]s. *)
Theorem export_memberships_wellformed gm es groups :
  let '(ms, total_members) := export_memberships gm es groups in
  List.NoDup (List.map fst ms) /\ Forall (entry_ok es) ms /\ (counted ms <= total_members)%nat.
Proof.
  unfold export_memberships.
  pose proof (export_fold_inv gm es groups ([], 0%nat)) as H.
  destruct (fold_left _ groups _) as [ms total]. apply H.
  split; [constructor|]. split; [constructor|]. cbn. lia.
Qed.

(** When the listed groups have distinct names, [total_members] is the sum
    of the [member_count]s of the exported entries. *)
Theorem export_total_members_exact gm es groups :
  List.NoDup (List.map name_of groups) ->
  counted (fst (export_memberships gm es groups)) = snd (export_memberships gm es groups).
Proof.
  intros Hnd. apply export_fold_exact; [exact Hnd| |reflexivity].
  intros g _ [].
Qed.

Definition sample_groups : list okta_group :=
  [mkGroup (Some "00g1") (Some "Everyone"); mkGroup (Some "00g2") (Some "Engineering");
   mkGroup (Some "00g3") None].

Definition sample_members (gid : option string) : list okta_member :=
  match gid with
  | Some "00g1" => [mkMember (Some "a@x.com")]
  | Some "00g2" => [mkMember (Some "Alice@X.com"); mkMember None; mkMember (Some "bob@x.com")]
  | Some "00g3" => [mkMember (Some "carol@x.com")]
  | _ => []
  end%string.

Lemma export_total_members_exact_witness :
  export_memberships sample_members true sample_groups =
    ([("Engineering", mkMembership (Some "00g2") 2 ["alice@x.com"; "bob@x.com"]);
      ("", mkMembership (Some "00g3") 1 ["carol@x.com"])], 3%nat)%string
  /\ counted (fst (export_memberships sample_members true sample_groups)) = 3%nat.
Proof.
  split; [vm_compute; reflexivity|].
  rewrite (export_total_members_exact sample_members true sample_groups ltac:(vm_compute; repeat constructor; cbn; intuition discriminate)).
  vm_compute. reflexivity.
Defined.

End MembershipsExportFacts.

Module ExportImportFacts.
Import Http MembershipsExport MembershipsExportFacts MembershipsImport.

Definition stats_of (st : stats * MembershipsClient.client * net) : stats := fst (fst st).

Lemma member_found server tu dry gid st e :
  is_Some (tu !! Py.lower e) ->
  let s := stats_of st in
  let s' := stats_of (import_member server tu dry gid st e) in
  groups_found s' = groups_found s /\ groups_missing s' = groups_missing s
  /\ users_missing s' = users_missing s /\ users_matched s' = S (users_matched s).
Proof.
  intros [uid Hu]. destruct st as [[s c] nt]. unfold import_member. rewrite Hu.
  destruct dry; cbn [negb]; [cbn; tauto|].
  destruct (MembershipsClient.add_user_to_group server c gid uid nt) as [[c' nt'] ok].
  destruct ok; cbn; tauto.
Qed.

Lemma members_found server tu dry gid es : forall st,
  Forall (fun e => is_Some (tu !! Py.lower e)) es ->
  let s := stats_of st in
  let s' := stats_of (fold_left (import_member server tu dry gid) es st) in
  groups_found s' = groups_found s /\ groups_missing s' = groups_missing s
  /\ users_missing s' = users_missing s /\ users_matched s' = (users_matched s + List.length es)%nat.
Proof.
  induction es as [|e es IH]; intros st Hf; cbn [fold_left List.length].
  - cbn zeta. repeat split; lia.
  - inversion Hf as [|? ? He Hes]; subst.
    destruct (member_found server tu dry gid st e He) as (G & M & U & Mt).
    destruct (IH (import_member server tu dry gid st e) Hes) as (G' & M' & U' & Mt').
    cbn zeta in *. repeat split; lia.
Qed.

Lemma groups_found_all server tu tg dry ms : forall st,
  Forall (fun gm => is_Some (tg !! fst gm) /\ Forall (fun e => is_Some (tu !! Py.lower e)) (snd gm)) ms ->
  let s := stats_of st in
  let s' := stats_of (fold_left (import_group server tu tg dry) ms st) in
  groups_found s' = (groups_found s + List.length ms)%nat /\ groups_missing s' = groups_missing s
  /\ users_missing s' = users_missing s
  /\ users_matched s' = (users_matched s + list_sum (List.map (fun gm => List.length (snd gm)) ms))%nat.
Proof.
  induction ms as [|[g es] ms IH]; intros st Hf; cbn [fold_left List.length List.map list_sum].
  - simpl. repeat split; lia.
  - inversion Hf as [|? ? [[gid Hg] He] Hms]; subst.
    destruct st as [[s c] nt].
    assert (Hgrp : import_group server tu tg dry (s, c, nt) (g, es)
                   = fold_left (import_member server tu dry gid) es (add_group_found s, c, nt))
      by (unfold import_group; cbn [fst snd] in Hg; rewrite Hg; reflexivity).
    destruct (IH (import_group server tu tg dry (s, c, nt) (g, es)) Hms) as (G' & M' & U' & Mt').
    rewrite Hgrp in *.
    destruct (members_found server tu dry gid es (add_group_found s, c, nt) He) as (G & M & U & Mt).
    cbn zeta in *. unfold stats_of in *. cbn [fst snd] in G', M', U', Mt' |- *.
    change (list_sum (List.length es :: List.map (fun gm => List.length (snd gm)) ms))
      with (List.length es + list_sum (List.map (fun gm : string * list string => List.length (snd gm)) ms))%nat.
    cbn in G, M, U, Mt.
    repeat split; lia.
Qed.

(** Importing the export of [export_memberships] (groups with distinct
    names) into an org that has every exported group and every exported
    email finds every group and every user: [groups_missing] and
    [users_missing] are 0, [groups_found] is the number of exported groups
    and [users_matched] is the exported [total_members]. *)
Theorem export_import_round_trip gm es groups server tu tg dry c nt ms total s c' nt' :
  export_memberships gm es groups = (ms, total) ->
  List.NoDup (List.map name_of groups) ->
  (forall kv, In kv ms ->
     is_Some (tg !! fst kv) /\ Forall (fun e => is_Some (tu !! e)) (member_emails (snd kv))) ->
  import_memberships server tu tg dry (import_input ms) c nt = (s, c', nt') ->
  groups_found s = List.length ms /\ groups_missing s = 0%nat
  /\ users_missing s = 0%nat /\ users_matched s = total.
Proof.
  intros Hex Hnd Hcov Himp.
  assert (Hinv := export_fold_inv gm es groups ([], 0%nat)).
  assert (Hexact := export_fold_exact gm es groups ([], 0%nat) Hnd (fun g _ H => H) eq_refl).
  unfold export_memberships in Hex. rewrite Hex in Hinv, Hexact. cbn [fst snd] in Hexact.
  destruct Hinv as (_ & Hok & _); [split; [constructor|]; split; [constructor|]; cbn; lia|].
  cbn [fst] in Hok.
  assert (Hf : Forall (fun gm => is_Some (tg !! fst gm)
                  /\ Forall (fun e => is_Some (tu !! Py.lower e)) (snd gm)) (import_input ms)).
  { unfold import_input. apply Forall_map. apply List.Forall_forall. intros kv Hkv.
    destruct (Hcov kv Hkv) as [Hg Hu]. cbn [fst snd]. split; [exact Hg|].
    destruct (proj1 (List.Forall_forall _ _) Hok kv Hkv) as (_ & _ & Hl & _).
    apply List.Forall_forall. intros e He.
    apply List.Forall_forall with (x := e) in Hl; [|exact He].
    apply List.Forall_forall with (x := e) in Hu; [|exact He].
    destruct Hl as [_ ->]. exact Hu. }
  destruct (groups_found_all server tu tg dry (import_input ms) (stats0, c, nt) Hf) as (G & M & U & Mt).
  unfold import_memberships in Himp. rewrite Himp in G, M, U, Mt. unfold stats_of in *.
  cbn [fst snd stats0 groups_found groups_missing users_missing users_matched] in G, M, U, Mt.
  unfold import_input in G. rewrite List.length_map in G.
  split; [lia|]. split; [exact M|]. split; [exact U|].
  rewrite Mt, <- Hexact. unfold counted, import_input. rewrite List.map_map. cbn [fst snd].
  rewrite Nat.add_0_l. f_equal. apply List.map_ext_in. intros kv Hkv.
  destruct (proj1 (List.Forall_forall _ _) Hok kv Hkv) as [Hc _]. symmetry. exact Hc.
Qed.

Definition sample_target_groups : gmap string string :=
  <["Engineering" := "00gA"]> (<["" := "00gB"]> ∅).

Definition sample_target_users : gmap string string :=
  <["alice@x.com" := "00u1"]> (<["bob@x.com" := "00u2"]> (<["carol@x.com" := "00u3"]> ∅)).

Definition put_204 : list event -> request -> response :=
  fun _ _ => mkResp 204 None None Json.JNull.

Lemma export_import_round_trip_witness :
  let '(s, _, _) :=
    import_memberships put_204 sample_target_users sample_target_groups false
      (import_input (fst (export_memberships sample_members true sample_groups)))
      MembershipsClient.client0 (mkNet 0 []) in
  groups_found s = 2%nat /\ groups_missing s = 0%nat /\ users_missing s = 0%nat
  /\ users_matched s = 3%nat.
Proof.
  destruct (import_memberships put_204 sample_target_users sample_target_groups false
      (import_input (fst (export_memberships sample_members true sample_groups)))
      MembershipsClient.client0 (mkNet 0 [])) as [[s c'] nt'] eqn:E.
  refine (export_import_round_trip sample_members true sample_groups put_204
            sample_target_users sample_target_groups false MembershipsClient.client0 (mkNet 0 [])
            (fst (export_memberships sample_members true sample_groups)) 3 s c' nt'
            _ _ _ E).
  - vm_compute. reflexivity.
  - vm_compute. repeat constructor; cbn; intuition discriminate.
  - vm_compute. intros kv [<-|[<-|[]]]; (split; [eexists; reflexivity|]);
      repeat constructor; eexists; reflexivity.
Defined.

End ExportImportFacts.
